(** * dlt-meta: dataflow-spec utilities and the integration-test runner

    A shallow embedding of [src/dataflow_spec.py] (class [DataflowSpecUtils])
    and of the parts of [integration_tests/run_integration_tests.py] that
    decide how a run proceeds ([process_arguments],
    [DLTMETARunner.upload_files_to_databricks], [DLTMETARunner.run]).

    Conventions.
    - A Python [str] is a Rocq [string]; its characters are read as code
      points below 256.  Comparison of strings is by code point, which is also
      the order the dataframe engine uses for string columns.
    - A Python [dict] with string keys is a [gmap string _]; a Python [set] of
      strings is a [gset string].  Insertion order of a dict is not kept: no
      function below depends on it.
    - A function that can raise returns a [result]; the exception is a value
      of [exn].
    - What the platform provides (the JSON parser, the SQL expression
      evaluator, the table catalog, the secret store, the file system walk,
      the workspace client) is a [Variable] of the section that uses it. *)

From Stdlib Require Import String Ascii ZArith Bool.
From stdpp Require Import gmap strings list sorting.

Set Warnings "-register-all".
Open Scope string_scope.

(** ** Python values *)

(** The values [json.loads] can build, which are also the values a row
    dictionary or a keyword argument can hold.  A float is kept as the text of
    its literal: no function below computes with numbers. *)
Inductive value : Type :=
  | VNone
  | VBool (b : bool)
  | VInt (n : Z)
  | VFloat (literal : string)
  | VStr (s : string)
  | VList (l : list value)
  | VDict (d : gmap string value).

(** ** Exceptions and results *)

Inductive exn : Type :=
  (** [raise Exception(msg)] with a message that is a fixed text. *)
  | Exception (msg : string)
  (** [raise Exception(f"mandatory missing keys= {missing} for {what}")]: the
      message prints a Python set, whose element order is unspecified, so the
      set itself is kept. *)
  | MandatoryMissingKeys (missing : gset string) (what : string)
  (** [raise Exception(f"Unsupported sink format: {format}")]. *)
  | UnsupportedSinkFormat (format : value)
  (** Raised by the interpreter or a library rather than by a [raise] of the
      program. *)
  | JSONDecodeError
  | AttributeError (attribute : string)
  | TypeError (msg : string)
  | KeyError (key : string)
  | NameError (name : string)
  | SystemExit
  (** A failure signalled by the platform (engine, workspace, secret store,
      file system). *)
  | PlatformError (what : string).

Inductive result (A : Type) : Type :=
  | Ok (a : A)
  | Raise (e : exn).
Arguments Ok {A} a.
Arguments Raise {A} e.

Definition bind {A B : Type} (r : result A) (k : A -> result B) : result B :=
  match r with
  | Ok a => k a
  | Raise e => Raise e
  end.

Declare Scope result_scope.
Delimit Scope result_scope with result.
Notation "x <- r ;; k" := (bind r (fun x => k))
  (at level 100, r at next level, right associativity) : result_scope.
Notation "r ;;; k" := (bind r (fun _ => k))
  (at level 100, right associativity) : result_scope.

(** [d[key]] of a Python dict. *)
Definition getitem {A : Type} (d : gmap string A) (key : string) : result A :=
  match d !! key with
  | Some v => Ok v
  | None => Raise (KeyError key)
  end.

(** [del d[key]]. *)
Definition delitem {A : Type} (d : gmap string A) (key : string)
    : result (gmap string A) :=
  match d !! key with
  | Some _ => Ok (delete key d)
  | None => Raise (KeyError key)
  end.

(** ** Strings *)

(** [str.isspace] on one character, for the code points below 256. *)
Definition isspace (c : ascii) : bool :=
  let n := nat_of_ascii c in
  (Nat.leb 9 n && Nat.leb n 13) || (Nat.leb 28 n && Nat.leb n 32)
  || Nat.eqb n 133 || Nat.eqb n 160.

Fixpoint lstrip_chars (l : list ascii) : list ascii :=
  match l with
  | [] => []
  | c :: l' => if isspace c then lstrip_chars l' else l
  end.

(** [str.strip()] with no argument. *)
Definition strip (s : string) : string :=
  string_of_list_ascii
    (rev (lstrip_chars (rev (lstrip_chars (list_ascii_of_string s))))).

Definition string_rev (s : string) : string :=
  string_of_list_ascii (rev (list_ascii_of_string s)).

(** [s.endswith(suffix)]. *)
Definition endswith (s suffix : string) : bool :=
  String.prefix (string_rev suffix) (string_rev s).

(** [needle in haystack] on strings. *)
Fixpoint str_contains (needle haystack : string) : bool :=
  String.prefix needle haystack
  || match haystack with
     | EmptyString => false
     | String _ rest => str_contains needle rest
     end.

(** The line break and indentation inside a triple-quoted literal. *)
Definition newline : string := String (ascii_of_nat 10) EmptyString.

Fixpoint spaces (n : nat) : string :=
  match n with
  | O => EmptyString
  | S n' => String " " (spaces n')
  end.

(** ** Truthiness *)

(** [bool(s)] for a value that is [None] or a string. *)
Definition truthy (s : option string) : bool :=
  match s with
  | Some s => negb (String.eqb s "")
  | None => false
  end.

(** * [DataflowSpecUtils] *)

Module DataflowSpecUtils.

(** ** Class attributes *)

Definition cdc_applychanges_api_mandatory_attributes : list string :=
  ["keys"; "sequence_by"; "scd_type"].

Definition cdc_applychanges_api_attributes : list string :=
  [ "keys";
    "sequence_by";
    "where";
    "ignore_null_updates";
    "apply_as_deletes";
    "apply_as_truncates";
    "column_list";
    "except_column_list";
    "scd_type";
    "track_history_column_list";
    "track_history_except_column_list";
    "flow_name";
    "once";
    "ignore_null_updates_column_list";
    "ignore_null_updates_except_column_list" ].

Definition cdc_applychanges_api_attributes_defaults : gmap string value :=
  list_to_map
    [ ("where", VNone);
      ("ignore_null_updates", VBool false);
      ("apply_as_deletes", VNone);
      ("apply_as_truncates", VNone);
      ("column_list", VNone);
      ("except_column_list", VNone);
      ("track_history_column_list", VNone);
      ("track_history_except_column_list", VNone);
      ("flow_name", VNone);
      ("once", VBool false);
      ("ignore_null_updates_column_list", VNone);
      ("ignore_null_updates_except_column_list", VNone) ].

Definition sink_mandatory_attributes : list string :=
  ["name"; "format"; "options"].

Definition supported_sink_formats : list string := ["delta"; "kafka"].

Definition additional_bronze_df_columns : list string :=
  ["appendFlows"; "appendFlowsSchemas"].

Definition additional_silver_df_columns : list string :=
  ["dataQualityExpectations"; "appendFlows"; "appendFlowsSchemas"].

Definition additional_cdc_apply_changes_columns : list string :=
  ["flow_name"; "once"].

(** ** Data classes *)

(** A dataclass does not check the type of a field: each holds whatever
    value the payload gave.  The field [where] is spelt [where_] ([where] is a
    keyword here). *)
Record CDCApplyChanges : Type := {
  keys : value;
  sequence_by : value;
  where_ : value;
  ignore_null_updates : value;
  apply_as_deletes : value;
  apply_as_truncates : value;
  column_list : value;
  except_column_list : value;
  scd_type : value;
  track_history_column_list : value;
  track_history_except_column_list : value;
  flow_name : value;
  once : value;
  ignore_null_updates_column_list : value;
  ignore_null_updates_except_column_list : value
}.

Record DLTSink : Type := {
  name : value;
  format : value;
  options : value
}.

(** A keyword argument of a dataclass constructor called with the entries of
    a dict as keywords: a field without a default that is not among the
    keywords is a [TypeError]. *)
Definition kwarg (kwargs : gmap string value) (field : string) : result value :=
  match kwargs !! field with
  | Some v => Ok v
  | None => Raise (TypeError "missing required argument")
  end.

(** Such a call refuses a keyword that is not a field of the class. *)
Definition known_kwargs (fields : list string) (kwargs : gmap string value)
    : result unit :=
  if bool_decide (dom kwargs ⊆ list_to_set fields)
  then Ok tt
  else Raise (TypeError "unexpected keyword argument").

(** The constructor of [CDCApplyChanges], called with the dict's entries. *)
Definition new_CDCApplyChanges (kwargs : gmap string value)
    : result CDCApplyChanges :=
  (known_kwargs cdc_applychanges_api_attributes kwargs ;;;
   a1 <- kwarg kwargs "keys" ;;
   a2 <- kwarg kwargs "sequence_by" ;;
   a3 <- kwarg kwargs "where" ;;
   a4 <- kwarg kwargs "ignore_null_updates" ;;
   a5 <- kwarg kwargs "apply_as_deletes" ;;
   a6 <- kwarg kwargs "apply_as_truncates" ;;
   a7 <- kwarg kwargs "column_list" ;;
   a8 <- kwarg kwargs "except_column_list" ;;
   a9 <- kwarg kwargs "scd_type" ;;
   a10 <- kwarg kwargs "track_history_column_list" ;;
   a11 <- kwarg kwargs "track_history_except_column_list" ;;
   a12 <- kwarg kwargs "flow_name" ;;
   a13 <- kwarg kwargs "once" ;;
   a14 <- kwarg kwargs "ignore_null_updates_column_list" ;;
   a15 <- kwarg kwargs "ignore_null_updates_except_column_list" ;;
   Ok {| keys := a1; sequence_by := a2; where_ := a3;
         ignore_null_updates := a4; apply_as_deletes := a5;
         apply_as_truncates := a6; column_list := a7;
         except_column_list := a8; scd_type := a9;
         track_history_column_list := a10;
         track_history_except_column_list := a11;
         flow_name := a12; once := a13;
         ignore_null_updates_column_list := a14;
         ignore_null_updates_except_column_list := a15 |})%result.

(** The constructor of [DLTSink], called with the dict's entries. *)
Definition new_DLTSink (kwargs : gmap string value) : result DLTSink :=
  (known_kwargs sink_mandatory_attributes kwargs ;;;
   a1 <- kwarg kwargs "name" ;;
   a2 <- kwarg kwargs "format" ;;
   a3 <- kwarg kwargs "options" ;;
   Ok {| name := a1; format := a2; options := a3 |})%result.

(** ** [populate_additional_df_cols] *)

Definition populate_additional_df_cols
    (onboarding_row_dict : gmap string value)
    (additional_columns : list string) : gmap string value :=
  foldl (fun (row : gmap string value) (column : string) =>
           if bool_decide (column ∉ dom row)
           then <[column := VNone]> row
           else row)
        onboarding_row_dict additional_columns.

(** ** [get_partition_cols] *)

(** [list(filter(None, l))] on a list of strings: the empty string is the
    only falsy one. *)
Definition filter_None (l : list string) : list string :=
  List.filter (fun s => negb (String.eqb s "")) l.

Definition get_partition_cols (partition_columns : list string)
    : option (list string) :=
  let partition_cols := None in
  if negb (Nat.eqb (length partition_columns) 0) then
    if Nat.eqb (length partition_columns) 1 then
      match partition_columns !! 0%nat with
      | Some c0 =>
          if String.eqb c0 "" || String.eqb (strip c0) ""
          then None
          else Some partition_columns
      | None => partition_cols
      end
    else Some (filter_None partition_columns)
  else partition_cols.

(** ** [check_spark_dataflowpipeline_conf_params] *)

(** The run-time configuration [spark.conf]: [spark.conf.get(key, None)] is
    the lookup [conf !! key]. *)
Definition check_spark_dataflowpipeline_conf_params
    (conf : gmap string string) (layer_arg : string) : result unit :=
  match conf !! "layer" with
  | None =>
      Raise (Exception
        ("parameter " +:+ layer_arg +:+ " is missing in spark.conf."
         +:+ newline +:+ spaces 17
         +:+ "Please set spark.conf.set(" +:+ layer_arg +:+ ",'silver') "))
  | Some layer =>
      match conf !! (layer +:+ ".dataflowspecTable") with
      | None =>
          Raise (Exception
            ("parameter " +:+ layer_arg
             +:+ ".dataflowspecTable is missing in sparkConf"
             +:+ newline +:+ spaces 16
             +:+ "Please set spark.conf.set('" +:+ layer_arg
             +:+ ".dataflowspecTable'='database.dataflowSpecTableName')"))
      | Some dataflow_spec_table =>
          let group := conf !! (layer +:+ ".group") in
          let dataflow_ids := conf !! (layer +:+ ".dataflowIds") in
          if bool_decide (group = None) && bool_decide (dataflow_ids = None)
          then
            Raise (Exception
              ("please provide " +:+ layer +:+ ".group or " +:+ layer
               +:+ ".dataflowIds in spark.conf"
               +:+ newline +:+ spaces 17
               +:+ "Please set spark.conf.set('" +:+ layer
               +:+ ".group'='groupName')"
               +:+ newline +:+ spaces 17 +:+ "OR"
               +:+ newline +:+ spaces 17
               +:+ "spark.conf.set('" +:+ layer
               +:+ ".dataflowIds'='comma seperated dataflowIds')"
               +:+ newline +:+ spaces 17))
          else Ok tt
      end
  end.

(** ** Payload parsing *)

(** [payload.keys()] and [payload[key] = ...] need a dict. *)
Definition as_dict (payload : value) : result (gmap string value) :=
  match payload with
  | VDict d => Ok d
  | _ => Raise (AttributeError "keys")
  end.

(** [for x in payload]: a list gives its elements, a dict its keys, a string
    its characters; nothing else is iterable. *)
Definition iterate (payload : value) : result (list value) :=
  match payload with
  | VList l => Ok l
  | VDict d => Ok (VStr <$> (map_to_list d).*1)
  | VStr s =>
      Ok ((fun c => VStr (String c EmptyString)) <$> list_ascii_of_string s)
  | _ => Raise (TypeError "object is not iterable")
  end.

(** [x in l] for a list [l] of strings: only a string is equal to a string. *)
Definition value_in (x : value) (l : list string) : bool :=
  match x with
  | VStr s => bool_decide (s ∈ l)
  | _ => false
  end.

(** [x == s] for a string [s]. *)
Definition value_is (x : value) (s : string) : bool :=
  match x with
  | VStr s' => String.eqb s' s
  | _ => false
  end.

(** The loop [for key in missing: payload[key] = defaults[key]]. *)
Fixpoint fill_defaults (defaults : gmap string value) (missing : list string)
    (payload : gmap string value) : result (gmap string value) :=
  match missing with
  | [] => Ok payload
  | key :: rest =>
      (v <- getitem defaults key ;;
       fill_defaults defaults rest (<[key := v]> payload))%result
  end.

(** The body of a [for] loop run on each element in turn, stopping at the
    first that raises. *)
Fixpoint for_each {A B : Type} (body : A -> result B) (l : list A)
    : result (list B) :=
  match l with
  | [] => Ok []
  | x :: rest =>
      (y <- body x ;;
       ys <- for_each body rest ;;
       Ok (y :: ys))%result
  end.

Section Platform.

(** [json.loads] on a text: [None] when it raises. *)
Variable json_loads : string -> option value.

(** [get_db_utils(spark)], as the [secrets.get] of the utilities it returns:
    [None] when it raises (the utilities cannot be imported or built).  The
    lookup [secrets.get(scope, key)] is [None] when the store raises. *)
Variable get_db_utils : option (value -> value -> option value).

(** [json.loads(x)] for a value [x]: only a string can be parsed. *)
Definition loads (x : value) : result value :=
  match x with
  | VStr s =>
      match json_loads s with
      | Some v => Ok v
      | None => Raise JSONDecodeError
      end
  | _ => Raise (TypeError "the JSON object must be str, bytes or bytearray")
  end.

(** ** [get_cdc_apply_changes] *)

Definition get_cdc_apply_changes (cdc_apply_changes : string)
    : result CDCApplyChanges :=
  (json <- loads (VStr cdc_apply_changes) ;;
   json_cdc_apply_changes <- as_dict json ;;
   let payload_keys := dom json_cdc_apply_changes in
   let missing_cdc_payload_keys : gset string :=
     list_to_set cdc_applychanges_api_attributes ∖ payload_keys in
   let missing_mandatory_attr : gset string :=
     list_to_set cdc_applychanges_api_mandatory_attributes ∖ payload_keys in
   if bool_decide (missing_mandatory_attr ≠ ∅) then
     Raise (MandatoryMissingKeys missing_mandatory_attr "merge info")
   else
     json_cdc_apply_changes <-
       fill_defaults cdc_applychanges_api_attributes_defaults
         (elements missing_cdc_payload_keys) json_cdc_apply_changes ;;
     let json_cdc_apply_changes :=
       populate_additional_df_cols json_cdc_apply_changes
         additional_cdc_apply_changes_columns in
     new_CDCApplyChanges json_cdc_apply_changes)%result.

(** ** [get_sinks] *)

(** The secret resolution of a kafka sink: when the options hold both
    references, the secret is stored under [kafka.bootstrap.servers] and the
    two references are deleted. *)
Definition resolve_kafka_secrets
    (secrets_get : value -> value -> option value)
    (kafka_options_json : gmap string value)
    : result (gmap string value) :=
  if bool_decide ("kafka_bootstrap_servers_secrets_scope" ∈ dom kafka_options_json)
     && bool_decide ("kafka_bootstrap_servers_secrets_key" ∈ dom kafka_options_json)
  then
    (kbs_secrets_scope <-
       getitem kafka_options_json "kafka_bootstrap_servers_secrets_scope" ;;
     kbs_secrets_key <-
       getitem kafka_options_json "kafka_bootstrap_servers_secrets_key" ;;
     secret <-
       match secrets_get kbs_secrets_scope kbs_secrets_key with
       | Some v => Ok v
       | None => Raise (PlatformError "secrets.get")
       end ;;
     let options := <["kafka.bootstrap.servers" := secret]> kafka_options_json in
     options <- delitem options "kafka_bootstrap_servers_secrets_scope" ;;
     delitem options "kafka_bootstrap_servers_secrets_key")%result
  else Ok kafka_options_json.

(** The body of the loop of [get_sinks], for one entry of the list. *)
Definition get_sink (entry : value) : result DLTSink :=
  (json_sink <- as_dict entry ;;
   let payload_keys := dom json_sink in
   let missing_mandatory_attr : gset string :=
     list_to_set sink_mandatory_attributes ∖ payload_keys in
   if bool_decide (missing_mandatory_attr ≠ ∅) then
     Raise (MandatoryMissingKeys missing_mandatory_attr "sink")
   else
     format <- getitem json_sink "format" ;;
     if negb (value_in format supported_sink_formats) then
       Raise (UnsupportedSinkFormat format)
     else
       json_sink <-
         (if bool_decide ("options" ∈ dom json_sink) then
            serialized <- getitem json_sink "options" ;;
            parsed <- loads serialized ;;
            Ok (<["options" := parsed]> json_sink)
          else Ok json_sink) ;;
       json_sink <-
         (if value_is format "kafka"
             && bool_decide ("options" ∈ dom json_sink) then
            kafka_options <- getitem json_sink "options" ;;
            secrets_get <-
              match get_db_utils with
              | Some secrets_get => Ok secrets_get
              | None => Raise (PlatformError "get_db_utils")
              end ;;
            kafka_options_json <- as_dict kafka_options ;;
            resolved <- resolve_kafka_secrets secrets_get kafka_options_json ;;
            Ok (<["options" := VDict resolved]> json_sink)
          else Ok json_sink) ;;
       new_DLTSink json_sink)%result.

Definition get_sinks (sinks : string) : result (list DLTSink) :=
  (json_sinks <- loads (VStr sinks) ;;
   entries <- iterate json_sinks ;;
   for_each get_sink entries)%result.

End Platform.

(** ** [_get_dataflow_spec] *)

(** A row of the dataflow-spec table: the three columns the query reads, and
    the other columns of the row.  Columns are taken to be non-null
    strings. *)
Record Row : Type := {
  dataFlowId : string;
  dataFlowGroup : string;
  version : string;
  columns : gmap string value
}.

(** A data frame is the list of its rows. *)
Definition DataFrame : Type := list Row.

(** The partition key of [Window.partitionBy(col("dataFlowGroup"),
    col("dataFlowId"))]. *)
Definition partition_key (r : Row) : string * string :=
  (dataFlowGroup r, dataFlowId r).

(** [orderBy(col("version").desc())]: [r1] is not after [r2]. *)
Definition version_desc (r1 r2 : Row) : Prop :=
  String.le (version r2) (version r1).

Global Instance version_desc_dec : RelDecision version_desc.
Proof. intros r1 r2. unfold version_desc. apply _. Defined.

(** The partitions of the window, one per key, in the order in which the keys
    first occur. *)
Definition partitions (df : DataFrame) : list (list Row) :=
  (fun k => List.filter (fun r => bool_decide (partition_key r = k)) df)
    <$> remove_dups (partition_key <$> df).

(** [withColumn("row_num", row_number().over(version_history))]: each
    partition is sorted and its rows are numbered from 1.  The engine does
    not say how rows of equal version are numbered, nor in which order the
    partitions come out; the sort and the order of first occurrence fix
    one choice. *)
Definition with_row_num (df : DataFrame) : list (Row * nat) :=
  p ← partitions df;
  imap (fun i r => (r, S i)) (merge_sort version_desc p).

(** [.where(col("row_num") == lit(1)).drop(col("row_num"))]. *)
Definition latest_version (df : DataFrame) : DataFrame :=
  fst <$> List.filter (fun rn => Nat.eqb (snd rn) 1) (with_row_num df).

Section Engine.

(** [spark.read.table(name)]: [None] when the engine raises. *)
Variable read_table : string -> option DataFrame.

(** The condition of [DataFrame.where(text)] as a predicate on rows: [None]
    when the engine cannot parse or resolve the expression. *)
Variable sql_condition : string -> option (Row -> bool).

(** [spark.conf.get(key)] with no default. *)
Definition conf_get (conf : gmap string string) (key : string) : result string :=
  match conf !! key with
  | Some v => Ok v
  | None => Raise (PlatformError key)
  end.

(** [if not arg: arg = spark.conf.get(key, None)]. *)
Definition or_conf (arg : option string) (conf : gmap string string)
    (key : string) : option string :=
  if negb (truthy arg) then conf !! key else arg.

(** The [where] of [_get_dataflow_spec], for the group and the ids as
    resolved. *)
Definition where_group_or_ids (group dataflow_ids : option string)
    (dataflow_spec_df : DataFrame) : result DataFrame :=
  if truthy group || truthy dataflow_ids then
    if truthy group then
      Ok (List.filter
            (fun r => String.eqb (dataFlowGroup r) (default "" group))
            dataflow_spec_df)
    else
      match sql_condition
              ("dataFlowId in (" +:+ default "" dataflow_ids +:+ ")") with
      | Some condition => Ok (List.filter condition dataflow_spec_df)
      | None => Raise (PlatformError "where")
      end
  else Ok dataflow_spec_df.

(** [if not dataflow_spec_df: ... spark.read.table(...)]: the data frame
    given, or the table the configuration names. *)
Definition given_or_table (conf : gmap string string) (layer : string)
    (dataflow_spec_df : option DataFrame) : result DataFrame :=
  match dataflow_spec_df with
  | None =>
      (dataflow_spec_table <- conf_get conf (layer +:+ ".dataflowspecTable") ;;
       match read_table dataflow_spec_table with
       | Some df => Ok df
       | None => Raise (PlatformError "read.table")
       end)%result
  | Some df => Ok df
  end.

Definition _get_dataflow_spec (conf : gmap string string) (layer : string)
    (dataflow_spec_df : option DataFrame) (group dataflow_ids : option string)
    : result DataFrame :=
  let group := or_conf group conf (layer +:+ ".group") in
  let dataflow_ids := or_conf dataflow_ids conf (layer +:+ ".dataflowIds") in
  (dataflow_spec_df <- given_or_table conf layer dataflow_spec_df ;;
   dataflow_spec_df <- where_group_or_ids group dataflow_ids dataflow_spec_df ;;
   Ok (latest_version dataflow_spec_df))%result.

End Engine.

End DataflowSpecUtils.

(** * [DataflowSpecUtils], continued *)

(** The methods of [DataflowSpecUtils] on append flows and on the typed bronze
    and silver records.  Their data classes have fields of the same names as
    the ones above, so each lives in a module of its own. *)

Module AppendFlows.
Import DataflowSpecUtils.

Definition append_flow_mandatory_attributes : list string :=
  ["name"; "source_format"; "create_streaming_table"; "source_details"].

Definition append_flow_api_attributes_defaults : gmap string value :=
  list_to_map
    [ ("comment", VNone);
      ("create_streaming_table", VBool false);
      ("reader_options", VNone);
      ("spark_conf", VNone);
      ("once", VBool false) ].

(** The fields of the data class [AppendFlow], in the order of the class. *)
Definition append_flow_fields : list string :=
  [ "name"; "comment"; "create_streaming_table"; "source_format";
    "source_details"; "reader_options"; "spark_conf"; "once" ].

Record AppendFlow : Type := {
  name : value;
  comment : value;
  create_streaming_table : value;
  source_format : value;
  source_details : value;
  reader_options : value;
  spark_conf : value;
  once : value
}.

(** The constructor of [AppendFlow], called with the dict's entries. *)
Definition new_AppendFlow (kwargs : gmap string value) : result AppendFlow :=
  (known_kwargs append_flow_fields kwargs ;;;
   a1 <- kwarg kwargs "name" ;;
   a2 <- kwarg kwargs "comment" ;;
   a3 <- kwarg kwargs "create_streaming_table" ;;
   a4 <- kwarg kwargs "source_format" ;;
   a5 <- kwarg kwargs "source_details" ;;
   a6 <- kwarg kwargs "reader_options" ;;
   a7 <- kwarg kwargs "spark_conf" ;;
   a8 <- kwarg kwargs "once" ;;
   Ok {| name := a1; comment := a2; create_streaming_table := a3;
         source_format := a4; source_details := a5; reader_options := a6;
         spark_conf := a7; once := a8 |})%result.

(** The body of the loop of [get_append_flows], for one entry of the list. *)
Definition get_append_flow (entry : value) : result AppendFlow :=
  (json_append_flow <- as_dict entry ;;
   let payload_keys := dom json_append_flow in
   let missing_append_flow_payload_keys : gset string :=
     dom append_flow_api_attributes_defaults ∖ payload_keys in
   let missing_mandatory_attr : gset string :=
     list_to_set append_flow_mandatory_attributes ∖ payload_keys in
   if bool_decide (missing_mandatory_attr ≠ ∅) then
     Raise (MandatoryMissingKeys missing_mandatory_attr "append flow")
   else
     json_append_flow <-
       fill_defaults append_flow_api_attributes_defaults
         (elements missing_append_flow_payload_keys) json_append_flow ;;
     new_AppendFlow json_append_flow)%result.

Section Platform.

Variable json_loads : string -> option value.

Definition get_append_flows (append_flows : string)
    : result (list AppendFlow) :=
  (json_append_flows <- loads json_loads (VStr append_flows) ;;
   entries <- iterate json_append_flows ;;
   for_each get_append_flow entries)%result.

End Platform.

End AppendFlows.

(** The values of the fields of a data class, in the order of the class,
    for a constructor called with the entries of a dict as keywords: a
    keyword that is not a field, or a field that is not among the keywords,
    is a [TypeError]. *)
Definition keyword_arguments (fields : list string)
    (kwargs : gmap string value) : result (list value) :=
  (DataflowSpecUtils.known_kwargs fields kwargs ;;;
   DataflowSpecUtils.for_each (DataflowSpecUtils.kwarg kwargs) fields)%result.

Module Bronze.

(** The fields of the data class [BronzeDataflowSpec], in the order of the
    class. *)
Definition bronze_fields : list string :=
  [ "dataFlowId"; "dataFlowGroup"; "sourceFormat"; "sourceDetails";
    "readerConfigOptions"; "targetFormat"; "targetDetails";
    "tableProperties"; "schema"; "partitionColumns"; "cdcApplyChanges";
    "dataQualityExpectations"; "quarantineTargetDetails";
    "quarantineTableProperties"; "appendFlows"; "appendFlowsSchemas";
    "sinks"; "version"; "createDate"; "createdBy"; "updateDate";
    "updatedBy" ].

Record BronzeDataflowSpec : Type := {
  dataFlowId : value;
  dataFlowGroup : value;
  sourceFormat : value;
  sourceDetails : value;
  readerConfigOptions : value;
  targetFormat : value;
  targetDetails : value;
  tableProperties : value;
  schema : value;
  partitionColumns : value;
  cdcApplyChanges : value;
  dataQualityExpectations : value;
  quarantineTargetDetails : value;
  quarantineTableProperties : value;
  appendFlows : value;
  appendFlowsSchemas : value;
  sinks : value;
  version : value;
  createDate : value;
  createdBy : value;
  updateDate : value;
  updatedBy : value
}.

(** The constructor of [BronzeDataflowSpec], called with the dict's entries. *)
Definition new_BronzeDataflowSpec (kwargs : gmap string value)
    : result BronzeDataflowSpec :=
  (args <- keyword_arguments bronze_fields kwargs ;;
   match args with
   | [ a1; a2; a3; a4; a5; a6; a7; a8; a9; a10; a11; a12; a13; a14; a15;
       a16; a17; a18; a19; a20; a21; a22 ] =>
       Ok {| dataFlowId := a1;
            dataFlowGroup := a2;
            sourceFormat := a3;
            sourceDetails := a4;
            readerConfigOptions := a5;
            targetFormat := a6;
            targetDetails := a7;
            tableProperties := a8;
            schema := a9;
            partitionColumns := a10;
            cdcApplyChanges := a11;
            dataQualityExpectations := a12;
            quarantineTargetDetails := a13;
            quarantineTableProperties := a14;
            appendFlows := a15;
            appendFlowsSchemas := a16;
            sinks := a17;
            version := a18;
            createDate := a19;
            createdBy := a20;
            updateDate := a21;
            updatedBy := a22 |}
   | _ => Raise (TypeError "missing required argument")
   end)%result.

End Bronze.

Module Silver.

(** The fields of the data class [SilverDataflowSpec], in the order of the
    class. *)
Definition silver_fields : list string :=
  [ "dataFlowId"; "dataFlowGroup"; "sourceFormat"; "sourceDetails";
    "readerConfigOptions"; "targetFormat"; "targetDetails";
    "tableProperties"; "selectExp"; "whereClause"; "partitionColumns";
    "cdcApplyChanges"; "dataQualityExpectations"; "appendFlows";
    "appendFlowsSchemas"; "sinks"; "version"; "createDate"; "createdBy";
    "updateDate"; "updatedBy" ].

Record SilverDataflowSpec : Type := {
  dataFlowId : value;
  dataFlowGroup : value;
  sourceFormat : value;
  sourceDetails : value;
  readerConfigOptions : value;
  targetFormat : value;
  targetDetails : value;
  tableProperties : value;
  selectExp : value;
  whereClause : value;
  partitionColumns : value;
  cdcApplyChanges : value;
  dataQualityExpectations : value;
  appendFlows : value;
  appendFlowsSchemas : value;
  sinks : value;
  version : value;
  createDate : value;
  createdBy : value;
  updateDate : value;
  updatedBy : value
}.

(** The constructor of [SilverDataflowSpec], called with the dict's entries. *)
Definition new_SilverDataflowSpec (kwargs : gmap string value)
    : result SilverDataflowSpec :=
  (args <- keyword_arguments silver_fields kwargs ;;
   match args with
   | [ a1; a2; a3; a4; a5; a6; a7; a8; a9; a10; a11; a12; a13; a14; a15;
       a16; a17; a18; a19; a20; a21 ] =>
       Ok {| dataFlowId := a1;
            dataFlowGroup := a2;
            sourceFormat := a3;
            sourceDetails := a4;
            readerConfigOptions := a5;
            targetFormat := a6;
            targetDetails := a7;
            tableProperties := a8;
            selectExp := a9;
            whereClause := a10;
            partitionColumns := a11;
            cdcApplyChanges := a12;
            dataQualityExpectations := a13;
            appendFlows := a14;
            appendFlowsSchemas := a15;
            sinks := a16;
            version := a17;
            createDate := a18;
            createdBy := a19;
            updateDate := a20;
            updatedBy := a21 |}
   | _ => Raise (TypeError "missing required argument")
   end)%result.

End Silver.

Module TypedSpecs.
Import DataflowSpecUtils.

(** [row.asDict()]: the columns of the row by name. *)
Definition asDict (row : Row) : gmap string value :=
  <["dataFlowId" := VStr (dataFlowId row)]>
    (<["dataFlowGroup" := VStr (dataFlowGroup row)]>
       (<["version" := VStr (version row)]> (columns row))).

(** The bodies of the loops of [get_bronze_dataflow_spec] and
    [get_silver_dataflow_spec], for one row. *)
Definition bronze_of_row (row : Row) : result Bronze.BronzeDataflowSpec :=
  let target_row :=
    populate_additional_df_cols (asDict row) additional_bronze_df_columns in
  Bronze.new_BronzeDataflowSpec target_row.

Definition silver_of_row (row : Row) : result Silver.SilverDataflowSpec :=
  let target_row :=
    populate_additional_df_cols (asDict row) additional_silver_df_columns in
  Silver.new_SilverDataflowSpec target_row.

Section Engine.

Variable read_table : string -> option DataFrame.
Variable sql_condition : string -> option (Row -> bool).

Definition get_bronze_dataflow_spec (conf : gmap string string)
    : result (list Bronze.BronzeDataflowSpec) :=
  (check_spark_dataflowpipeline_conf_params conf "bronze" ;;;
   dataflow_spec_rows <-
     _get_dataflow_spec read_table sql_condition conf "bronze"
       None None None ;;
   for_each bronze_of_row dataflow_spec_rows)%result.

Definition get_silver_dataflow_spec (conf : gmap string string)
    : result (list Silver.SilverDataflowSpec) :=
  (check_spark_dataflowpipeline_conf_params conf "silver" ;;;
   dataflow_spec_rows <-
     _get_dataflow_spec read_table sql_condition conf "silver"
       None None None ;;
   for_each silver_of_row dataflow_spec_rows)%result.

End Engine.

End TypedSpecs.

(** * [run_integration_tests.py] *)

Module RunIntegrationTests.

(** ** [process_arguments] *)

(** The names of the options in [input_args], in the order of the table.  The
    parser gives every one of them a key in the parsed arguments, bound to
    [None] when the option was not on the command line. *)
Definition input_args : list string :=
  [ "profile";
    "uc_catalog_name";
    "cloud_provider_name";
    "source";
    "eventhub_name";
    "eventhub_name_append_flow";
    "eventhub_producer_accesskey_name";
    "eventhub_consumer_accesskey_name";
    "eventhub_secrets_scope_name";
    "eventhub_accesskey_secret_name";
    "eventhub_namespace";
    "eventhub_port";
    "kafka_topic_name";
    "kafka_broker" ].

(** The two lists [process_arguments] passes to [check_cond_mandatory_arg]. *)
Definition eventhub_mandatory_args : list string :=
  [ "eventhub_name";
    "eventhub_name_append_flow";
    "eventhub_producer_accesskey_name";
    "eventhub_consumer_accesskey_name";
    "eventhub_secrets_scope_name";
    "eventhub_namespace";
    "eventhub_port" ].

Definition kafka_mandatory_args : list string :=
  ["kafka_topic_name"; "kafka_broker"].

(** The parsed arguments, [vars(parser.parse_args())]: a dict from option
    name to its value or [None]. *)
Fixpoint check_cond_mandatory_arg (args : gmap string (option string))
    (mandatory_args : list string) : result unit :=
  match mandatory_args with
  | [] => Ok tt
  | mand_arg :: rest =>
      (v <- getitem args mand_arg ;;
       match v with
       | None => Raise (Exception ("Please provide '--" +:+ mand_arg +:+ "'"))
       | Some _ => check_cond_mandatory_arg args rest
       end)%result
  end.

(** [process_arguments] from the parsed arguments on: the checks that depend
    on the source, then the arguments are returned. *)
Definition process_arguments (args : gmap string (option string))
    : result (gmap string (option string)) :=
  (source <- getitem args "source" ;;
   (if bool_decide (source = Some "eventhub") then
      check_cond_mandatory_arg args eventhub_mandatory_args
    else if bool_decide (source = Some "kafka") then
      check_cond_mandatory_arg args kafka_mandatory_args
    else Ok tt) ;;;
   Ok args)%result.

(** ** [DLTMETARunner] *)

(** The fields of [DLTMetaRunnerConf] that the modelled methods read or
    write. *)
Record DLTMetaRunnerConf : Type := {
  int_tests_dir : string;
  uc_volume_path : string;
  runners_nb_path : string;
  runners_full_local_path : string;
  remote_whl_path : option string
}.

(** The methods of the runner that [run] or [init_dltmeta_runner_conf] call
    and whose bodies are calls to the platform; each is observed as one
    event. *)
Inductive method : Type :=
  | initialize_uc_resources
  | generate_onboarding_file
  | create_bronze_silver_dlt
  | launch_workflow
  | download_test_results
  | clean_up.

(** What a run does that can be observed from outside. *)
Inductive event : Type :=
  | Call (m : method)
  | OpenFile (path : string)
  | FilesUpload (file_path : string)
  | WorkspaceMkdirs (path : string)
  | WorkspaceUpload (path : string)
  | UploadWheel (uc_volume_path : string).

(** A computation of the runner: it extends the trace of events and returns
    or raises. *)
Definition run_m (A : Type) : Type := list event -> list event * result A.

Definition ret {A : Type} (a : A) : run_m A := fun tr => (tr, Ok a).

Definition raise {A : Type} (e : exn) : run_m A := fun tr => (tr, Raise e).

Definition seq {A B : Type} (c : run_m A) (k : A -> run_m B) : run_m B :=
  fun tr =>
    match c tr with
    | (tr', Ok a) => k a tr'
    | (tr', Raise e) => (tr', Raise e)
    end.

Declare Scope run_scope.
Delimit Scope run_scope with run.
Notation "x <- c ;; k" := (seq c (fun x => k))
  (at level 100, c at next level, right associativity) : run_scope.
Notation "c ;;; k" := (seq c (fun _ => k))
  (at level 100, right associativity) : run_scope.

(** [os.path.join(a, b)] on POSIX paths. *)
Definition os_path_join (a b : string) : string :=
  if String.prefix "/" b then b
  else if String.eqb a "" || endswith a "/" then a +:+ b
  else a +:+ "/" +:+ b.

Section Runner.

(** The platform decides, from what has happened so far, whether an event
    goes through ([None]) or raises. *)
Variable platform : list event -> event -> option exn.

(** [os.walk(top)] as the list of its [(root, dirs, files)] triples, and
    [os.listdir(path)]. *)
Variable os_walk : string -> list (string * list string * list string).
Variable os_listdir : string -> list string.

(** What a method called as a whole leaves in the configuration, and the path
    the installer returns for the uploaded wheel. *)
Variable method_effect : method -> DLTMetaRunnerConf -> DLTMetaRunnerConf.
Variable wheel_path : string -> string.

Definition perform (e : event) : run_m unit :=
  fun tr =>
    match platform tr e with
    | None => ((tr ++ [e])%list, Ok tt)
    | Some x => ((tr ++ [e])%list, Raise x)
    end.

Definition call (m : method) (runner_conf : DLTMetaRunnerConf)
    : run_m DLTMetaRunnerConf :=
  (perform (Call m) ;;; ret (method_effect m runner_conf))%run.

(** [exit()]. *)
Definition exit : run_m unit := raise SystemExit.

(** The inner loop [for file in files: ... upload ...].  The loop variable
    [file] outlives the loop: the value it has afterwards is returned. *)
Fixpoint upload_each (runner_conf : DLTMetaRunnerConf) (root : string)
    (files : list string) (file : option string) : run_m (option string) :=
  match files with
  | [] => ret file
  | f :: rest =>
      (perform (OpenFile (os_path_join root f)) ;;;
       perform (FilesUpload
                  (uc_volume_path runner_conf +:+ "/" +:+ root +:+ "/" +:+ f)) ;;;
       upload_each runner_conf root rest (Some f))%run
  end.

(** The walk of the resources directory: every file of every directory. *)
Fixpoint upload_resources (runner_conf : DLTMetaRunnerConf)
    (walk : list (string * list string * list string))
    (file : option string) : run_m (option string) :=
  match walk with
  | [] => ret file
  | (root, dirs, files) :: rest =>
      (file <- upload_each runner_conf root files file ;;
       upload_resources runner_conf rest file)%run
  end.

(** The walk of the conf directory: [if file.endswith("json")] reads the loop
    variable of the inner loops, which is unbound when no inner loop has run
    yet. *)
Fixpoint upload_conf (runner_conf : DLTMetaRunnerConf)
    (walk : list (string * list string * list string))
    (file : option string) : run_m (option string) :=
  match walk with
  | [] => ret file
  | (root, dirs, files) :: rest =>
      match file with
      | None => raise (NameError "file")
      | Some last_file =>
          (file <-
             (if endswith last_file "json"
              then upload_each runner_conf root files file
              else ret file) ;;
           upload_conf runner_conf rest file)%run
      end
  end.

(** The loop over the notebooks of the source. *)
Fixpoint upload_notebooks (runner_conf : DLTMetaRunnerConf)
    (notebooks : list string) : run_m unit :=
  match notebooks with
  | [] => ret tt
  | notebook :: rest =>
      (perform (OpenFile
                  (os_path_join (runners_full_local_path runner_conf) notebook)) ;;;
       perform (WorkspaceUpload
                  (runners_nb_path runner_conf +:+ "/runners/" +:+ notebook)) ;;;
       upload_notebooks runner_conf rest)%run
  end.

Definition upload_files_to_databricks (runner_conf : DLTMetaRunnerConf)
    : run_m DLTMetaRunnerConf :=
  (file <- upload_resources runner_conf
             (os_walk (int_tests_dir runner_conf +:+ "/resources")) None ;;
   upload_conf runner_conf
     (os_walk (int_tests_dir runner_conf +:+ "/conf")) file ;;;
   perform (WorkspaceMkdirs (runners_nb_path runner_conf +:+ "/runners")) ;;;
   upload_notebooks runner_conf
     (os_listdir (runners_full_local_path runner_conf)) ;;;
   perform (UploadWheel (uc_volume_path runner_conf)) ;;;
   ret {| int_tests_dir := int_tests_dir runner_conf;
          uc_volume_path := uc_volume_path runner_conf;
          runners_nb_path := runners_nb_path runner_conf;
          runners_full_local_path := runners_full_local_path runner_conf;
          remote_whl_path := Some (wheel_path (uc_volume_path runner_conf)) |})%run.

Definition init_dltmeta_runner_conf (runner_conf : DLTMetaRunnerConf)
    : run_m DLTMetaRunnerConf :=
  (runner_conf <- call initialize_uc_resources runner_conf ;;
   runner_conf <- call generate_onboarding_file runner_conf ;;
   upload_files_to_databricks runner_conf)%run.

Definition run (runner_conf : DLTMetaRunnerConf) : run_m unit :=
  (runner_conf <- init_dltmeta_runner_conf runner_conf ;;
   exit ;;;
   runner_conf <- call create_bronze_silver_dlt runner_conf ;;
   runner_conf <- call launch_workflow runner_conf ;;
   runner_conf <- call download_test_results runner_conf ;;
   ret tt)%run.

End Runner.

End RunIntegrationTests.

(** * [DLTMETARunner], continued *)

(** The methods of the runner that build the run configuration, create the
    pipelines and clean up.  They read and write more of [DLTMetaRunnerConf]
    than the upload does; [RunnerConf] holds the fields they use. *)

Module RunnerLifecycle.

Definition cloud_node_type_id_dict : gmap string string :=
  {[ "aws" := "i3.xlarge";
     "azure" := "Standard_D3_v2";
     "gcp" := "n1-highmem-4" ]}.

(** The dict [source_paths] of [init_runner_conf]. *)
Definition source_paths : gmap string string :=
  {[ "cloudfiles" := "./integration_tests/notebooks/cloudfile_runners/";
     "eventhub" := "./integration_tests/notebooks/eventhub_runners/";
     "kafka" := "./integration_tests/notebooks/kafka_runners/" ]}.

(** A field of type [str] whose default is [None] is an [option string].
    [dbfs_tmp_path] is read by [clean_up] but is not a field of the data
    class, and no code of the repository assigns it: it is [None] while the
    object has no such attribute, and reading it then raises. *)
Record RunnerConf : Type := {
  run_id : string;
  username : option string;
  uc_catalog_name : option string;
  dlt_meta_schema : option string;
  bronze_schema : option string;
  silver_schema : option string;
  runners_nb_path : option string;
  runners_full_local_path : option string;
  source : option string;
  node_type_id : option string;
  test_output_file_path : option string;
  remote_whl_path : option string;
  bronze_pipeline_id : option string;
  bronze_pipeline_A2_id : option string;
  silver_pipeline_id : option string;
  cluster_id : option string;
  job_id : option string;
  dbfs_tmp_path : option (option string)
}.

(** A value inside an f-string: [None] prints as [None]. *)
Definition fmt (x : option string) : string := default "None" x.

(** [d[key]] for a key that may be [None]. *)
Definition getitem_key (d : gmap string string) (key : option string)
    : result string :=
  match key with
  | Some k => getitem d k
  | None => Raise (KeyError "None")
  end.

(** ** [init_runner_conf] *)

(** [uuid.uuid4().hex] and [self.wsi._my_username] are given. *)
Definition init_runner_conf (args : gmap string (option string))
    (my_username run_id : string) : result RunnerConf :=
  (arg_uc_catalog_name <- getitem args "uc_catalog_name" ;;
   arg_source <- getitem args "source" ;;
   arg_cloud_provider_name <- getitem args "cloud_provider_name" ;;
   arg_node_type_id <-
     getitem_key cloud_node_type_id_dict arg_cloud_provider_name ;;
   match getitem_key source_paths arg_source with
   | Ok path =>
       Ok {| run_id := run_id;
             username := Some my_username;
             uc_catalog_name := arg_uc_catalog_name;
             dlt_meta_schema := Some ("dlt_meta_dataflowspecs_it_" +:+ run_id);
             bronze_schema := Some ("dlt_meta_bronze_it_" +:+ run_id);
             silver_schema := Some ("dlt_meta_silver_it_" +:+ run_id);
             runners_nb_path :=
               Some ("/Users/" +:+ my_username +:+ "/dlt_meta_int_tests/"
                     +:+ run_id);
             runners_full_local_path := Some path;
             source := arg_source;
             node_type_id := Some arg_node_type_id;
             test_output_file_path :=
               Some ("/Users/" +:+ my_username +:+ "/dlt_meta_int_tests/"
                     +:+ run_id +:+ "/integration-test-output.csv");
             remote_whl_path := None;
             bronze_pipeline_id := None;
             bronze_pipeline_A2_id := None;
             silver_pipeline_id := None;
             cluster_id := None;
             job_id := None;
             dbfs_tmp_path := None |}
   | Raise _ =>
       Raise (Exception
         "Given source is not support. Support source are: cloudfiles, eventhub, or kafka")
   end)%result.

(** ** Calls to the workspace *)

(** An object of a listing: [schema.name], [schema.full_name]. *)
Record Info : Type := {
  name : string;
  full_name : string
}.

Inductive request : Type :=
  | PipelinesCreate (catalog : option string) (pipeline_name : string)
      (channel : option string)
      (configuration : gmap string (option string))
      (notebook_path : string) (target : option string)
  | JobsDelete (id : string)
  | PipelinesDelete (id : string)
  | ClustersDelete (id : string)
  | DbfsDelete (path : string)
  | SchemasList (catalog_name : string)
  | VolumesList (catalog_name schema_name : string)
  | VolumesDelete (volume : string)
  | TablesList (catalog_name schema_name : string)
  | TablesDelete (table : string)
  | SchemasDelete (schema : string).

(** A computation that extends the trace of requests and returns or
    raises. *)
Definition life_m (A : Type) : Type :=
  list request -> list request * result A.

Definition pure {A : Type} (a : A) : life_m A := fun tr => (tr, Ok a).

Definition fail {A : Type} (e : exn) : life_m A := fun tr => (tr, Raise e).

Definition andthen {A B : Type} (c : life_m A) (k : A -> life_m B)
    : life_m B :=
  fun tr =>
    match c tr with
    | (tr', Ok a) => k a tr'
    | (tr', Raise e) => (tr', Raise e)
    end.

Declare Scope life_scope.
Delimit Scope life_scope with life.
Notation "x <- c ;; k" := (andthen c (fun x => k))
  (at level 100, c at next level, right associativity) : life_scope.
Notation "c ;;; k" := (andthen c (fun _ => k))
  (at level 100, right associativity) : life_scope.

(** [if cond: body]. *)
Definition when (cond : bool) (body : life_m unit) : life_m unit :=
  if cond then body else pure tt.

(** The body of a [for] loop run for each element in turn. *)
Fixpoint for_ {A : Type} (l : list A) (body : A -> life_m unit)
    : life_m unit :=
  match l with
  | [] => pure tt
  | x :: rest => (body x ;;; for_ rest body)%life
  end.

Section Workspace.

(** The workspace decides, from the requests so far, whether a request goes
    through ([None]) or raises. *)
Variable workspace : list request -> request -> option exn.

(** What [pipelines.create] returns when it goes through: [None], or a
    handle with its [pipeline_id]. *)
Variable created : list request -> request -> option (option string).

(** What a listing returns when it goes through.  The listing is taken
    whole, before the loop over it starts. *)
Variable listed : list request -> request -> list Info.

(** A request and its answer. *)
Definition ask {A : Type} (answer : list request -> request -> A)
    (r : request) : life_m A :=
  fun tr =>
    match workspace tr r with
    | None => ((tr ++ [r])%list, Ok (answer tr r))
    | Some e => ((tr ++ [r])%list, Raise e)
    end.

(** A request whose answer is not used. *)
Definition send (r : request) : life_m unit := ask (fun _ _ => tt) r.

(** ** [create_dlt_meta_pipeline] *)

(** The configuration map of the pipeline: the dict literal, then the
    assignment of the table key. *)
Definition pipeline_configuration (layer group : string)
    (runner_conf : RunnerConf) : gmap string (option string) :=
  let configuration : gmap string (option string) :=
    <["dlt_meta_whl" := remote_whl_path runner_conf]>
      (<[layer +:+ ".group" := Some group]>
         (<["layer" := Some layer]> ∅)) in
  if truthy (uc_catalog_name runner_conf) then
    <[layer +:+ ".dataflowspecTable" :=
        Some (fmt (uc_catalog_name runner_conf) +:+ "."
              +:+ fmt (dlt_meta_schema runner_conf) +:+ "."
              +:+ layer +:+ "_dataflowspec_cdc")]> configuration
  else
    <[layer +:+ ".dataflowspecTable" :=
        Some (fmt (dlt_meta_schema runner_conf) +:+ "."
              +:+ layer +:+ "_dataflowspec_cdc")]> configuration.

Definition create_dlt_meta_pipeline (pipeline_name layer group : string)
    (target_schema : option string) (runner_conf : RunnerConf)
    : life_m (option string) :=
  let configuration := pipeline_configuration layer group runner_conf in
  let notebook_path :=
    fmt (runners_nb_path runner_conf) +:+ "/runners/init_dlt_meta_pipeline" in
  let r :=
    if truthy (uc_catalog_name runner_conf) then
      PipelinesCreate (uc_catalog_name runner_conf) pipeline_name None
        configuration notebook_path target_schema
    else
      PipelinesCreate None pipeline_name (Some "PREVIEW")
        configuration notebook_path target_schema in
  (handle <- ask created r ;;
   match handle with
   | None => fail (Exception "Pipeline creation failed")
   | Some pipeline_id => pure pipeline_id
   end)%life.

(** ** [create_bronze_silver_dlt] *)

Definition set_bronze_pipeline_id (rc : RunnerConf) (id : option string)
    : RunnerConf :=
  {| run_id := run_id rc; username := username rc;
     uc_catalog_name := uc_catalog_name rc;
     dlt_meta_schema := dlt_meta_schema rc;
     bronze_schema := bronze_schema rc; silver_schema := silver_schema rc;
     runners_nb_path := runners_nb_path rc;
     runners_full_local_path := runners_full_local_path rc;
     source := source rc; node_type_id := node_type_id rc;
     test_output_file_path := test_output_file_path rc;
     remote_whl_path := remote_whl_path rc;
     bronze_pipeline_id := id;
     bronze_pipeline_A2_id := bronze_pipeline_A2_id rc;
     silver_pipeline_id := silver_pipeline_id rc;
     cluster_id := cluster_id rc; job_id := job_id rc;
     dbfs_tmp_path := dbfs_tmp_path rc |}.

Definition set_bronze_pipeline_A2_id (rc : RunnerConf) (id : option string)
    : RunnerConf :=
  {| run_id := run_id rc; username := username rc;
     uc_catalog_name := uc_catalog_name rc;
     dlt_meta_schema := dlt_meta_schema rc;
     bronze_schema := bronze_schema rc; silver_schema := silver_schema rc;
     runners_nb_path := runners_nb_path rc;
     runners_full_local_path := runners_full_local_path rc;
     source := source rc; node_type_id := node_type_id rc;
     test_output_file_path := test_output_file_path rc;
     remote_whl_path := remote_whl_path rc;
     bronze_pipeline_id := bronze_pipeline_id rc;
     bronze_pipeline_A2_id := id;
     silver_pipeline_id := silver_pipeline_id rc;
     cluster_id := cluster_id rc; job_id := job_id rc;
     dbfs_tmp_path := dbfs_tmp_path rc |}.

Definition set_silver_pipeline_id (rc : RunnerConf) (id : option string)
    : RunnerConf :=
  {| run_id := run_id rc; username := username rc;
     uc_catalog_name := uc_catalog_name rc;
     dlt_meta_schema := dlt_meta_schema rc;
     bronze_schema := bronze_schema rc; silver_schema := silver_schema rc;
     runners_nb_path := runners_nb_path rc;
     runners_full_local_path := runners_full_local_path rc;
     source := source rc; node_type_id := node_type_id rc;
     test_output_file_path := test_output_file_path rc;
     remote_whl_path := remote_whl_path rc;
     bronze_pipeline_id := bronze_pipeline_id rc;
     bronze_pipeline_A2_id := bronze_pipeline_A2_id rc;
     silver_pipeline_id := id;
     cluster_id := cluster_id rc; job_id := job_id rc;
     dbfs_tmp_path := dbfs_tmp_path rc |}.

Definition create_bronze_silver_dlt (runner_conf : RunnerConf)
    : life_m RunnerConf :=
  (id <- create_dlt_meta_pipeline
           ("dlt-meta-bronze-" +:+ run_id runner_conf) "bronze" "A1"
           (bronze_schema runner_conf) runner_conf ;;
   let runner_conf := set_bronze_pipeline_id runner_conf id in
   if truthy (source runner_conf)
      && bool_decide (source runner_conf = Some "cloudfiles") then
     id <- create_dlt_meta_pipeline
             ("dlt-meta-bronze-A2-" +:+ run_id runner_conf) "bronze" "A2"
             (bronze_schema runner_conf) runner_conf ;;
     let runner_conf := set_bronze_pipeline_A2_id runner_conf id in
     id <- create_dlt_meta_pipeline
             ("dlt-meta-silver-" +:+ run_id runner_conf) "silver" "A1"
             (silver_schema runner_conf) runner_conf ;;
     pure (set_silver_pipeline_id runner_conf id)
   else pure runner_conf)%life.

(** ** [clean_up] *)

(** [runner_conf.dbfs_tmp_path]. *)
Definition get_dbfs_tmp_path (runner_conf : RunnerConf)
    : life_m (option string) :=
  match dbfs_tmp_path runner_conf with
  | Some v => pure v
  | None => fail (AttributeError "dbfs_tmp_path")
  end.

(** The body of the loop over the schemas of the catalog. *)
Definition clean_schema (catalog_name : string)
    (test_schema_list : list (option string)) (schema : Info)
    : life_m unit :=
  when (bool_decide (Some (name schema) ∈ test_schema_list))
    (vol_list <- ask listed (VolumesList catalog_name (name schema)) ;;
     for_ vol_list (fun vol => send (VolumesDelete (full_name vol))) ;;;
     tables_list <- ask listed (TablesList catalog_name (name schema)) ;;
     for_ tables_list (fun table => send (TablesDelete (full_name table))) ;;;
     send (SchemasDelete (full_name schema)))%life.

Definition clean_up (runner_conf : RunnerConf) : life_m unit :=
  (when (truthy (job_id runner_conf))
     (send (JobsDelete (fmt (job_id runner_conf)))) ;;;
   when (truthy (bronze_pipeline_id runner_conf))
     (send (PipelinesDelete (fmt (bronze_pipeline_id runner_conf)))) ;;;
   when (truthy (silver_pipeline_id runner_conf))
     (send (PipelinesDelete (fmt (silver_pipeline_id runner_conf)))) ;;;
   when (truthy (cluster_id runner_conf))
     (send (ClustersDelete (fmt (cluster_id runner_conf)))) ;;;
   dbfs <- get_dbfs_tmp_path runner_conf ;;
   when (truthy dbfs) (send (DbfsDelete (fmt dbfs))) ;;;
   when (truthy (uc_catalog_name runner_conf))
     (let test_schema_list :=
        [ dlt_meta_schema runner_conf; bronze_schema runner_conf;
          silver_schema runner_conf ] in
      let catalog_name := fmt (uc_catalog_name runner_conf) in
      schema_list <- ask listed (SchemasList catalog_name) ;;
      for_ schema_list (clean_schema catalog_name test_schema_list)))%life.

End Workspace.

End RunnerLifecycle.

(** * Vocabulary of the statements

    The predicates the statements below are written with, and the data of
    the scenarios they are tried on.  Nothing here is part of the program. *)

Module Vocabulary.
Import DataflowSpecUtils RunIntegrationTests.

(** ** Dataflow-spec utilities *)

(** The rows of one partition. *)
Definition partition_of (df : DataFrame) (k : string * string) : list Row :=
  List.filter (fun r => bool_decide (partition_key r = k)) df.

(** Rows of one flow have distinct versions. *)
Definition distinct_versions (df : DataFrame) : Prop :=
  ∀ r1 r2, r1 ∈ df → r2 ∈ df →
           partition_key r1 = partition_key r2 →
           version r1 = version r2 → r1 = r2.

(** A row of the flow [(group, id)] at [version]; the schema column tells
    the versions apart. *)
Definition flow_row (group id version : string) : Row :=
  {| dataFlowId := id; dataFlowGroup := group; version := version;
     columns := {[ "schema" := VStr ("schema_v" +:+ version) ]} |}.

Definition three_versions : DataFrame :=
  [flow_row "G" "F" "1"; flow_row "G" "F" "2"; flow_row "G" "F" "3"].

(** An engine with no table and no SQL. *)
Definition no_table : string → option DataFrame := fun _ => None.
Definition no_sql : string → option (Row → bool) := fun _ => None.

(** Rows of the groups A1 and A2 with the same ids, and an id filter that
    keeps nothing. *)
Definition two_groups : DataFrame :=
  [flow_row "A1" "100" "1"; flow_row "A2" "100" "1"; flow_row "A1" "101" "1"].

Definition keep_nothing : string → option (Row → bool) :=
  fun _ => Some (fun _ => false).

(** A CDC payload with the three mandatory attributes and nothing else. *)
Definition minimal_cdc : gmap string value :=
  {[ "keys" := VList [VStr "id"];
     "sequence_by" := VStr "operation_date";
     "scd_type" := VStr "1" ]}.

(** A CDC payload that sets two optional attributes as well. *)
Definition scd2_cdc : gmap string value :=
  {[ "keys" := VList [VStr "id"];
     "sequence_by" := VStr "operation_date";
     "scd_type" := VStr "2";
     "once" := VBool true;
     "track_history_except_column_list" := VList [VStr "file_path"] ]}.

(** A parser that knows two texts: a list of one kafka sink, and the options
    of that sink, which hold the two secret references; and a secret store
    with one secret. *)
Definition kafka_sink : gmap string value :=
  {[ "name" := VStr "s"; "format" := VStr "kafka";
     "options" := VStr "options" ]}.

Definition kafka_options : gmap string value :=
  {[ "kafka_bootstrap_servers_secrets_scope" := VStr "scope";
     "kafka_bootstrap_servers_secrets_key" := VStr "key";
     "topic" := VStr "t" ]}.

Definition kafka_json_loads (text : string) : option value :=
  if String.eqb text "sinks" then Some (VList [VDict kafka_sink])
  else if String.eqb text "options" then Some (VDict kafka_options)
  else None.

Definition one_secret (scope key : value) : option value :=
  match scope, key with
  | VStr "scope", VStr "key" => Some (VStr "broker:9092")
  | _, _ => None
  end.

(** ** The integration-test runner *)

(** A computation only adds events that satisfy [P] to the trace. *)
Definition emits {A : Type} (P : event → Prop) (c : run_m A) : Prop :=
  ∀ tr, ∃ ext, fst (c tr) = (tr ++ ext)%list ∧ Forall P ext.

(** The events of [init_dltmeta_runner_conf]. *)
Definition during_init (e : event) : Prop :=
  match e with
  | Call initialize_uc_resources | Call generate_onboarding_file => True
  | Call _ => False
  | OpenFile _ | FilesUpload _ | WorkspaceMkdirs _ | WorkspaceUpload _
  | UploadWheel _ => True
  end.

(** The events of uploading every file of one directory. *)
Definition uploads (runner_conf : DLTMetaRunnerConf) (root : string)
    (files : list string) : list event :=
  f ← files;
  [ OpenFile (os_path_join root f);
    FilesUpload (uc_volume_path runner_conf +:+ "/" +:+ root +:+ "/" +:+ f) ].

(** The parsed arguments of an invocation with the source [eventhub]: every
    event-hub option but the two given has a value. *)
Definition eventhub_args (namespace secret_name : option string)
    : gmap string (option string) :=
  list_to_map
    [ ("profile", None);
      ("uc_catalog_name", Some "cat");
      ("cloud_provider_name", Some "azure");
      ("source", Some "eventhub");
      ("eventhub_name", Some "iot");
      ("eventhub_name_append_flow", Some "iot_af");
      ("eventhub_producer_accesskey_name", Some "producer");
      ("eventhub_consumer_accesskey_name", Some "consumer");
      ("eventhub_secrets_scope_name", Some "eventhubs_creds");
      ("eventhub_accesskey_secret_name", secret_name);
      ("eventhub_namespace", namespace);
      ("eventhub_port", Some "9093");
      ("kafka_topic_name", None);
      ("kafka_broker", None) ].

(** A platform that accepts every call, and a runner configuration. *)
Definition accepting : list event → event → option exn := fun _ _ => None.

Definition a_conf : DLTMetaRunnerConf :=
  {| int_tests_dir := "integration_tests";
     uc_volume_path := "/Volumes/cat/dlt_meta/files/";
     runners_nb_path := "/Users/me/dlt_meta_int_tests/run";
     runners_full_local_path := "./integration_tests/notebooks/cloudfile_runners/";
     remote_whl_path := None |}.

(** The files of a walk, in the order in which the loops visit them. *)
Definition files_seen (walk : list (string * list string * list string))
    : list string :=
  entry ← walk; entry.2.

(** The events of uploading every file of every directory of a walk. *)
Definition tree_uploads (runner_conf : DLTMetaRunnerConf)
    (walk : list (string * list string * list string)) : list event :=
  entry ← walk; uploads runner_conf entry.1.1 entry.2.

(** The uploads of the conf tree as the specification words them: each
    directory is decided once, on the name of the file seen last; when that
    name ends in [json] every file of the directory is uploaded and the next
    directory is decided on the last of them; when it does not, nothing more
    is uploaded. *)
Fixpoint conf_uploads (runner_conf : DLTMetaRunnerConf)
    (walk : list (string * list string * list string)) (last_seen : string)
    : list event :=
  match walk with
  | [] => []
  | (root, _, files) :: rest =>
      if endswith last_seen "json" then
        (uploads runner_conf root files
         ++ conf_uploads runner_conf rest (default last_seen (last files)))%list
      else []
  end.

(** The events of uploading the notebooks of a listing. *)
Definition notebook_uploads (runner_conf : DLTMetaRunnerConf)
    (notebooks : list string) : list event :=
  notebook ← notebooks;
  [ OpenFile (os_path_join (runners_full_local_path runner_conf) notebook);
    WorkspaceUpload (runners_nb_path runner_conf +:+ "/runners/" +:+ notebook) ].

(** What the upload does after the conf tree. *)
Definition after_conf (runner_conf : DLTMetaRunnerConf)
    (notebooks : list string) : list event :=
  (WorkspaceMkdirs (runners_nb_path runner_conf +:+ "/runners")
   :: notebook_uploads runner_conf notebooks
   ++ [UploadWheel (uc_volume_path runner_conf)])%list.

(** A source tree: two directories of resources, the second ending with a
    file named [...json], and a conf directory with an onboarding file and a
    template; one notebook. *)
Definition a_walk (top : string)
    : list (string * list string * list string) :=
  if String.eqb top "integration_tests/resources" then
    [ ("integration_tests/resources", ["data"], ["ddl.sql"]);
      ("integration_tests/resources/data", [],
       ["customers.csv"; "schema.json"]) ]
  else if String.eqb top "integration_tests/conf" then
    [ ("integration_tests/conf", [],
       ["onboarding.json"; "cloudfiles-onboarding.template"]) ]
  else [].

Definition a_listdir (path : string) : list string := ["init.py"].

Definition no_effect (m : method) (runner_conf : DLTMetaRunnerConf)
    : DLTMetaRunnerConf := runner_conf.

Definition a_wheel (uc_volume_path : string) : string :=
  uc_volume_path +:+ "dlt_meta.whl".

(** The same tree with the resources ending on a file that is not named
    [...json]. *)
Definition csv_walk (top : string)
    : list (string * list string * list string) :=
  if String.eqb top "integration_tests/resources" then
    [ ("integration_tests/resources", [], ["schema.json"; "customers.csv"]) ]
  else a_walk top.

End Vocabulary.

Module MoreVocabulary.
Import DataflowSpecUtils.

(** ** Bronze and silver specs *)

(** The values of the fields of a spec, in the order of its class. *)
Definition bronze_values (spec : Bronze.BronzeDataflowSpec) : list value :=
  [ Bronze.dataFlowId spec; Bronze.dataFlowGroup spec;
    Bronze.sourceFormat spec; Bronze.sourceDetails spec;
    Bronze.readerConfigOptions spec; Bronze.targetFormat spec;
    Bronze.targetDetails spec; Bronze.tableProperties spec;
    Bronze.schema spec; Bronze.partitionColumns spec;
    Bronze.cdcApplyChanges spec; Bronze.dataQualityExpectations spec;
    Bronze.quarantineTargetDetails spec;
    Bronze.quarantineTableProperties spec; Bronze.appendFlows spec;
    Bronze.appendFlowsSchemas spec; Bronze.sinks spec; Bronze.version spec;
    Bronze.createDate spec; Bronze.createdBy spec; Bronze.updateDate spec;
    Bronze.updatedBy spec ].

Definition silver_values (spec : Silver.SilverDataflowSpec) : list value :=
  [ Silver.dataFlowId spec; Silver.dataFlowGroup spec;
    Silver.sourceFormat spec; Silver.sourceDetails spec;
    Silver.readerConfigOptions spec; Silver.targetFormat spec;
    Silver.targetDetails spec; Silver.tableProperties spec;
    Silver.selectExp spec; Silver.whereClause spec;
    Silver.partitionColumns spec; Silver.cdcApplyChanges spec;
    Silver.dataQualityExpectations spec; Silver.appendFlows spec;
    Silver.appendFlowsSchemas spec; Silver.sinks spec; Silver.version spec;
    Silver.createDate spec; Silver.createdBy spec; Silver.updateDate spec;
    Silver.updatedBy spec ].

(** The columns every row has. *)
Definition key_columns : list string :=
  ["dataFlowId"; "dataFlowGroup"; "version"].

(** A configuration of the silver layer only, and one of the bronze layer
    only. *)
Definition silver_only : gmap string string :=
  {[ "layer" := "silver";
     "silver.dataflowspecTable" := "meta.silver_dataflowspec";
     "silver.group" := "A1" ]}.

Definition bronze_only : gmap string string :=
  {[ "layer" := "bronze";
     "bronze.dataflowspecTable" := "meta.bronze_dataflowspec";
     "bronze.group" := "A1" ]}.

(** ** Sinks *)

(** An entry of the list of sinks that has the three attributes and no
    other. *)
Definition sink_entry (payload : gmap string value) (n f o : value) : Prop :=
  dom payload ⊆ list_to_set sink_mandatory_attributes
  ∧ payload !! "name" = Some n
  ∧ payload !! "format" = Some f
  ∧ payload !! "options" = Some o.

End MoreVocabulary.

Module LifecycleVocabulary.
Import RunnerLifecycle.

(** ** The life cycle of a run *)

(** A computation only appends requests to the trace, each satisfying
    [P]. *)
Definition sends {A : Type} (P : request → Prop) (c : life_m A) : Prop :=
  ∀ tr, ∃ ext, fst (c tr) = (tr ++ ext)%list ∧ Forall P ext.

(** A computation always raises, an exception satisfying [E], after
    appending requests that satisfy [P]. *)
Definition stops {A : Type} (P : request → Prop) (E : exn → Prop)
    (c : life_m A) : Prop :=
  ∀ tr, ∃ ext e, c tr = ((tr ++ ext)%list, Raise e) ∧ Forall P ext ∧ E e.

(** The schemas of a run: [test_schema_list] of [clean_up]. *)
Definition test_schemas (runner_conf : RunnerConf) : list (option string) :=
  [ dlt_meta_schema runner_conf; bronze_schema runner_conf;
    silver_schema runner_conf ].

Definition is_create (r : request) : Prop :=
  match r with
  | PipelinesCreate _ _ _ _ _ _ => True
  | _ => False
  end.

(** The deletions [clean_up] asks for before it reads [dbfs_tmp_path]. *)
Definition early_delete (r : request) : Prop :=
  match r with
  | JobsDelete _ | PipelinesDelete _ | ClustersDelete _ => True
  | _ => False
  end.

(** A request about what the run configuration names: its job, its bronze
    and silver pipelines, its cluster, its temporary path, its catalog, and
    in that catalog the schemas of the run and the volumes and tables some
    listing of such a schema returned. *)
Definition own_resource (listed : list request → request → list Info)
    (runner_conf : RunnerConf) (r : request) : Prop :=
  let catalog := fmt (uc_catalog_name runner_conf) in
  match r with
  | PipelinesCreate _ _ _ _ _ _ => False
  | JobsDelete id => job_id runner_conf = Some id
  | PipelinesDelete id =>
      bronze_pipeline_id runner_conf = Some id
      ∨ silver_pipeline_id runner_conf = Some id
  | ClustersDelete id => cluster_id runner_conf = Some id
  | DbfsDelete path => dbfs_tmp_path runner_conf = Some (Some path)
  | SchemasList c => uc_catalog_name runner_conf = Some c
  | VolumesList c s | TablesList c s =>
      uc_catalog_name runner_conf = Some c
      ∧ Some s ∈ test_schemas runner_conf
  | VolumesDelete volume =>
      ∃ tr s vol, Some s ∈ test_schemas runner_conf
                  ∧ vol ∈ listed tr (VolumesList catalog s)
                  ∧ full_name vol = volume
  | TablesDelete table =>
      ∃ tr s t, Some s ∈ test_schemas runner_conf
                ∧ t ∈ listed tr (TablesList catalog s)
                ∧ full_name t = table
  | SchemasDelete schema =>
      ∃ tr sch, sch ∈ listed tr (SchemasList catalog)
                ∧ Some (name sch) ∈ test_schemas runner_conf
                ∧ full_name sch = schema
  end.

(** The request of one call of [create_dlt_meta_pipeline]: to a catalog
    when the run has one, on the preview channel otherwise. *)
Definition create_request (pipeline_name layer group : string)
    (target_schema : option string) (runner_conf : RunnerConf) : request :=
  PipelinesCreate
    (if truthy (uc_catalog_name runner_conf)
     then uc_catalog_name runner_conf else None)
    pipeline_name
    (if truthy (uc_catalog_name runner_conf) then None else Some "PREVIEW")
    (pipeline_configuration layer group runner_conf)
    (fmt (runners_nb_path runner_conf) +:+ "/runners/init_dlt_meta_pipeline")
    target_schema.

(** The pipelines of a run, in the order of their creation: the three of the
    source [cloudfiles], and the one of the other sources. *)
Definition pipelines_of_run (runner_conf : RunnerConf) : list request :=
  if bool_decide (source runner_conf = Some "cloudfiles") then
    [ create_request ("dlt-meta-bronze-" +:+ run_id runner_conf) "bronze"
        "A1" (bronze_schema runner_conf) runner_conf;
      create_request ("dlt-meta-bronze-A2-" +:+ run_id runner_conf) "bronze"
        "A2" (bronze_schema runner_conf) runner_conf;
      create_request ("dlt-meta-silver-" +:+ run_id runner_conf) "silver"
        "A1" (silver_schema runner_conf) runner_conf ]
  else
    [ create_request ("dlt-meta-bronze-" +:+ run_id runner_conf) "bronze"
        "A1" (bronze_schema runner_conf) runner_conf ].

(** The run-time configuration a pipeline starts with: the entries of its
    configuration map that have a value. *)
Definition spark_conf_of (configuration : gmap string (option string))
    : gmap string string :=
  omap id configuration.

(** A workspace that accepts every request and lists nothing, the arguments
    of a run on azure with the source [eventhub], and the configuration
    [init_runner_conf] builds from them for the user [me]. *)
Definition accepts_all : list request → request → option exn :=
  fun _ _ => None.

Definition lists_nothing : list request → request → list Info :=
  fun _ _ => [].

Definition eventhub_run_args : gmap string (option string) :=
  {[ "uc_catalog_name" := Some "cat";
     "source" := Some "eventhub";
     "cloud_provider_name" := Some "azure" ]}.

Definition eventhub_run (run_id : string) : RunnerConf :=
  {| run_id := run_id;
     username := Some "me";
     uc_catalog_name := Some "cat";
     dlt_meta_schema := Some ("dlt_meta_dataflowspecs_it_" +:+ run_id);
     bronze_schema := Some ("dlt_meta_bronze_it_" +:+ run_id);
     silver_schema := Some ("dlt_meta_silver_it_" +:+ run_id);
     runners_nb_path := Some ("/Users/me/dlt_meta_int_tests/" +:+ run_id);
     runners_full_local_path :=
       Some "./integration_tests/notebooks/eventhub_runners/";
     source := Some "eventhub";
     node_type_id := Some "Standard_D3_v2";
     test_output_file_path :=
       Some ("/Users/me/dlt_meta_int_tests/" +:+ run_id
             +:+ "/integration-test-output.csv");
     remote_whl_path := None;
     bronze_pipeline_id := None;
     bronze_pipeline_A2_id := None;
     silver_pipeline_id := None;
     cluster_id := None;
     job_id := None;
     dbfs_tmp_path := None |}.

End LifecycleVocabulary.

(** * Properties *)

(** ** Dataflow-spec utilities *)

Module DataflowSpecFacts.
Import DataflowSpecUtils Vocabulary.

(** *** Defaulting of missing columns *)

Lemma populate_additional_df_cols_cons (row : gmap string value)
    (column : string) (rest : list string) :
  populate_additional_df_cols row (column :: rest) =
  populate_additional_df_cols
    (if bool_decide (column ∉ dom row) then <[column := VNone]> row else row)
    rest.
Proof. reflexivity. Qed.

(** Every lookup in the result, in terms of the row given. *)
Lemma populate_additional_df_cols_lookup (additional_columns : list string) :
  ∀ (row : gmap string value) (column : string),
    populate_additional_df_cols row additional_columns !! column =
    match row !! column with
    | Some v => Some v
    | None => if bool_decide (column ∈ additional_columns)
              then Some VNone else None
    end.
Proof.
  induction additional_columns as [|c rest IH]; intros row column.
  - cbn. destruct (row !! column); [reflexivity|].
    rewrite bool_decide_eq_false_2; [reflexivity | apply not_elem_of_nil].
  - rewrite populate_additional_df_cols_cons, IH.
    case_bool_decide as Hdom.
    + apply not_elem_of_dom in Hdom.
      destruct (decide (c = column)) as [->|Hne].
      * rewrite lookup_insert_eq, Hdom.
        rewrite (bool_decide_eq_true_2 (column ∈ column :: rest));
          [reflexivity | apply list_elem_of_here].
      * rewrite lookup_insert_ne by exact Hne.
        destruct (row !! column); [reflexivity|].
        replace (bool_decide (column ∈ c :: rest))
          with (bool_decide (column ∈ rest)); [reflexivity|].
        apply bool_decide_ext. rewrite elem_of_cons.
        split; [auto|]. intros [Heq|H]; [congruence | exact H].
    + destruct (row !! column) eqn:Hcol; [reflexivity|].
      replace (bool_decide (column ∈ c :: rest))
        with (bool_decide (column ∈ rest)); [reflexivity|].
      apply bool_decide_ext. rewrite elem_of_cons.
      split; [auto|]. intros [->|H]; [|exact H].
      exfalso. assert (Hin : c ∈ dom row) by (destruct (decide (c ∈ dom row)); tauto).
      apply elem_of_dom in Hin as [v Hv]. congruence.
Qed.

(** C10: [populate_additional_df_cols] returns a dictionary that has every
    listed column; a key the row already had keeps its value, whether listed
    or not; a listed column the row lacked is bound to [None]; and a key that
    is not listed is as it was in the row (bound to the same value, or
    absent). *)
Theorem populate_additional_df_cols_frame :
  ∀ (row : gmap string value) (additional_columns : list string),
    let result := populate_additional_df_cols row additional_columns in
    (∀ column, column ∈ additional_columns → is_Some (result !! column))
    ∧ (∀ column v, row !! column = Some v → result !! column = Some v)
    ∧ (∀ column, column ∈ additional_columns → row !! column = None →
         result !! column = Some VNone)
    ∧ (∀ column, column ∉ additional_columns →
         result !! column = row !! column).
Proof.
  intros row additional_columns result. subst result.
  repeat split.
  - intros column Hin. rewrite populate_additional_df_cols_lookup.
    destruct (row !! column); [eauto|].
    rewrite bool_decide_eq_true_2 by exact Hin. eauto.
  - intros column v Hrow.
    rewrite populate_additional_df_cols_lookup, Hrow. reflexivity.
  - intros column Hin Hrow.
    rewrite populate_additional_df_cols_lookup, Hrow.
    rewrite bool_decide_eq_true_2 by exact Hin. reflexivity.
  - intros column Hnin.
    rewrite populate_additional_df_cols_lookup.
    destruct (row !! column); [reflexivity|].
    rewrite bool_decide_eq_false_2 by exact Hnin. reflexivity.
Qed.

(** *** Partition columns *)

Lemma strip_empty : strip "" = "".
Proof. reflexivity. Qed.

Lemma get_partition_cols_single (c : string) :
  get_partition_cols [c] =
  if String.eqb (strip c) "" then None else Some [c].
Proof.
  unfold get_partition_cols. cbn.
  destruct (String.eqb_spec c "") as [->|Hc]; [reflexivity|].
  reflexivity.
Qed.

Lemma get_partition_cols_longer (c1 c2 : string) (rest : list string) :
  get_partition_cols (c1 :: c2 :: rest) =
  Some (filter_None (c1 :: c2 :: rest)).
Proof. reflexivity. Qed.

(** C5: [get_partition_cols] returns [None] for the empty list and for a
    single entry that is empty or only whitespace; a single entry that is
    neither gives the list unchanged; a list of two or more entries is
    returned with its empty-string entries removed.  The five inputs the
    specification lists give the results it lists. *)
Theorem get_partition_cols_normalizes :
  get_partition_cols [] = None
  ∧ (∀ c, strip c = "" → get_partition_cols [c] = None)
  ∧ (∀ c, strip c ≠ "" → get_partition_cols [c] = Some [c])
  ∧ (∀ l, 1 < length l →
       get_partition_cols l = Some (List.filter (fun s => negb (String.eqb s "")) l))
  ∧ (∀ l, (∀ s, s ∈ l → s ≠ "") → l ≠ [] → (∀ s, l = [s] → strip s ≠ "") →
       get_partition_cols l = Some l)
  ∧ get_partition_cols [""] = None
  ∧ get_partition_cols ["  "] = None
  ∧ get_partition_cols ["a"; ""; "b"] = Some ["a"; "b"]
  ∧ get_partition_cols ["a"; "b"] = Some ["a"; "b"].
Proof.
  split; [reflexivity|].
  split.
  { intros c Hc. rewrite get_partition_cols_single, Hc. reflexivity. }
  split.
  { intros c Hc. rewrite get_partition_cols_single.
    destruct (String.eqb_spec (strip c) ""); [contradiction | reflexivity]. }
  split.
  { intros [|c1 [|c2 rest]] Hlen; cbn in Hlen; [lia | lia |].
    apply get_partition_cols_longer. }
  split.
  { intros [|c1 [|c2 rest]] Hall Hne Hone.
    - contradiction.
    - rewrite get_partition_cols_single.
      destruct (String.eqb_spec (strip c1) "") as [Heq|]; [|reflexivity].
      exfalso. exact (Hone c1 eq_refl Heq).
    - rewrite get_partition_cols_longer. f_equal.
      unfold filter_None.
      apply List.forallb_filter_id. apply List.forallb_forall.
      intros s Hs. apply negb_true_iff, String.eqb_neq.
      apply Hall. apply list_elem_of_In. exact Hs. }
  repeat split; reflexivity.
Qed.

(** *** Validation of the run-time configuration *)

Lemma string_app_assoc (s1 s2 s3 : string) :
  (s1 +:+ s2) +:+ s3 = s1 +:+ (s2 +:+ s3).
Proof.
  induction s1 as [|c s1 IH]; [reflexivity|].
  change (String c ((s1 +:+ s2) +:+ s3) = String c (s1 +:+ (s2 +:+ s3))).
  rewrite IH. reflexivity.
Qed.

(** X1: the call returns exactly when [layer] is set, the table key of that
    layer is set, and the group key or the ids key of that layer is set.  The
    keys read after [layer] are built from the value of [layer] in the
    configuration, not from [layer_arg]. *)
Lemma check_spark_dataflowpipeline_conf_params_ok
    (conf : gmap string string) (layer_arg : string) :
  check_spark_dataflowpipeline_conf_params conf layer_arg = Ok tt
  ↔ ∃ layer, conf !! "layer" = Some layer
      ∧ is_Some (conf !! (layer +:+ ".dataflowspecTable"))
      ∧ (is_Some (conf !! (layer +:+ ".group"))
         ∨ is_Some (conf !! (layer +:+ ".dataflowIds"))).
Proof.
  unfold check_spark_dataflowpipeline_conf_params.
  destruct (conf !! "layer") as [layer|] eqn:Hlayer.
  - destruct (conf !! (layer +:+ ".dataflowspecTable")) as [t|] eqn:Ht.
    + split.
      * intros H. exists layer. rewrite Ht.
        split; [reflexivity|]. split; [eauto|].
        destruct (conf !! (layer +:+ ".group")); [eauto|].
        destruct (conf !! (layer +:+ ".dataflowIds")); [eauto|].
        discriminate H.
      * intros (layer' & Heq & _ & Hor). injection Heq as <-.
        destruct Hor as [[v Hv]|[v Hv]]; rewrite Hv;
          [reflexivity|].
        destruct (conf !! (layer +:+ ".group")); reflexivity.
    + split; [discriminate|].
      intros (layer' & Heq & [? Hsome] & _). injection Heq as <-.
      rewrite Ht in Hsome. discriminate Hsome.
  - split; [discriminate|]. intros (layer' & Heq & _). discriminate Heq.
Qed.

(** X3: the call returns, or raises an [Exception] with a message. *)
Lemma check_spark_dataflowpipeline_conf_params_raises
    (conf : gmap string string) (layer_arg : string) :
  check_spark_dataflowpipeline_conf_params conf layer_arg = Ok tt
  ∨ ∃ msg, check_spark_dataflowpipeline_conf_params conf layer_arg
           = Raise (Exception msg).
Proof.
  unfold check_spark_dataflowpipeline_conf_params.
  destruct (conf !! "layer") as [layer|]; [|eauto].
  destruct (conf !! (layer +:+ ".dataflowspecTable")); [|eauto].
  destruct (bool_decide _ && bool_decide _); eauto.
Qed.

(** When neither the group nor the ids are set, the message names the two
    keys that were read. *)
Lemma check_spark_dataflowpipeline_conf_params_group_message
    (conf : gmap string string) (layer_arg layer table : string) :
  conf !! "layer" = Some layer →
  conf !! (layer +:+ ".dataflowspecTable") = Some table →
  conf !! (layer +:+ ".group") = None →
  conf !! (layer +:+ ".dataflowIds") = None →
  ∃ before between after,
    check_spark_dataflowpipeline_conf_params conf layer_arg =
    Raise (Exception (before +:+ (layer +:+ ".group") +:+ between
                      +:+ (layer +:+ ".dataflowIds") +:+ after)).
Proof.
  intros Hl Ht Hg Hi. unfold check_spark_dataflowpipeline_conf_params.
  rewrite Hl, Ht, Hg, Hi. cbn [bool_decide andb].
  exists "please provide ", " or ".
  exists (" in spark.conf" +:+ newline +:+ spaces 17
          +:+ "Please set spark.conf.set('" +:+ layer
          +:+ ".group'='groupName')"
          +:+ newline +:+ spaces 17 +:+ "OR"
          +:+ newline +:+ spaces 17
          +:+ "spark.conf.set('" +:+ layer
          +:+ ".dataflowIds'='comma seperated dataflowIds')"
          +:+ newline +:+ spaces 17).
  rewrite !string_app_assoc. reflexivity.
Qed.

(** C4, at an input where the code departs from the claim: with an empty
    configuration and [layer_arg = "bronze"] (the call of
    [get_bronze_dataflow_spec]) the key that was read and is missing is
    [layer], but the message raised tells the caller to set [bronze] and
    does not contain [layer]; with [layer] set to [silver] and nothing else,
    the key read is [silver.dataflowspecTable], but the message names
    [bronze.dataflowspecTable]. *)
Theorem check_spark_dataflowpipeline_conf_params_names_layer_arg :
  (∃ msg,
      check_spark_dataflowpipeline_conf_params ∅ "bronze"
      = Raise (Exception msg)
      ∧ str_contains "layer" msg = false
      ∧ str_contains "spark.conf.set(bronze,'silver')" msg = true)
  ∧ (∃ msg,
      check_spark_dataflowpipeline_conf_params {[ "layer" := "silver" ]} "bronze"
      = Raise (Exception msg)
      ∧ str_contains "silver.dataflowspecTable" msg = false
      ∧ str_contains "bronze.dataflowspecTable" msg = true).
Proof.
  split; eexists; (split; [vm_compute; reflexivity|]);
    split; vm_compute; reflexivity.
Qed.

(** *** Latest version of each flow *)

Global Instance version_desc_trans : Transitive version_desc.
Proof.
  intros r1 r2 r3 H12 H23. unfold version_desc in *.
  transitivity (version r2); assumption.
Qed.

Global Instance version_desc_total : Total version_desc.
Proof. intros r1 r2. unfold version_desc. apply (total String.le). Qed.

Global Instance version_desc_refl : Reflexive version_desc.
Proof. intros r. unfold version_desc. reflexivity. Qed.

(** Only the first row of a numbered partition has number 1. *)
Lemma row_num_later {A : Type} (f : nat → A → A * nat) (l : list A) :
  (∀ i x, snd (f i x) ≠ 1) →
  List.filter (fun rn => Nat.eqb (snd rn) 1) (imap f l) = [].
Proof.
  revert f. induction l as [|x l IH]; intros f Hf; [reflexivity|].
  cbn. destruct (Nat.eqb_spec (snd (f 0 x)) 1) as [Heq|_].
  - destruct (Hf 0 x Heq).
  - apply IH. intros i y. apply Hf.
Qed.

Lemma row_num_first (l : list Row) :
  fst <$> List.filter (fun rn => Nat.eqb (snd rn) 1)
            (imap (fun i r => (r, S i)) l)
  = take 1 l.
Proof.
  destruct l as [|x l]; [reflexivity|]. cbn.
  rewrite row_num_later; [reflexivity|].
  intros i y. cbn. discriminate.
Qed.

Lemma latest_version_bind (ps : list (list Row)) :
  fst <$> List.filter (fun rn => Nat.eqb (snd rn) 1)
            (p ← ps; imap (fun i r => (r, S i)) (merge_sort version_desc p))
  = p ← ps; take 1 (merge_sort version_desc p).
Proof.
  induction ps as [|p ps IH]; [reflexivity|].
  cbn. rewrite List.filter_app, fmap_app, row_num_first, IH. reflexivity.
Qed.

(** The query keeps, of each partition, the head of the sorted partition. *)
Lemma latest_version_heads (df : DataFrame) :
  latest_version df = p ← partitions df; take 1 (merge_sort version_desc p).
Proof. apply latest_version_bind. Qed.

(** The head of a sorted partition is one of its rows and no row of the
    partition has a greater version. *)
Lemma sorted_head (p : list Row) (m : Row) (rest : list Row) :
  merge_sort version_desc p = m :: rest →
  m ∈ p ∧ ∀ r, r ∈ p → version_desc m r.
Proof.
  intros Hsort.
  pose proof (merge_sort_Permutation version_desc p) as Hperm.
  pose proof (StronglySorted_merge_sort version_desc p) as Hsorted.
  rewrite Hsort in Hperm, Hsorted. split.
  - rewrite <- Hperm. apply list_elem_of_here.
  - intros r Hr. rewrite <- Hperm in Hr.
    apply elem_of_cons in Hr as [->|Hr]; [reflexivity|].
    apply StronglySorted_inv in Hsorted as [_ Hall].
    rewrite Forall_forall in Hall. apply Hall. exact Hr.
Qed.

Lemma sorted_nonempty (p : list Row) (r : Row) :
  r ∈ p → ∃ m rest, merge_sort version_desc p = m :: rest.
Proof.
  intros Hr.
  pose proof (merge_sort_Permutation version_desc p) as Hperm.
  destruct (merge_sort version_desc p) as [|m rest]; [|eauto].
  rewrite <- Hperm in Hr. apply elem_of_nil in Hr. contradiction.
Qed.

Lemma elem_of_partition_of (df : DataFrame) (k : string * string) (r : Row) :
  r ∈ partition_of df k ↔ r ∈ df ∧ partition_key r = k.
Proof.
  unfold partition_of. rewrite !list_elem_of_In, List.filter_In.
  rewrite bool_decide_eq_true. reflexivity.
Qed.

Lemma partitions_eq (df : DataFrame) :
  partitions df = partition_of df <$> remove_dups (partition_key <$> df).
Proof. reflexivity. Qed.

Lemma latest_version_keys (df : DataFrame) :
  latest_version df =
  k ← remove_dups (partition_key <$> df);
  take 1 (merge_sort version_desc (partition_of df k)).
Proof.
  rewrite latest_version_heads, partitions_eq.
  induction (remove_dups (partition_key <$> df)) as [|k ks IH];
    [reflexivity|].
  cbn. rewrite IH. reflexivity.
Qed.

(** Membership in the result: the row heads the sorted partition of its
    key. *)
Lemma elem_of_latest_version (df : DataFrame) (r : Row) :
  r ∈ latest_version df
  ↔ ∃ k rest, (∃ r', r' ∈ df ∧ partition_key r' = k)
              ∧ merge_sort version_desc (partition_of df k) = r :: rest.
Proof.
  rewrite latest_version_keys, list_elem_of_bind. split.
  - intros (k & Hr & Hk).
    apply elem_of_remove_dups, list_elem_of_fmap in Hk as (r' & -> & Hr').
    destruct (merge_sort version_desc (partition_of df (partition_key r')))
      as [|m rest] eqn:Hsort; cbn in Hr.
    + apply elem_of_nil in Hr. contradiction.
    + rewrite take_0 in Hr. apply list_elem_of_singleton in Hr as ->.
      exists (partition_key r'), rest. split; [eauto | exact Hsort].
  - intros (k & rest & (r' & Hr' & Hk) & Hsort).
    exists k. split.
    + rewrite Hsort. cbn. apply list_elem_of_here.
    + apply elem_of_remove_dups, list_elem_of_fmap. eauto.
Qed.

(** One row per pair: the keys of the result are the keys of the table,
    each once. *)
Lemma latest_version_one_per_key (df : DataFrame) :
  partition_key <$> latest_version df
  = remove_dups (partition_key <$> df).
Proof.
  rewrite latest_version_keys.
  assert (Hks : ∀ k, k ∈ remove_dups (partition_key <$> df) →
                     ∃ r, r ∈ df ∧ partition_key r = k).
  { intros k Hk.
    apply elem_of_remove_dups, list_elem_of_fmap in Hk as (r & -> & Hr).
    eauto. }
  induction (remove_dups (partition_key <$> df)) as [|k ks IH];
    [reflexivity|].
  cbn. rewrite fmap_app, IH.
  2:{ intros k' Hk'. apply Hks. apply list_elem_of_further. exact Hk'. }
  destruct (Hks k) as (r & Hr & Hkey); [apply list_elem_of_here|].
  assert (Hin : r ∈ partition_of df k)
    by (apply elem_of_partition_of; auto).
  destruct (sorted_nonempty _ _ Hin) as (m & rest & Hsort).
  rewrite Hsort. cbn.
  apply sorted_head in Hsort as [Hm _].
  apply elem_of_partition_of in Hm as [_ ->]. reflexivity.
Qed.

(** A row of the result is a row of the table, and no row of the table with
    the same pair has a greater version. *)
Lemma latest_version_max (df : DataFrame) (r : Row) :
  r ∈ latest_version df →
  r ∈ df ∧ ∀ r', r' ∈ df → partition_key r' = partition_key r →
                  String.le (version r') (version r).
Proof.
  intros Hr. apply elem_of_latest_version in Hr as (k & rest & _ & Hsort).
  apply sorted_head in Hsort as [Hm Hmax].
  apply elem_of_partition_of in Hm as [Hdf <-]. split; [exact Hdf|].
  intros r' Hr' Hkey. apply (Hmax r').
  apply elem_of_partition_of. auto.
Qed.

(** Every pair of the table has a row in the result. *)
Lemma latest_version_covers (df : DataFrame) (r : Row) :
  r ∈ df →
  ∃ r', r' ∈ latest_version df ∧ partition_key r' = partition_key r.
Proof.
  intros Hr.
  assert (Hin : r ∈ partition_of df (partition_key r))
    by (apply elem_of_partition_of; auto).
  destruct (sorted_nonempty _ _ Hin) as (m & rest & Hsort).
  exists m. split.
  - apply elem_of_latest_version. exists (partition_key r), rest. eauto.
  - apply sorted_head in Hsort as [Hm _].
    apply elem_of_partition_of in Hm as [_ Hkey]. exact Hkey.
Qed.

(** With distinct versions, the row with the greatest version of its pair is
    in the result. *)
Lemma latest_version_complete (df : DataFrame) (r : Row) :
  distinct_versions df →
  r ∈ df →
  (∀ r', r' ∈ df → partition_key r' = partition_key r →
         String.le (version r') (version r)) →
  r ∈ latest_version df.
Proof.
  intros Hdistinct Hr Hmax.
  destruct (latest_version_covers df r Hr) as (m & Hm & Hkey).
  destruct (latest_version_max df m Hm) as [Hmdf Hmmax].
  assert (Heq : m = r).
  { apply Hdistinct; [exact Hmdf | exact Hr | exact Hkey |].
    apply (anti_symm String.le).
    - apply Hmax; assumption.
    - apply Hmmax; [exact Hr | symmetry; exact Hkey]. }
  rewrite <- Heq. exact Hm.
Qed.

Lemma NoDup_fmap_eq {A B : Type} (f : A → B) (l : list A) (x y : A) :
  NoDup (f <$> l) → x ∈ l → y ∈ l → f x = f y → x = y.
Proof.
  induction l as [|z l IH]; intros Hnd Hx Hy Hf.
  - apply elem_of_nil in Hx. contradiction.
  - rewrite fmap_cons in Hnd. apply NoDup_cons in Hnd as [Hz Hnd].
    apply elem_of_cons in Hx as [->|Hx]; apply elem_of_cons in Hy as [->|Hy].
    + reflexivity.
    + exfalso. apply Hz. rewrite Hf. apply list_elem_of_fmap_2. exact Hy.
    + exfalso. apply Hz. rewrite <- Hf. apply list_elem_of_fmap_2. exact Hx.
    + apply IH; assumption.
Qed.

Lemma NoDup_distinct_versions (df : DataFrame) :
  NoDup ((fun r => (partition_key r, version r)) <$> df) →
  distinct_versions df.
Proof.
  intros Hnd r1 r2 H1 H2 Hkey Hversion.
  apply (NoDup_fmap_eq _ df r1 r2 Hnd H1 H2). congruence.
Qed.

Section EngineFacts.

Variable read_table : string → option DataFrame.
Variable sql_condition : string → option (Row → bool).

(** C1: when the rows the [where] step keeps hold no two rows with the same
    group, id and version, [_get_dataflow_spec] returns; the pairs of the
    result are the pairs of those rows, each exactly once; and a row is in
    the result exactly when it is one of those rows and no row with the same
    pair has a greater version.  Versions are compared as the strings they
    are. *)
Theorem get_dataflow_spec_latest_version (conf : gmap string string)
    (layer : string) (dataflow_spec_df : option DataFrame)
    (group dataflow_ids : option string) (df rows : DataFrame) :
  given_or_table read_table conf layer dataflow_spec_df = Ok df →
  where_group_or_ids sql_condition
    (or_conf group conf (layer +:+ ".group"))
    (or_conf dataflow_ids conf (layer +:+ ".dataflowIds")) df = Ok rows →
  NoDup ((fun r => (partition_key r, version r)) <$> rows) →
  ∃ out,
    _get_dataflow_spec read_table sql_condition conf layer dataflow_spec_df
      group dataflow_ids = Ok out
    ∧ partition_key <$> out = remove_dups (partition_key <$> rows)
    ∧ NoDup (partition_key <$> out)
    ∧ ∀ r, r ∈ out
           ↔ r ∈ rows
             ∧ ∀ r', r' ∈ rows → partition_key r' = partition_key r →
                     String.le (version r') (version r).
Proof.
  intros Hload Hwhere Hnd. exists (latest_version rows).
  split; [|split; [|split]].
  - unfold _get_dataflow_spec. rewrite Hload. cbn [bind].
    rewrite Hwhere. reflexivity.
  - apply latest_version_one_per_key.
  - rewrite latest_version_one_per_key. apply NoDup_remove_dups.
  - intros r. split.
    + apply latest_version_max.
    + intros [Hr Hmax]. apply latest_version_complete;
        [apply NoDup_distinct_versions; exact Hnd | exact Hr | exact Hmax].
Qed.

(** C9: a group that is available, as an argument or else in the
    configuration, decides the filter alone, whatever the ids are; the ids
    are used only when no group is available; with neither, nothing is
    filtered. *)
Theorem get_dataflow_spec_group_before_ids (conf : gmap string string)
    (layer : string) (dataflow_spec_df : option DataFrame)
    (group dataflow_ids : option string) (df : DataFrame) :
  given_or_table read_table conf layer dataflow_spec_df = Ok df →
  (∀ g, or_conf group conf (layer +:+ ".group") = Some g → g ≠ "" →
     _get_dataflow_spec read_table sql_condition conf layer dataflow_spec_df
       group dataflow_ids
     = Ok (latest_version
             (List.filter (fun r => String.eqb (dataFlowGroup r) g) df)))
  ∧ (truthy (or_conf group conf (layer +:+ ".group")) = false →
     ∀ ids, or_conf dataflow_ids conf (layer +:+ ".dataflowIds") = Some ids →
            ids ≠ "" →
       _get_dataflow_spec read_table sql_condition conf layer dataflow_spec_df
         group dataflow_ids
       = match sql_condition ("dataFlowId in (" +:+ ids +:+ ")") with
         | Some condition => Ok (latest_version (List.filter condition df))
         | None => Raise (PlatformError "where")
         end)
  ∧ (truthy (or_conf group conf (layer +:+ ".group")) = false →
     truthy (or_conf dataflow_ids conf (layer +:+ ".dataflowIds")) = false →
       _get_dataflow_spec read_table sql_condition conf layer dataflow_spec_df
         group dataflow_ids
       = Ok (latest_version df)).
Proof.
  intros Hload. unfold _get_dataflow_spec. rewrite Hload. cbn [bind].
  unfold where_group_or_ids. split; [|split].
  - intros g Hg Hne. rewrite Hg. cbn [truthy default].
    apply String.eqb_neq in Hne. rewrite Hne. reflexivity.
  - intros Hgroup ids Hids Hne. rewrite Hgroup, Hids. cbn [truthy default].
    apply String.eqb_neq in Hne. rewrite Hne. cbn [negb orb].
    destruct (sql_condition _); reflexivity.
  - intros Hgroup Hids. rewrite Hgroup, Hids. reflexivity.
Qed.

End EngineFacts.

(** *** Parsing of serialized payloads *)

Lemma fill_defaults_raises (defaults : gmap string value)
    (missing : list string) :
  ∀ (payload : gmap string value) (e : exn),
    fill_defaults defaults missing payload = Raise e →
    ∃ key, e = KeyError key.
Proof.
  induction missing as [|key rest IH]; intros payload e H; cbn in H.
  - discriminate H.
  - unfold getitem in H. destruct (defaults !! key) as [v|]; cbn in H.
    + eapply IH. exact H.
    + injection H as <-. eauto.
Qed.

Lemma known_kwargs_raises (fields : list string) (kwargs : gmap string value)
    (e : exn) :
  known_kwargs fields kwargs = Raise e → ∃ msg, e = TypeError msg.
Proof.
  unfold known_kwargs. case_bool_decide; [discriminate|].
  intros Hraise. injection Hraise as <-. eauto.
Qed.

(** Steps through a chain of [kwarg] lookups in a hypothesis [H] that says
    the chain raises. *)
Ltac kwarg_raises H :=
  repeat match type of H with
         | bind (kwarg ?kw ?f) _ = Raise _ =>
             unfold kwarg at 1 in H; destruct (kw !! f); cbn [bind] in H;
             [| injection H as <-; eauto ]
         end.

Lemma new_CDCApplyChanges_raises (kwargs : gmap string value) (e : exn) :
  new_CDCApplyChanges kwargs = Raise e → ∃ msg, e = TypeError msg.
Proof.
  unfold new_CDCApplyChanges. intros H.
  destruct (known_kwargs cdc_applychanges_api_attributes kwargs) eqn:Hk;
    cbn [bind] in H.
  - kwarg_raises H. discriminate H.
  - injection H as <-. eapply known_kwargs_raises. exact Hk.
Qed.

Lemma new_DLTSink_raises (kwargs : gmap string value) (e : exn) :
  new_DLTSink kwargs = Raise e → ∃ msg, e = TypeError msg.
Proof.
  unfold new_DLTSink. intros H.
  destruct (known_kwargs sink_mandatory_attributes kwargs) eqn:Hk;
    cbn [bind] in H.
  - kwarg_raises H. discriminate H.
  - injection H as <-. eapply known_kwargs_raises. exact Hk.
Qed.

(** A set difference with the keys of a payload is non-empty exactly when
    one of the listed keys is not a key of the payload. *)
Lemma missing_keys_nonempty (attributes : list string)
    (payload : gmap string value) :
  (list_to_set attributes ∖ dom payload : gset string) ≠ ∅
  ↔ ∃ key, key ∈ attributes ∧ payload !! key = None.
Proof.
  split.
  - intros Hne. apply set_choose_L in Hne as [key Hkey].
    apply elem_of_difference in Hkey as [Hin Hdom].
    exists key. split; [apply elem_of_list_to_set in Hin; exact Hin|].
    apply not_elem_of_dom. exact Hdom.
  - intros (key & Hin & Hnone) Hempty.
    assert (Hk : key ∈ (list_to_set attributes ∖ dom payload : gset string)).
    { apply elem_of_difference. split; [apply elem_of_list_to_set; exact Hin|].
      apply not_elem_of_dom. exact Hnone. }
    rewrite Hempty in Hk. apply not_elem_of_empty in Hk. exact Hk.
Qed.

(** The loop that fills the defaults returns when every missing key has a
    default, and then every lookup is known. *)
Lemma fill_defaults_ok (defaults : gmap string value) (missing : list string) :
  ∀ payload : gmap string value,
    (∀ key, key ∈ missing → is_Some (defaults !! key)) →
    ∃ filled : gmap string value,
      fill_defaults defaults missing payload = Ok filled
      ∧ ∀ key, filled !! key =
               if bool_decide (key ∈ missing) then defaults !! key
               else payload !! key.
Proof.
  induction missing as [|m rest IH]; intros payload Hdefaults.
  - exists payload. split; [reflexivity|]. intros key.
    rewrite bool_decide_eq_false_2 by apply not_elem_of_nil. reflexivity.
  - destruct (Hdefaults m) as [v Hv]; [apply list_elem_of_here|].
    destruct (IH (<[m := v]> payload)) as (filled & Hfill & Hlookup).
    { intros key Hkey. apply Hdefaults.
      apply list_elem_of_further. exact Hkey. }
    exists filled. split.
    + cbn. unfold getitem. rewrite Hv. exact Hfill.
    + intros key. rewrite Hlookup.
      destruct (decide (key ∈ rest)) as [Hin|Hnin].
      * rewrite !bool_decide_eq_true_2;
          [reflexivity | apply list_elem_of_further; exact Hin | exact Hin].
      * rewrite (bool_decide_eq_false_2 _ Hnin).
        destruct (decide (m = key)) as [->|Hne].
        -- rewrite lookup_insert_eq.
           rewrite bool_decide_eq_true_2 by apply list_elem_of_here.
           symmetry. exact Hv.
        -- rewrite lookup_insert_ne by exact Hne.
           rewrite bool_decide_eq_false_2; [reflexivity|].
           rewrite elem_of_cons. intros [Heq|Hin]; [congruence | tauto].
Qed.

(** Every attribute that is not mandatory has a default. *)
Lemma optional_attributes_have_defaults (key : string) :
  key ∈ cdc_applychanges_api_attributes →
  key ∉ cdc_applychanges_api_mandatory_attributes →
  is_Some (cdc_applychanges_api_attributes_defaults !! key).
Proof.
  unfold cdc_applychanges_api_attributes,
    cdc_applychanges_api_mandatory_attributes.
  intros Hin Hnin.
  repeat (apply elem_of_cons in Hin as [->|Hin];
          [first [ eexists; vm_compute; reflexivity
                 | exfalso; apply Hnin; rewrite !elem_of_cons; tauto ]|]).
  apply elem_of_nil in Hin. contradiction.
Qed.

(** The dict handed to the constructor, when the mandatory attributes are
    present: a key of the payload keeps its value, and an attribute the
    payload lacks has its default. *)
Lemma get_cdc_apply_changes_filled (payload : gmap string value) :
  (∀ key, key ∈ cdc_applychanges_api_mandatory_attributes →
          is_Some (payload !! key)) →
  ∃ filled : gmap string value,
    fill_defaults cdc_applychanges_api_attributes_defaults
      (elements (list_to_set cdc_applychanges_api_attributes ∖ dom payload
                 : gset string)) payload = Ok filled
    ∧ ∀ key,
        populate_additional_df_cols filled
          additional_cdc_apply_changes_columns !! key
        = match payload !! key with
          | Some v => Some v
          | None =>
              if bool_decide (key ∈ cdc_applychanges_api_attributes)
              then cdc_applychanges_api_attributes_defaults !! key
              else None
          end.
Proof.
  intros Hmandatory.
  assert (Hmissing : ∀ key,
    key ∈ elements (list_to_set cdc_applychanges_api_attributes ∖ dom payload
                    : gset string)
    ↔ key ∈ cdc_applychanges_api_attributes ∧ payload !! key = None).
  { intros key.
    rewrite elem_of_elements, elem_of_difference, elem_of_list_to_set,
      not_elem_of_dom. reflexivity. }
  destruct (fill_defaults_ok cdc_applychanges_api_attributes_defaults
              (elements (list_to_set cdc_applychanges_api_attributes
                         ∖ dom payload : gset string)) payload)
    as (filled & Hfill & Hlookup).
  { intros key Hkey. apply Hmissing in Hkey as [Hattr Hnone].
    apply optional_attributes_have_defaults; [exact Hattr|].
    intros Hm. destruct (Hmandatory key Hm) as [v Hv]. congruence. }
  exists filled. split; [exact Hfill|]. intros key.
  assert (Hfilled : filled !! key =
    match payload !! key with
    | Some v => Some v
    | None => if bool_decide (key ∈ cdc_applychanges_api_attributes)
              then cdc_applychanges_api_attributes_defaults !! key
              else None
    end).
  { rewrite Hlookup. destruct (payload !! key) as [v|] eqn:Hkey.
    - rewrite bool_decide_eq_false_2; [reflexivity|].
      intros Hin. apply Hmissing in Hin as [_ Hnone]. congruence.
    - destruct (decide (key ∈ cdc_applychanges_api_attributes))
        as [Hattr|Hattr].
      + rewrite (bool_decide_eq_true_2 _ Hattr).
        rewrite bool_decide_eq_true_2; [reflexivity|].
        apply Hmissing. auto.
      + rewrite (bool_decide_eq_false_2 _ Hattr).
        rewrite bool_decide_eq_false_2; [reflexivity|].
        intros Hin. apply Hmissing in Hin as [Hin _]. contradiction. }
  rewrite populate_additional_df_cols_lookup, Hfilled.
  destruct (payload !! key) as [v|] eqn:Hkey; [reflexivity|].
  case_bool_decide as Hattr.
  - destruct (decide (key ∈ cdc_applychanges_api_mandatory_attributes))
      as [Hm|Hm].
    + destruct (Hmandatory key Hm) as [v Hv]. congruence.
    + destruct (optional_attributes_have_defaults key Hattr Hm) as [d Hd].
      rewrite Hd. reflexivity.
  - rewrite bool_decide_eq_false_2; [reflexivity|].
    unfold additional_cdc_apply_changes_columns.
    intros Hin. apply Hattr. unfold cdc_applychanges_api_attributes.
    repeat (apply elem_of_cons in Hin as [->|Hin];
            [rewrite !elem_of_cons; tauto|]).
    apply elem_of_nil in Hin. contradiction.
Qed.

Lemma kwarg_given (kwargs : gmap string value) (field : string) (v : value) :
  kwargs !! field = Some v → kwarg kwargs field = Ok v.
Proof. intros H. unfold kwarg. rewrite H. reflexivity. Qed.

Lemma kwarg_defaulted (kwargs payload : gmap string value) (field : string)
    (d : value) :
  kwargs !! field = Some (default d (payload !! field)) →
  kwarg kwargs field = Ok (default d (payload !! field)).
Proof. apply kwarg_given. Qed.

Section PayloadFacts.

Variable json_loads : string → option value.
Variable secrets_get : value → value → option value.

(** What [get_cdc_apply_changes] does once the payload has parsed to a
    dict. *)
Lemma get_cdc_apply_changes_parsed (cdc_apply_changes : string)
    (payload : gmap string value) :
  json_loads cdc_apply_changes = Some (VDict payload) →
  get_cdc_apply_changes json_loads cdc_apply_changes =
  let missing_mandatory_attr : gset string :=
    list_to_set cdc_applychanges_api_mandatory_attributes ∖ dom payload in
  if bool_decide (missing_mandatory_attr ≠ ∅) then
    Raise (MandatoryMissingKeys missing_mandatory_attr "merge info")
  else
    (filled <- fill_defaults cdc_applychanges_api_attributes_defaults
                 (elements (list_to_set cdc_applychanges_api_attributes
                            ∖ dom payload : gset string)) payload ;;
     new_CDCApplyChanges
       (populate_additional_df_cols filled
          additional_cdc_apply_changes_columns))%result.
Proof.
  intros Hparse. unfold get_cdc_apply_changes, loads.
  rewrite Hparse. reflexivity.
Qed.

(** C2: for a payload that parses to a dict, [get_cdc_apply_changes] raises
    the error that names missing mandatory keys exactly when one of [keys],
    [sequence_by], [scd_type] is not a key of the payload, and the keys the
    error names are exactly the mandatory keys that are absent; for a payload
    with those three keys and no other, it returns the record with the three
    values given and every other field at its documented default. *)
Theorem get_cdc_apply_changes_mandatory_keys (cdc_apply_changes : string)
    (payload : gmap string value) :
  json_loads cdc_apply_changes = Some (VDict payload) →
  ((∃ missing what,
       get_cdc_apply_changes json_loads cdc_apply_changes
       = Raise (MandatoryMissingKeys missing what))
   ↔ ∃ key, key ∈ cdc_applychanges_api_mandatory_attributes
            ∧ payload !! key = None)
  ∧ (∀ missing what,
       get_cdc_apply_changes json_loads cdc_apply_changes
       = Raise (MandatoryMissingKeys missing what) →
       what = "merge info"
       ∧ ∀ key, key ∈ missing
                ↔ key ∈ cdc_applychanges_api_mandatory_attributes
                  ∧ payload !! key = None)
  ∧ (∀ k s t,
       payload = {[ "keys" := k; "sequence_by" := s; "scd_type" := t ]} →
       get_cdc_apply_changes json_loads cdc_apply_changes
       = Ok {| keys := k; sequence_by := s; where_ := VNone;
               ignore_null_updates := VBool false;
               apply_as_deletes := VNone; apply_as_truncates := VNone;
               column_list := VNone; except_column_list := VNone;
               scd_type := t;
               track_history_column_list := VNone;
               track_history_except_column_list := VNone;
               flow_name := VNone; once := VBool false;
               ignore_null_updates_column_list := VNone;
               ignore_null_updates_except_column_list := VNone |}).
Proof.
  intros Hparse.
  rewrite (get_cdc_apply_changes_parsed _ _ Hparse). cbv zeta.
  assert (Hraise : ∀ missing what,
    (if bool_decide
          ((list_to_set cdc_applychanges_api_mandatory_attributes
            ∖ dom payload : gset string) ≠ ∅)
     then Raise (MandatoryMissingKeys
                   (list_to_set cdc_applychanges_api_mandatory_attributes
                    ∖ dom payload) "merge info")
     else (filled <- fill_defaults cdc_applychanges_api_attributes_defaults
                       (elements (list_to_set cdc_applychanges_api_attributes
                                  ∖ dom payload : gset string)) payload ;;
           new_CDCApplyChanges
             (populate_additional_df_cols filled
                additional_cdc_apply_changes_columns))%result)
    = Raise (MandatoryMissingKeys missing what) →
    (list_to_set cdc_applychanges_api_mandatory_attributes
     ∖ dom payload : gset string) ≠ ∅
    ∧ missing = list_to_set cdc_applychanges_api_mandatory_attributes
                ∖ dom payload
    ∧ what = "merge info").
  { intros missing what H. case_bool_decide as Hne.
    - injection H as <- <-. auto.
    - exfalso.
      destruct (fill_defaults _ _ _) as [filled|e] eqn:Hfill; cbn [bind] in H.
      + apply new_CDCApplyChanges_raises in H as [msg H]. discriminate H.
      + injection H as ->.
        apply fill_defaults_raises in Hfill as [key Hkey]. discriminate Hkey. }
  split; [|split].
  - split.
    + intros (missing & what & H). apply Hraise in H as (Hne & _).
      apply missing_keys_nonempty. exact Hne.
    + intros Hex. apply missing_keys_nonempty in Hex.
      rewrite bool_decide_eq_true_2 by exact Hex. eauto.
  - intros missing what H. apply Hraise in H as (_ & -> & ->).
    split; [reflexivity|]. intros key.
    rewrite elem_of_difference, elem_of_list_to_set, not_elem_of_dom.
    reflexivity.
  - intros k s t ->. vm_compute. reflexivity.
Qed.

(** X4: a payload that has the three mandatory attributes, and no key that
    is not an attribute, gives the record that holds each value of the
    payload and, for each attribute the payload lacks, its documented
    default. *)
Theorem get_cdc_apply_changes_fills_defaults (cdc_apply_changes : string)
    (payload : gmap string value) (k s t : value) :
  json_loads cdc_apply_changes = Some (VDict payload) →
  dom payload ⊆ list_to_set cdc_applychanges_api_attributes →
  payload !! "keys" = Some k →
  payload !! "sequence_by" = Some s →
  payload !! "scd_type" = Some t →
  get_cdc_apply_changes json_loads cdc_apply_changes
  = Ok {| keys := k;
          sequence_by := s;
          where_ := default VNone (payload !! "where");
          ignore_null_updates :=
            default (VBool false) (payload !! "ignore_null_updates");
          apply_as_deletes := default VNone (payload !! "apply_as_deletes");
          apply_as_truncates :=
            default VNone (payload !! "apply_as_truncates");
          column_list := default VNone (payload !! "column_list");
          except_column_list :=
            default VNone (payload !! "except_column_list");
          scd_type := t;
          track_history_column_list :=
            default VNone (payload !! "track_history_column_list");
          track_history_except_column_list :=
            default VNone (payload !! "track_history_except_column_list");
          flow_name := default VNone (payload !! "flow_name");
          once := default (VBool false) (payload !! "once");
          ignore_null_updates_column_list :=
            default VNone (payload !! "ignore_null_updates_column_list");
          ignore_null_updates_except_column_list :=
            default VNone
              (payload !! "ignore_null_updates_except_column_list") |}.
Proof.
  intros Hparse Hdom Hk Hs Ht.
  rewrite (get_cdc_apply_changes_parsed _ _ Hparse). cbv zeta.
  assert (Hmandatory : ∀ key,
    key ∈ cdc_applychanges_api_mandatory_attributes →
    is_Some (payload !! key)).
  { unfold cdc_applychanges_api_mandatory_attributes. intros key Hin.
    repeat (apply elem_of_cons in Hin as [->|Hin]; [eauto|]).
    apply elem_of_nil in Hin. contradiction. }
  rewrite bool_decide_eq_false_2.
  2:{ intros Hne. apply missing_keys_nonempty in Hne as (key & Hin & Hnone).
      destruct (Hmandatory key Hin) as [v Hv]. congruence. }
  destruct (get_cdc_apply_changes_filled payload Hmandatory)
    as (filled & Hfill & Hlookup).
  rewrite Hfill. cbn [bind].
  unfold new_CDCApplyChanges, known_kwargs.
  rewrite bool_decide_eq_true_2.
  2:{ intros key Hkey. apply elem_of_dom in Hkey as [v Hv].
      rewrite Hlookup in Hv. destruct (payload !! key) as [w|] eqn:Hw.
      - apply Hdom. apply elem_of_dom. eauto.
      - case_bool_decide as Hattr; [|discriminate Hv].
        apply elem_of_list_to_set. exact Hattr. }
  cbn [bind].
  rewrite (kwarg_given _ "keys" k) by (rewrite Hlookup, Hk; reflexivity).
  rewrite (kwarg_given _ "sequence_by" s)
    by (rewrite Hlookup, Hs; reflexivity).
  rewrite (kwarg_given _ "scd_type" t) by (rewrite Hlookup, Ht; reflexivity).
  pose proof (fun field d =>
    kwarg_defaulted
      (populate_additional_df_cols filled additional_cdc_apply_changes_columns)
      payload field d) as Hdefaulted.
  rewrite (Hdefaulted "where" VNone)
    by (rewrite Hlookup; destruct (payload !! "where"); reflexivity).
  rewrite (Hdefaulted "ignore_null_updates" (VBool false))
    by (rewrite Hlookup; destruct (payload !! "ignore_null_updates");
        reflexivity).
  rewrite (Hdefaulted "apply_as_deletes" VNone)
    by (rewrite Hlookup; destruct (payload !! "apply_as_deletes");
        reflexivity).
  rewrite (Hdefaulted "apply_as_truncates" VNone)
    by (rewrite Hlookup; destruct (payload !! "apply_as_truncates");
        reflexivity).
  rewrite (Hdefaulted "column_list" VNone)
    by (rewrite Hlookup; destruct (payload !! "column_list"); reflexivity).
  rewrite (Hdefaulted "except_column_list" VNone)
    by (rewrite Hlookup; destruct (payload !! "except_column_list");
        reflexivity).
  rewrite (Hdefaulted "track_history_column_list" VNone)
    by (rewrite Hlookup; destruct (payload !! "track_history_column_list");
        reflexivity).
  rewrite (Hdefaulted "track_history_except_column_list" VNone)
    by (rewrite Hlookup;
        destruct (payload !! "track_history_except_column_list");
        reflexivity).
  rewrite (Hdefaulted "flow_name" VNone)
    by (rewrite Hlookup; destruct (payload !! "flow_name"); reflexivity).
  rewrite (Hdefaulted "once" (VBool false))
    by (rewrite Hlookup; destruct (payload !! "once"); reflexivity).
  rewrite (Hdefaulted "ignore_null_updates_column_list" VNone)
    by (rewrite Hlookup;
        destruct (payload !! "ignore_null_updates_column_list");
        reflexivity).
  rewrite (Hdefaulted "ignore_null_updates_except_column_list" VNone)
    by (rewrite Hlookup;
        destruct (payload !! "ignore_null_updates_except_column_list");
        reflexivity).
  reflexivity.
Qed.

(** *** Sinks *)

Lemma for_each_app {A B : Type} (body : A → result B) (before : list A)
    (x : A) (after : list A) (e : exn) :
  (∀ y, y ∈ before → ∃ b, body y = Ok b) →
  body x = Raise e →
  for_each body (before ++ x :: after)%list = Raise e.
Proof.
  induction before as [|y before IH]; intros Hbefore Hx; cbn.
  - rewrite Hx. reflexivity.
  - destruct (Hbefore y) as [b Hb]; [apply list_elem_of_here|].
    rewrite Hb. cbn [bind].
    rewrite IH; [reflexivity | | exact Hx].
    intros z Hz. apply Hbefore. apply list_elem_of_further. exact Hz.
Qed.

Lemma for_each_raises {A B : Type} (body : A → result B) (l : list A) :
  (∃ x e, x ∈ l ∧ body x = Raise e) → ∃ e, for_each body l = Raise e.
Proof.
  induction l as [|y l IH]; intros (x & e & Hin & Hx).
  - apply elem_of_nil in Hin. contradiction.
  - cbn. destruct (body y) as [b|e'] eqn:Hy; cbn [bind]; [|eauto].
    apply elem_of_cons in Hin as [->|Hin]; [congruence|].
    destruct IH as [e'' He'']; [eauto|]. rewrite He''. cbn. eauto.
Qed.

Lemma for_each_ok {A B : Type} (body : A → result B) (l : list A)
    (out : list B) :
  for_each body l = Ok out → Forall2 (fun x b => body x = Ok b) l out.
Proof.
  revert out. induction l as [|x l IH]; intros out H; cbn in H.
  - injection H as <-. constructor.
  - destruct (body x) as [b|] eqn:Hx; cbn [bind] in H; [|discriminate H].
    destruct (for_each body l) as [bs|] eqn:Hl; cbn [bind] in H;
      [|discriminate H].
    injection H as <-. constructor; [exact Hx | apply IH; reflexivity].
Qed.

(** The loop returns the results of its body when the body returns on every
    element. *)
Lemma for_each_returns {A B : Type} (body : A → result B) (l : list A)
    (out : list B) :
  Forall2 (fun x b => body x = Ok b) l out → for_each body l = Ok out.
Proof.
  induction 1 as [|x b l out Hx _ IH]; [reflexivity|].
  cbn. rewrite Hx. cbn [bind]. rewrite IH. reflexivity.
Qed.

(** The secret resolution when both references are among the options. *)
Lemma resolve_kafka_secrets_both (kafka_options_json : gmap string value)
    (scope key secret : value) :
  kafka_options_json !! "kafka_bootstrap_servers_secrets_scope" = Some scope →
  kafka_options_json !! "kafka_bootstrap_servers_secrets_key" = Some key →
  secrets_get scope key = Some secret →
  resolve_kafka_secrets secrets_get kafka_options_json =
  Ok (delete "kafka_bootstrap_servers_secrets_key"
        (delete "kafka_bootstrap_servers_secrets_scope"
           (<["kafka.bootstrap.servers" := secret]> kafka_options_json))).
Proof.
  intros Hscope Hkey Hsecret. unfold resolve_kafka_secrets.
  rewrite !bool_decide_eq_true_2
    by (apply elem_of_dom; eauto).
  cbn [andb]. unfold getitem. rewrite Hscope, Hkey. cbn [bind].
  rewrite Hsecret. cbn [bind]. unfold delitem.
  rewrite lookup_insert_ne by discriminate. rewrite Hscope. cbn [bind].
  rewrite lookup_delete_ne by discriminate.
  rewrite lookup_insert_ne by discriminate. rewrite Hkey. reflexivity.
Qed.

(** The loop body on an entry that has the three mandatory attributes. *)
Lemma get_sink_complete (payload : gmap string value) (n f o : value) :
  payload !! "name" = Some n →
  payload !! "format" = Some f →
  payload !! "options" = Some o →
  get_sink json_loads (Some secrets_get) (VDict payload) =
  if negb (value_in f supported_sink_formats) then
    Raise (UnsupportedSinkFormat f)
  else
    (parsed <- loads json_loads o ;;
     json_sink <-
       (if value_is f "kafka" then
          kafka_options_json <- as_dict parsed ;;
          resolved <- resolve_kafka_secrets secrets_get kafka_options_json ;;
          Ok (<["options" := VDict resolved]> (<["options" := parsed]> payload))
        else Ok (<["options" := parsed]> payload)) ;;
     new_DLTSink json_sink)%result.
Proof.
  intros Hn Hf Ho. unfold get_sink. cbn [as_dict bind].
  rewrite bool_decide_eq_false_2.
  2:{ intros Hne. apply missing_keys_nonempty in Hne as (key & Hin & Hnone).
      unfold sink_mandatory_attributes in Hin.
      repeat (apply elem_of_cons in Hin as [->|Hin]; [congruence|]).
      apply elem_of_nil in Hin. exact Hin. }
  unfold getitem at 1. rewrite Hf. cbn [bind].
  destruct (negb (value_in f supported_sink_formats)); [reflexivity|].
  rewrite bool_decide_eq_true_2 by (apply elem_of_dom; eauto).
  unfold getitem at 1. rewrite Ho. cbn [bind].
  destruct (loads json_loads o) as [parsed|e]; cbn [bind]; [|reflexivity].
  rewrite bool_decide_eq_true_2
    by (apply elem_of_dom; rewrite lookup_insert_eq; eauto).
  rewrite andb_true_r.
  destruct (value_is f "kafka"); [|reflexivity].
  unfold getitem. rewrite lookup_insert_eq. cbn [bind]. reflexivity.
Qed.

(** The constructor on a dict that has exactly the three attributes. *)
Lemma new_DLTSink_ok (kwargs : gmap string value) (n f o : value) :
  dom kwargs ⊆ list_to_set sink_mandatory_attributes →
  kwargs !! "name" = Some n →
  kwargs !! "format" = Some f →
  kwargs !! "options" = Some o →
  new_DLTSink kwargs = Ok {| name := n; format := f; options := o |}.
Proof.
  intros Hdom Hn Hf Ho. unfold new_DLTSink, known_kwargs, kwarg.
  rewrite bool_decide_eq_true_2 by exact Hdom.
  cbn [bind]. rewrite Hn, Hf, Ho. reflexivity.
Qed.

(** [get_sinks] on a text that parses to a list is the loop over its
    entries. *)
Lemma get_sinks_parsed (sinks : string) (entries : list value) :
  json_loads sinks = Some (VList entries) →
  get_sinks json_loads (Some secrets_get) sinks
  = for_each (get_sink json_loads (Some secrets_get)) entries.
Proof.
  intros Hparse. unfold get_sinks, loads. rewrite Hparse. reflexivity.
Qed.

(** The record of a kafka entry whose options hold both secret
    references. *)
Lemma get_sink_kafka_resolved (payload kafka_options_json : gmap string value)
    (n : value) (text : string) (scope key secret : value) :
  dom payload ⊆ list_to_set sink_mandatory_attributes →
  payload !! "name" = Some n →
  payload !! "format" = Some (VStr "kafka") →
  payload !! "options" = Some (VStr text) →
  json_loads text = Some (VDict kafka_options_json) →
  kafka_options_json !! "kafka_bootstrap_servers_secrets_scope" = Some scope →
  kafka_options_json !! "kafka_bootstrap_servers_secrets_key" = Some key →
  secrets_get scope key = Some secret →
  ∃ resolved : gmap string value,
    get_sink json_loads (Some secrets_get) (VDict payload) =
    Ok {| name := n; format := VStr "kafka"; options := VDict resolved |}
    ∧ resolved !! "kafka.bootstrap.servers" = Some secret
    ∧ resolved !! "kafka_bootstrap_servers_secrets_scope" = None
    ∧ resolved !! "kafka_bootstrap_servers_secrets_key" = None
    ∧ ∀ other, other ≠ "kafka.bootstrap.servers" →
               other ≠ "kafka_bootstrap_servers_secrets_scope" →
               other ≠ "kafka_bootstrap_servers_secrets_key" →
               resolved !! other = kafka_options_json !! other.
Proof.
  intros Hdom Hn Hf Ho Hparse Hscope Hkey Hsecret.
  eexists. split; [|split; [|split; [|split]]].
  + rewrite (get_sink_complete payload n _ _ Hn Hf Ho).
    cbn [value_in supported_sink_formats].
    rewrite bool_decide_eq_true_2
      by (apply elem_of_cons; right; apply list_elem_of_here).
    cbn [negb loads]. rewrite Hparse. cbn [bind value_is].
    rewrite String.eqb_refl. cbn [as_dict bind].
    rewrite (resolve_kafka_secrets_both _ _ _ _ Hscope Hkey Hsecret).
    cbn [bind].
    apply new_DLTSink_ok.
    * rewrite !dom_insert_L. intros key' Hkey'.
      rewrite !elem_of_union, elem_of_singleton in Hkey'.
      destruct Hkey' as [->|[->|Hkey']];
        [ apply elem_of_list_to_set; unfold sink_mandatory_attributes;
          rewrite !elem_of_cons; auto ..
        | apply Hdom; exact Hkey' ].
    * rewrite !lookup_insert_ne by discriminate. exact Hn.
    * rewrite !lookup_insert_ne by discriminate. exact Hf.
    * rewrite lookup_insert_eq. reflexivity.
  + rewrite !lookup_delete_ne by discriminate. apply lookup_insert_eq.
  + rewrite lookup_delete_ne by discriminate. apply lookup_delete_eq.
  + apply lookup_delete_eq.
  + intros other H1 H2 H3.
    rewrite !lookup_delete_ne by congruence.
    apply lookup_insert_ne. congruence.
Qed.

(** C3: [get_sinks] on a serialized list of sinks.  An entry that lacks one
    of [name], [format], [options] raises the error naming the mandatory keys
    it lacks; an entry that has the three and whose format is neither [delta]
    nor [kafka] raises the unsupported-format error; the first entry that
    raises decides the error of [get_sinks], and [get_sinks] raises whenever
    some entry does.  [get_sinks] returns exactly the records of the entries,
    in their order, when every entry gives one.  The utilities of the
    platform being available, a kafka entry with exactly the three
    attributes, whose options parse to a dict that holds both secret
    references, gives a record whose options bind [kafka.bootstrap.servers]
    to the secret the store returns for that scope and key, no longer hold
    the two references, and are otherwise as parsed; and that record is the
    one [get_sinks] returns at the place of the entry. *)
Theorem get_sinks_validates_and_resolves :
  (∀ payload : gmap string value,
     (∃ key, key ∈ sink_mandatory_attributes ∧ payload !! key = None) →
     get_sink json_loads (Some secrets_get) (VDict payload) =
     Raise (MandatoryMissingKeys
              (list_to_set sink_mandatory_attributes ∖ dom payload) "sink")
     ∧ ∀ key, key ∈ (list_to_set sink_mandatory_attributes ∖ dom payload
                      : gset string)
              ↔ key ∈ sink_mandatory_attributes ∧ payload !! key = None)
  ∧ (∀ (payload : gmap string value) n f o,
       payload !! "name" = Some n →
       payload !! "format" = Some f →
       payload !! "options" = Some o →
       f ≠ VStr "delta" → f ≠ VStr "kafka" →
       get_sink json_loads (Some secrets_get) (VDict payload) =
       Raise (UnsupportedSinkFormat f))
  ∧ (∀ sinks before entry after e,
       json_loads sinks = Some (VList (before ++ entry :: after)%list) →
       (∀ x, x ∈ before → ∃ sink, get_sink json_loads (Some secrets_get) x = Ok sink) →
       get_sink json_loads (Some secrets_get) entry = Raise e →
       get_sinks json_loads (Some secrets_get) sinks = Raise e)
  ∧ (∀ sinks entries,
       json_loads sinks = Some (VList entries) →
       (∃ entry e, entry ∈ entries
                   ∧ get_sink json_loads (Some secrets_get) entry = Raise e) →
       ∃ e, get_sinks json_loads (Some secrets_get) sinks = Raise e)
  ∧ (∀ (payload kafka_options_json : gmap string value) n text scope key secret,
       dom payload ⊆ list_to_set sink_mandatory_attributes →
       payload !! "name" = Some n →
       payload !! "format" = Some (VStr "kafka") →
       payload !! "options" = Some (VStr text) →
       json_loads text = Some (VDict kafka_options_json) →
       kafka_options_json !! "kafka_bootstrap_servers_secrets_scope"
         = Some scope →
       kafka_options_json !! "kafka_bootstrap_servers_secrets_key"
         = Some key →
       secrets_get scope key = Some secret →
       ∃ resolved : gmap string value,
         get_sink json_loads (Some secrets_get) (VDict payload) =
         Ok {| name := n; format := VStr "kafka"; options := VDict resolved |}
         ∧ resolved !! "kafka.bootstrap.servers" = Some secret
         ∧ resolved !! "kafka_bootstrap_servers_secrets_scope" = None
         ∧ resolved !! "kafka_bootstrap_servers_secrets_key" = None
         ∧ ∀ other, other ≠ "kafka.bootstrap.servers" →
                    other ≠ "kafka_bootstrap_servers_secrets_scope" →
                    other ≠ "kafka_bootstrap_servers_secrets_key" →
                    resolved !! other = kafka_options_json !! other)
  ∧ (∀ sinks entries records,
       json_loads sinks = Some (VList entries) →
       get_sinks json_loads (Some secrets_get) sinks = Ok records
       ↔ Forall2 (fun entry record =>
                    get_sink json_loads (Some secrets_get) entry = Ok record)
           entries records)
  ∧ (∀ sinks before payload after,
       json_loads sinks = Some (VList (before ++ VDict payload :: after)%list) →
       (∀ x, x ∈ before →
             ∃ sink, get_sink json_loads (Some secrets_get) x = Ok sink) →
       ((∃ key, key ∈ sink_mandatory_attributes ∧ payload !! key = None) →
        get_sinks json_loads (Some secrets_get) sinks =
        Raise (MandatoryMissingKeys
                 (list_to_set sink_mandatory_attributes ∖ dom payload) "sink"))
       ∧ (∀ n f o,
            payload !! "name" = Some n →
            payload !! "format" = Some f →
            payload !! "options" = Some o →
            f ≠ VStr "delta" → f ≠ VStr "kafka" →
            get_sinks json_loads (Some secrets_get) sinks =
            Raise (UnsupportedSinkFormat f)))
  ∧ (∀ sinks before after records_before records_after
       (payload kafka_options_json : gmap string value)
       n text scope key secret,
       json_loads sinks = Some (VList (before ++ VDict payload :: after)%list) →
       Forall2 (fun entry record =>
                  get_sink json_loads (Some secrets_get) entry = Ok record)
         before records_before →
       Forall2 (fun entry record =>
                  get_sink json_loads (Some secrets_get) entry = Ok record)
         after records_after →
       dom payload ⊆ list_to_set sink_mandatory_attributes →
       payload !! "name" = Some n →
       payload !! "format" = Some (VStr "kafka") →
       payload !! "options" = Some (VStr text) →
       json_loads text = Some (VDict kafka_options_json) →
       kafka_options_json !! "kafka_bootstrap_servers_secrets_scope"
         = Some scope →
       kafka_options_json !! "kafka_bootstrap_servers_secrets_key"
         = Some key →
       secrets_get scope key = Some secret →
       ∃ resolved : gmap string value,
         get_sinks json_loads (Some secrets_get) sinks =
         Ok (records_before
             ++ {| name := n; format := VStr "kafka";
                   options := VDict resolved |} :: records_after)%list
         ∧ resolved !! "kafka.bootstrap.servers" = Some secret
         ∧ resolved !! "kafka_bootstrap_servers_secrets_scope" = None
         ∧ resolved !! "kafka_bootstrap_servers_secrets_key" = None
         ∧ ∀ other, other ≠ "kafka.bootstrap.servers" →
                    other ≠ "kafka_bootstrap_servers_secrets_scope" →
                    other ≠ "kafka_bootstrap_servers_secrets_key" →
                    resolved !! other = kafka_options_json !! other).
Proof.
  split; [|split; [|split; [|split; [|split; [|split; [|split]]]]]].
  - intros payload Hmissing. split.
    + unfold get_sink. cbn [as_dict bind].
      rewrite bool_decide_eq_true_2; [reflexivity|].
      apply missing_keys_nonempty. exact Hmissing.
    + intros key.
      rewrite elem_of_difference, elem_of_list_to_set, not_elem_of_dom.
      reflexivity.
  - intros payload n f o Hn Hf Ho Hdelta Hkafka.
    rewrite (get_sink_complete payload n f o Hn Hf Ho).
    assert (Hin : value_in f supported_sink_formats = false).
    { destruct f as [| | | |s| |]; try reflexivity.
      cbn. apply bool_decide_eq_false_2. unfold supported_sink_formats.
      intros Hin.
      repeat (apply elem_of_cons in Hin as [->|Hin]; [congruence|]).
      apply elem_of_nil in Hin. exact Hin. }
    rewrite Hin. reflexivity.
  - intros sinks before entry after e Hparse Hbefore Hentry.
    unfold get_sinks, loads. rewrite Hparse. cbn [bind iterate].
    apply for_each_app; assumption.
  - intros sinks entries Hparse Hex.
    unfold get_sinks, loads. rewrite Hparse. cbn [bind iterate].
    apply for_each_raises. destruct Hex as (entry & e & Hin & He). eauto.
  - exact get_sink_kafka_resolved.
  - intros sinks entries records Hparse.
    rewrite (get_sinks_parsed _ _ Hparse).
    split; [apply for_each_ok | apply for_each_returns].
  - intros sinks before payload after Hparse Hbefore.
    rewrite (get_sinks_parsed _ _ Hparse). split.
    + intros Hmissing. apply for_each_app; [exact Hbefore|].
      unfold get_sink. cbn [as_dict bind].
      rewrite bool_decide_eq_true_2; [reflexivity|].
      apply missing_keys_nonempty. exact Hmissing.
    + intros n f o Hn Hf Ho Hdelta Hkafka.
      apply for_each_app; [exact Hbefore|].
      rewrite (get_sink_complete payload n f o Hn Hf Ho).
      assert (Hin : value_in f supported_sink_formats = false).
      { destruct f as [| | | |s| |]; try reflexivity.
        cbn. apply bool_decide_eq_false_2. unfold supported_sink_formats.
        intros Hin.
        repeat (apply elem_of_cons in Hin as [->|Hin]; [congruence|]).
        apply elem_of_nil in Hin. exact Hin. }
      rewrite Hin. reflexivity.
  - intros sinks before after records_before records_after payload
      kafka_options_json n text scope key secret Hparse Hbefore Hafter
      Hdom Hn Hf Ho Hoptions Hscope Hkey Hsecret.
    destruct (get_sink_kafka_resolved payload kafka_options_json n text
                scope key secret Hdom Hn Hf Ho Hoptions Hscope Hkey Hsecret)
      as (resolved & Hsink & Hresolved).
    exists resolved. split; [|exact Hresolved].
    rewrite (get_sinks_parsed _ _ Hparse). apply for_each_returns.
    apply Forall2_app; [exact Hbefore|]. constructor; assumption.
Qed.

End PayloadFacts.

(** *** The scenarios of the specification *)

(** Versions 1, 2, 3 of one flow: the version-3 row alone is returned. *)
Example get_dataflow_spec_three_versions :
  _get_dataflow_spec no_table no_sql ∅ "bronze" (Some three_versions)
    (Some "G") None
  = Ok [flow_row "G" "F" "3"].
Proof. vm_compute. reflexivity. Qed.

(** The latest-version theorem at the three versions of one flow, with the
    group given as an argument. *)
Lemma get_dataflow_spec_latest_version_witness :
  ∃ out,
    _get_dataflow_spec no_table no_sql ∅ "bronze" (Some three_versions)
      (Some "G") None = Ok out
    ∧ partition_key <$> out = remove_dups (partition_key <$> three_versions)
    ∧ NoDup (partition_key <$> out)
    ∧ ∀ r, r ∈ out
           ↔ r ∈ three_versions
             ∧ ∀ r', r' ∈ three_versions →
                     partition_key r' = partition_key r →
                     String.le (version r') (version r).
Proof.
  apply (get_dataflow_spec_latest_version no_table no_sql ∅ "bronze"
           (Some three_versions) (Some "G") None three_versions three_versions).
  - reflexivity.
  - vm_compute. reflexivity.
  - apply (bool_decide_unpack _). vm_compute. exact I.
Defined.

(** Group and ids both configured, and an id filter that would keep
    nothing: the rows of the group are returned, the ids play no part. *)
Lemma get_dataflow_spec_group_before_ids_witness :
  _get_dataflow_spec no_table keep_nothing
    {[ "bronze.group" := "A1"; "bronze.dataflowIds" := "'999'" ]} "bronze"
    (Some two_groups) None None
  = Ok [flow_row "A1" "100" "1"; flow_row "A1" "101" "1"].
Proof.
  exact (proj1 (get_dataflow_spec_group_before_ids no_table keep_nothing
                  {[ "bronze.group" := "A1"; "bronze.dataflowIds" := "'999'" ]}
                  "bronze" (Some two_groups) None None two_groups eq_refl)
               "A1" eq_refl ltac:(discriminate)).
Defined.

(** The payload with the three mandatory attributes and nothing else: every
    other field is at its default. *)
Lemma get_cdc_apply_changes_mandatory_keys_witness :
  get_cdc_apply_changes (fun _ => Some (VDict minimal_cdc)) "minimal"
  = Ok {| keys := VList [VStr "id"];
          sequence_by := VStr "operation_date";
          where_ := VNone;
          ignore_null_updates := VBool false;
          apply_as_deletes := VNone; apply_as_truncates := VNone;
          column_list := VNone; except_column_list := VNone;
          scd_type := VStr "1";
          track_history_column_list := VNone;
          track_history_except_column_list := VNone;
          flow_name := VNone; once := VBool false;
          ignore_null_updates_column_list := VNone;
          ignore_null_updates_except_column_list := VNone |}.
Proof.
  exact (proj2 (proj2 (get_cdc_apply_changes_mandatory_keys
                         (fun _ => Some (VDict minimal_cdc)) "minimal"
                         minimal_cdc eq_refl))
               (VList [VStr "id"]) (VStr "operation_date") (VStr "1") eq_refl).
Defined.

(** A payload that also sets [once] and a history column list: the two are
    kept and the ten other optional fields are at their defaults. *)
Lemma get_cdc_apply_changes_fills_defaults_witness :
  get_cdc_apply_changes (fun _ => Some (VDict scd2_cdc)) "scd2"
  = Ok {| keys := VList [VStr "id"];
          sequence_by := VStr "operation_date";
          where_ := VNone;
          ignore_null_updates := VBool false;
          apply_as_deletes := VNone; apply_as_truncates := VNone;
          column_list := VNone; except_column_list := VNone;
          scd_type := VStr "2";
          track_history_column_list := VNone;
          track_history_except_column_list := VList [VStr "file_path"];
          flow_name := VNone; once := VBool true;
          ignore_null_updates_column_list := VNone;
          ignore_null_updates_except_column_list := VNone |}.
Proof.
  apply (get_cdc_apply_changes_fills_defaults
           (fun _ => Some (VDict scd2_cdc)) "scd2" scd2_cdc
           (VList [VStr "id"]) (VStr "operation_date") (VStr "2")).
  - reflexivity.
  - apply (bool_decide_unpack _). vm_compute. exact I.
  - reflexivity.
  - reflexivity.
  - reflexivity.
Defined.

(** A CDC payload without [scd_type]: the error names [scd_type]. *)
Example get_cdc_apply_changes_without_scd_type :
  get_cdc_apply_changes
    (fun _ => Some (VDict {[ "keys" := VList [VStr "id"];
                             "sequence_by" := VStr "operation_date" ]}))
    "no scd_type"
  = Raise (MandatoryMissingKeys {[ "scd_type" ]} "merge info").
Proof. vm_compute. reflexivity. Qed.

(** A sink of format [avro]: the unsupported-format error. *)
Example get_sinks_avro :
  get_sinks
    (fun _ => Some (VList [VDict {[ "name" := VStr "s";
                                    "format" := VStr "avro";
                                    "options" := VStr "{}" ]}]))
    None "sinks"
  = Raise (UnsupportedSinkFormat (VStr "avro")).
Proof. vm_compute. reflexivity. Qed.

(** A kafka sink with both secret references: the options of the record
    hold the secret under [kafka.bootstrap.servers] and not the references. *)
Example get_sinks_kafka_secret :
  get_sinks kafka_json_loads (Some one_secret) "sinks"
  = Ok [ {| name := VStr "s"; format := VStr "kafka";
            options := VDict {[ "kafka.bootstrap.servers" := VStr "broker:9092";
                                "topic" := VStr "t" ]} |} ].
Proof. vm_compute. reflexivity. Qed.

(** The sink theorem at the serialized list of that one kafka entry: the
    record [get_sinks] returns. *)
Lemma get_sinks_validates_and_resolves_witness :
  ∃ resolved : gmap string value,
    get_sinks kafka_json_loads (Some one_secret) "sinks" =
    Ok [ {| name := VStr "s"; format := VStr "kafka";
            options := VDict resolved |} ]
    ∧ resolved !! "kafka.bootstrap.servers" = Some (VStr "broker:9092")
    ∧ resolved !! "kafka_bootstrap_servers_secrets_scope" = None
    ∧ resolved !! "kafka_bootstrap_servers_secrets_key" = None
    ∧ ∀ other, other ≠ "kafka.bootstrap.servers" →
               other ≠ "kafka_bootstrap_servers_secrets_scope" →
               other ≠ "kafka_bootstrap_servers_secrets_key" →
               resolved !! other = kafka_options !! other.
Proof.
  apply (proj2 (proj2 (proj2 (proj2 (proj2 (proj2 (proj2
           (get_sinks_validates_and_resolves kafka_json_loads
              one_secret)))))))
         "sinks" [] [] [] [] kafka_sink kafka_options (VStr "s") "options"
         (VStr "scope") (VStr "key") (VStr "broker:9092")).
  - reflexivity.
  - constructor.
  - constructor.
  - apply (bool_decide_unpack _). vm_compute. exact I.
  - reflexivity.
  - reflexivity.
  - reflexivity.
  - reflexivity.
  - reflexivity.
  - reflexivity.
  - reflexivity.
Defined.

(** In a list of two or more entries only the empty string is removed: an
    entry of spaces stays. *)
Example get_partition_cols_keeps_spaces :
  get_partition_cols ["a"; "  "] = Some ["a"; "  "].
Proof. reflexivity. Qed.

End DataflowSpecFacts.

(** ** The integration-test runner *)

Module RunIntegrationTestsFacts.
Import RunIntegrationTests Vocabulary.

(** *** Conditionally required arguments *)

Lemma check_cond_mandatory_arg_first_missing
    (args : gmap string (option string)) (before : list string)
    (mand_arg : string) (after : list string) :
  (∀ a, a ∈ before → ∃ v, args !! a = Some (Some v)) →
  args !! mand_arg = Some None →
  check_cond_mandatory_arg args (before ++ mand_arg :: after)%list
  = Raise (Exception ("Please provide '--" +:+ mand_arg +:+ "'")).
Proof.
  induction before as [|a before IH]; intros Hbefore Hmissing; cbn.
  - unfold getitem. rewrite Hmissing. reflexivity.
  - destruct (Hbefore a) as [v Hv]; [apply list_elem_of_here|].
    unfold getitem at 1. rewrite Hv. cbn [bind].
    apply IH; [|exact Hmissing].
    intros b Hb. apply Hbefore. apply list_elem_of_further. exact Hb.
Qed.

Lemma check_cond_mandatory_arg_all_present
    (args : gmap string (option string)) (mandatory_args : list string) :
  (∀ a, a ∈ mandatory_args → ∃ v, args !! a = Some (Some v)) →
  check_cond_mandatory_arg args mandatory_args = Ok tt.
Proof.
  induction mandatory_args as [|a rest IH]; intros Hall; cbn; [reflexivity|].
  destruct (Hall a) as [v Hv]; [apply list_elem_of_here|].
  unfold getitem. rewrite Hv. cbn [bind].
  apply IH. intros b Hb. apply Hall. apply list_elem_of_further. exact Hb.
Qed.

(** C6: with the source [eventhub], [process_arguments] returns the
    arguments when each of the seven event-hub options has a value, and
    otherwise raises the error that names the first of the seven, in the
    order of the list, that has none; with the source [kafka] the same holds
    of [kafka_topic_name] and [kafka_broker]; with any other source nothing
    further is required. *)
Theorem process_arguments_conditionally_required
    (args : gmap string (option string)) (source : string) :
  args !! "source" = Some (Some source) →
  (source = "eventhub" →
     ((∀ a, a ∈ eventhub_mandatory_args → ∃ v, args !! a = Some (Some v)) →
        process_arguments args = Ok args)
     ∧ ∀ before mand_arg after,
         eventhub_mandatory_args = (before ++ mand_arg :: after)%list →
         (∀ a, a ∈ before → ∃ v, args !! a = Some (Some v)) →
         args !! mand_arg = Some None →
         process_arguments args
         = Raise (Exception ("Please provide '--" +:+ mand_arg +:+ "'")))
  ∧ (source = "kafka" →
     ((∀ a, a ∈ kafka_mandatory_args → ∃ v, args !! a = Some (Some v)) →
        process_arguments args = Ok args)
     ∧ ∀ before mand_arg after,
         kafka_mandatory_args = (before ++ mand_arg :: after)%list →
         (∀ a, a ∈ before → ∃ v, args !! a = Some (Some v)) →
         args !! mand_arg = Some None →
         process_arguments args
         = Raise (Exception ("Please provide '--" +:+ mand_arg +:+ "'")))
  ∧ (source ≠ "eventhub" → source ≠ "kafka" →
     process_arguments args = Ok args).
Proof.
  intros Hsource. unfold process_arguments, getitem.
  rewrite Hsource. cbn [bind].
  split; [|split].
  - intros ->. rewrite bool_decide_eq_true_2 by reflexivity. split.
    + intros Hall.
      rewrite check_cond_mandatory_arg_all_present by exact Hall.
      reflexivity.
    + intros before mand_arg after -> Hbefore Hmissing.
      rewrite (check_cond_mandatory_arg_first_missing _ _ _ _ Hbefore Hmissing).
      reflexivity.
  - intros ->. rewrite bool_decide_eq_false_2 by discriminate.
    rewrite bool_decide_eq_true_2 by reflexivity. split.
    + intros Hall.
      rewrite check_cond_mandatory_arg_all_present by exact Hall.
      reflexivity.
    + intros before mand_arg after -> Hbefore Hmissing.
      rewrite (check_cond_mandatory_arg_first_missing _ _ _ _ Hbefore Hmissing).
      reflexivity.
  - intros Heventhub Hkafka.
    rewrite !bool_decide_eq_false_2 by congruence. reflexivity.
Qed.

(** *** The trace of a run *)

Section RunnerFacts.

Variable platform : list event → event → option exn.
Variable os_walk : string → list (string * list string * list string).
Variable os_listdir : string → list string.
Variable method_effect : method → DLTMetaRunnerConf → DLTMetaRunnerConf.
Variable wheel_path : string → string.

Lemma emits_ret {A : Type} (P : event → Prop) (a : A) : emits P (ret a).
Proof. intros tr. exists []. rewrite app_nil_r. auto. Qed.

Lemma emits_raise {A : Type} (P : event → Prop) (e : exn) :
  emits P (raise e : run_m A).
Proof. intros tr. exists []. rewrite app_nil_r. auto. Qed.

Lemma emits_seq {A B : Type} (P : event → Prop) (c : run_m A)
    (k : A → run_m B) :
  emits P c → (∀ a, emits P (k a)) → emits P (seq c k).
Proof.
  intros Hc Hk tr. unfold seq.
  destruct (Hc tr) as (ext & Htr & Hext).
  destruct (c tr) as [tr' [a|e]]; cbn in Htr; subst tr'.
  - destruct (Hk a (tr ++ ext)%list) as (ext' & Htr' & Hext').
    exists (ext ++ ext')%list. rewrite Htr', app_assoc.
    split; [reflexivity | apply Forall_app; auto].
  - exists ext. auto.
Qed.

Lemma emits_perform (P : event → Prop) (e : event) :
  P e → emits P (perform platform e).
Proof.
  intros He tr. exists [e]. unfold perform.
  destruct (platform tr e); cbn; auto.
Qed.

Lemma emits_call (P : event → Prop) (m : method)
    (runner_conf : DLTMetaRunnerConf) :
  P (Call m) → emits P (call platform method_effect m runner_conf).
Proof.
  intros Hm. unfold call. apply emits_seq.
  - apply emits_perform. exact Hm.
  - intros _. apply emits_ret.
Qed.

Lemma emits_upload_each (runner_conf : DLTMetaRunnerConf) (root : string)
    (files : list string) :
  ∀ file, emits during_init (upload_each platform runner_conf root files file).
Proof.
  induction files as [|f rest IH]; intros file; cbn.
  - apply emits_ret.
  - apply emits_seq; [apply emits_perform; exact I|]. intros _.
    apply emits_seq; [apply emits_perform; exact I|]. intros _.
    apply IH.
Qed.

Lemma emits_upload_resources (runner_conf : DLTMetaRunnerConf)
    (walk : list (string * list string * list string)) :
  ∀ file, emits during_init (upload_resources platform runner_conf walk file).
Proof.
  induction walk as [|[[root dirs] files] rest IH]; intros file; cbn.
  - apply emits_ret.
  - apply emits_seq; [apply emits_upload_each|]. exact IH.
Qed.

Lemma emits_upload_conf (runner_conf : DLTMetaRunnerConf)
    (walk : list (string * list string * list string)) :
  ∀ file, emits during_init (upload_conf platform runner_conf walk file).
Proof.
  induction walk as [|[[root dirs] files] rest IH]; intros file; cbn.
  - apply emits_ret.
  - destruct file as [last_file|]; [|apply emits_raise].
    apply emits_seq; [|exact IH].
    destruct (endswith last_file "json");
      [apply emits_upload_each | apply emits_ret].
Qed.

Lemma emits_upload_notebooks (runner_conf : DLTMetaRunnerConf)
    (notebooks : list string) :
  emits during_init (upload_notebooks platform runner_conf notebooks).
Proof.
  induction notebooks as [|notebook rest IH]; cbn.
  - apply emits_ret.
  - apply emits_seq; [apply emits_perform; exact I|]. intros _.
    apply emits_seq; [apply emits_perform; exact I|]. intros _.
    exact IH.
Qed.

Lemma emits_upload_files_to_databricks (runner_conf : DLTMetaRunnerConf) :
  emits during_init
    (upload_files_to_databricks platform os_walk os_listdir wheel_path
       runner_conf).
Proof.
  unfold upload_files_to_databricks.
  apply emits_seq; [apply emits_upload_resources|]. intros file.
  apply emits_seq; [apply emits_upload_conf|]. intros _.
  apply emits_seq; [apply emits_perform; exact I|]. intros _.
  apply emits_seq; [apply emits_upload_notebooks|]. intros _.
  apply emits_seq; [apply emits_perform; exact I|]. intros _.
  apply emits_ret.
Qed.

Lemma emits_init_dltmeta_runner_conf (runner_conf : DLTMetaRunnerConf) :
  emits during_init
    (init_dltmeta_runner_conf platform os_walk os_listdir method_effect
       wheel_path runner_conf).
Proof.
  unfold init_dltmeta_runner_conf.
  apply emits_seq; [apply emits_call; exact I|]. intros c1.
  apply emits_seq; [apply emits_call; exact I|]. intros c2.
  apply emits_upload_files_to_databricks.
Qed.

(** [run] is [init_dltmeta_runner_conf] followed by the exit. *)
Lemma run_is_init_then_exit (runner_conf : DLTMetaRunnerConf)
    (tr : list event) :
  run platform os_walk os_listdir method_effect wheel_path runner_conf tr =
  match init_dltmeta_runner_conf platform os_walk os_listdir method_effect
          wheel_path runner_conf tr with
  | (tr', Ok _) => (tr', Raise SystemExit)
  | (tr', Raise e) => (tr', Raise e)
  end.
Proof.
  unfold run, seq at 1.
  destruct (init_dltmeta_runner_conf _ _ _ _ _ _ _) as [tr' [c|e]];
    reflexivity.
Qed.

(** Whatever the platform does, [run] ends by raising: with [SystemExit]
    when [init_dltmeta_runner_conf] returns, and with the exception of
    [init_dltmeta_runner_conf] otherwise, at the trace
    [init_dltmeta_runner_conf] left; and no event of [run] is a call of one
    of the four methods after the exit. *)
Lemma run_raises_at_the_trace_of_init (runner_conf : DLTMetaRunnerConf)
    (tr : list event) :
  (∀ tr' c,
     init_dltmeta_runner_conf platform os_walk os_listdir method_effect
       wheel_path runner_conf tr = (tr', Ok c) →
     run platform os_walk os_listdir method_effect wheel_path runner_conf tr
     = (tr', Raise SystemExit))
  ∧ (∀ tr' e,
     init_dltmeta_runner_conf platform os_walk os_listdir method_effect
       wheel_path runner_conf tr = (tr', Raise e) →
     run platform os_walk os_listdir method_effect wheel_path runner_conf tr
     = (tr', Raise e))
  ∧ (∃ e,
     snd (run platform os_walk os_listdir method_effect wheel_path
            runner_conf tr) = Raise e)
  ∧ (∃ ext,
     fst (run platform os_walk os_listdir method_effect wheel_path
            runner_conf tr) = (tr ++ ext)%list
     ∧ Forall during_init ext
     ∧ (Call create_bronze_silver_dlt ∉ ext)
     ∧ (Call launch_workflow ∉ ext)
     ∧ (Call download_test_results ∉ ext)
     ∧ (Call clean_up ∉ ext)).
Proof.
  rewrite run_is_init_then_exit.
  destruct (emits_init_dltmeta_runner_conf runner_conf tr)
    as (ext & Htr & Hext).
  destruct (init_dltmeta_runner_conf _ _ _ _ _ _ _) as [tr' [c|e]];
    cbn in Htr; subst tr';
    (split; [|split; [|split]];
     [ intros tr'' c' H; injection H as <-; try reflexivity; discriminate
     | intros tr'' e' H; try discriminate H; injection H as <- <-; reflexivity
     | eexists; reflexivity
     | exists ext; split; [reflexivity|]; split; [exact Hext|];
       rewrite Forall_forall in Hext;
       repeat split; intros Hin; exact (Hext _ Hin) ]).
Qed.

(** The first event of [run] is the call that initializes the catalog
    resources, whatever the platform answers. *)
Lemma run_starts_with_init (runner_conf : DLTMetaRunnerConf)
    (tr : list event) :
  ∃ ext,
    fst (run platform os_walk os_listdir method_effect wheel_path
           runner_conf tr)
    = (tr ++ Call initialize_uc_resources :: ext)%list.
Proof.
  assert (Hinit : ∃ ext,
    fst (init_dltmeta_runner_conf platform os_walk os_listdir method_effect
           wheel_path runner_conf tr)
    = (tr ++ Call initialize_uc_resources :: ext)%list).
  { unfold init_dltmeta_runner_conf, seq at 1, call at 1, seq at 1, perform.
    destruct (platform tr (Call initialize_uc_resources)) as [e|].
    - exists []. reflexivity.
    - cbn [ret].
      match goal with
      | |- context [seq ?c ?k ?t] =>
          destruct (emits_seq during_init c k) with (tr := t)
            as (ext & Hext & _)
      end.
      + apply emits_call. exact I.
      + intros c. apply emits_upload_files_to_databricks.
      + exists ext. rewrite Hext, <- app_assoc. reflexivity. }
  rewrite run_is_init_then_exit.
  destruct Hinit as (ext & Hext). exists ext.
  destruct (init_dltmeta_runner_conf _ _ _ _ _ _ _) as [tr' [c|e]];
    exact Hext.
Qed.


(** *** The upload of the conf directory *)

Hypothesis platform_accepts : ∀ tr e, platform tr e = None.

Lemma perform_accepted (e : event) (tr : list event) :
  perform platform e tr = ((tr ++ [e])%list, Ok tt).
Proof. unfold perform. rewrite platform_accepts. reflexivity. Qed.

Lemma upload_each_accepted (runner_conf : DLTMetaRunnerConf) (root : string)
    (files : list string) :
  ∀ file tr,
    upload_each platform runner_conf root files file tr
    = ((tr ++ uploads runner_conf root files)%list,
       Ok (match last files with Some f => Some f | None => file end)).
Proof.
  induction files as [|f rest IH]; intros file tr; cbn.
  - rewrite app_nil_r. reflexivity.
  - unfold seq at 1. rewrite perform_accepted.
    unfold seq at 1. rewrite perform_accepted.
    rewrite IH, <- !app_assoc. cbn. f_equal. f_equal.
    destruct rest as [|f' rest']; [reflexivity|].
    rewrite last_cons_cons.
    destruct (last (f' :: rest')) eqn:Hlast; [reflexivity|].
    apply last_None in Hlast. discriminate Hlast.
Qed.

Lemma upload_resources_accepted (runner_conf : DLTMetaRunnerConf)
    (walk : list (string * list string * list string)) :
  ∀ file tr,
    upload_resources platform runner_conf walk file tr
    = ((tr ++ (entry ← walk; uploads runner_conf entry.1.1 entry.2))%list,
       Ok (match last (entry ← walk; entry.2) with
           | Some f => Some f
           | None => file
           end)).
Proof.
  induction walk as [|[[root dirs] files] rest IH]; intros file tr; cbn.
  - rewrite app_nil_r. reflexivity.
  - unfold seq. rewrite upload_each_accepted, IH, <- app_assoc.
    f_equal. f_equal. rewrite last_app.
    destruct (last (entry ← rest; entry.2)); reflexivity.
Qed.

Lemma upload_notebooks_accepted (runner_conf : DLTMetaRunnerConf)
    (notebooks : list string) :
  ∀ tr,
    upload_notebooks platform runner_conf notebooks tr
    = ((tr ++ notebook_uploads runner_conf notebooks)%list, Ok tt).
Proof.
  induction notebooks as [|notebook rest IH]; intros tr; cbn.
  - rewrite app_nil_r. reflexivity.
  - unfold seq at 1. rewrite perform_accepted.
    unfold seq at 1. rewrite perform_accepted.
    rewrite IH, <- !app_assoc. reflexivity.
Qed.

End RunnerFacts.

Section UploadConfFacts.

Variable platform : list event → event → option exn.

(** Once the loop variable does not end in [json], no directory of the walk
    is uploaded: the variable is never assigned again. *)
Lemma upload_conf_skips (runner_conf : DLTMetaRunnerConf) (last_file : string)
    (walk : list (string * list string * list string)) (tr : list event) :
  endswith last_file "json" = false →
  upload_conf platform runner_conf walk (Some last_file) tr
  = (tr, Ok (Some last_file)).
Proof.
  intros Hsuffix.
  induction walk as [|[[root dirs] files] rest IH]; cbn; [reflexivity|].
  rewrite Hsuffix. unfold seq, ret. exact IH.
Qed.

(** One step of the walk of the conf directory.  The test
    [endswith("json")] is made on the file the inner loops visited last and
    not on the files of the directory: when it fails nothing of the walk is
    uploaded; when it holds, and the platform accepts every call, every file
    of the directory is uploaded and the next directory is tested on the
    last of them; with no file visited before, the test raises. *)
Lemma upload_conf_step
    (runner_conf : DLTMetaRunnerConf) (root : string)
    (dirs files : list string)
    (rest : list (string * list string * list string))
    (last_file : string) (tr : list event) :
  (endswith last_file "json" = false →
     upload_conf platform runner_conf ((root, dirs, files) :: rest)
       (Some last_file) tr
     = (tr, Ok (Some last_file)))
  ∧ (endswith last_file "json" = true →
     (∀ tr e, platform tr e = None) →
     upload_conf platform runner_conf ((root, dirs, files) :: rest)
       (Some last_file) tr
     = upload_conf platform runner_conf rest
         (Some (default last_file (last files)))
         (tr ++ uploads runner_conf root files)%list)
  ∧ upload_conf platform runner_conf ((root, dirs, files) :: rest) None tr
    = (tr, Raise (NameError "file"))
  ∧ ((∀ tr e, platform tr e = None) →
     ∀ walk file,
       upload_resources platform runner_conf walk file tr
       = ((tr ++ (entry ← walk; uploads runner_conf entry.1.1 entry.2))%list,
          Ok (match last (entry ← walk; entry.2) with
              | Some f => Some f
              | None => file
              end))).
Proof.
  split; [|split; [|split]].
  - apply upload_conf_skips.
  - intros Hsuffix Haccepts. cbn. rewrite Hsuffix. unfold seq at 1.
    rewrite (upload_each_accepted platform Haccepts).
    destruct (last files); reflexivity.
  - reflexivity.
  - intros Haccepts walk file.
    apply (upload_resources_accepted platform Haccepts).
Qed.

End UploadConfFacts.

Section UploadFacts.

Variable platform : list event → event → option exn.
Variable os_walk : string → list (string * list string * list string).
Variable os_listdir : string → list string.
Variable method_effect : method → DLTMetaRunnerConf → DLTMetaRunnerConf.
Variable wheel_path : string → string.

(** The walk of the conf directory on a platform that accepts every call
    uploads what the specification says. *)
Lemma upload_conf_accepted (runner_conf : DLTMetaRunnerConf)
    (walk : list (string * list string * list string)) :
  (∀ tr e, platform tr e = None) →
  ∀ last_seen tr,
    ∃ file,
      upload_conf platform runner_conf walk (Some last_seen) tr
      = ((tr ++ conf_uploads runner_conf walk last_seen)%list, Ok file).
Proof.
  intros platform_accepts.
  induction walk as [|[[root dirs] files] rest IH]; intros last_seen tr.
  - exists (Some last_seen). cbn. rewrite app_nil_r. reflexivity.
  - destruct (endswith last_seen "json") eqn:Hsuffix.
    + cbn [upload_conf conf_uploads]. rewrite Hsuffix. unfold seq at 1.
      rewrite (upload_each_accepted platform platform_accepts).
      destruct (IH (default last_seen (last files))
                  (tr ++ uploads runner_conf root files)%list)
        as (file & Hrest).
      exists file. rewrite app_assoc.
      destruct (last files); exact Hrest.
    + exists (Some last_seen).
      rewrite (upload_conf_skips platform runner_conf last_seen _ tr Hsuffix).
      cbn [conf_uploads]. rewrite Hsuffix, app_nil_r. reflexivity.
Qed.

(** The whole upload on a platform that accepts every call, once some file
    was seen in the resources tree. *)
Lemma upload_files_to_databricks_accepted (runner_conf : DLTMetaRunnerConf)
    (tr : list event) (last_file : string) :
  (∀ tr e, platform tr e = None) →
  last (files_seen (os_walk (int_tests_dir runner_conf +:+ "/resources")))
  = Some last_file →
  upload_files_to_databricks platform os_walk os_listdir wheel_path
    runner_conf tr
  = ((tr ++ tree_uploads runner_conf
              (os_walk (int_tests_dir runner_conf +:+ "/resources"))
         ++ conf_uploads runner_conf
              (os_walk (int_tests_dir runner_conf +:+ "/conf")) last_file
         ++ after_conf runner_conf
              (os_listdir (runners_full_local_path runner_conf)))%list,
     Ok {| int_tests_dir := int_tests_dir runner_conf;
           uc_volume_path := uc_volume_path runner_conf;
           runners_nb_path := runners_nb_path runner_conf;
           runners_full_local_path := runners_full_local_path runner_conf;
           remote_whl_path :=
             Some (wheel_path (uc_volume_path runner_conf)) |}).
Proof.
  intros platform_accepts Hlast.
  unfold upload_files_to_databricks, seq at 1.
  rewrite (upload_resources_accepted platform platform_accepts).
  fold (files_seen (os_walk (int_tests_dir runner_conf +:+ "/resources"))).
  rewrite Hlast.
  fold (tree_uploads runner_conf
          (os_walk (int_tests_dir runner_conf +:+ "/resources"))).
  unfold seq at 1.
  destruct (upload_conf_accepted runner_conf
              (os_walk (int_tests_dir runner_conf +:+ "/conf"))
              platform_accepts last_file
              (tr ++ tree_uploads runner_conf
                       (os_walk (int_tests_dir runner_conf +:+ "/resources")))%list)
    as (file & ->).
  unfold seq at 1. rewrite (perform_accepted platform platform_accepts).
  unfold seq at 1. rewrite (upload_notebooks_accepted platform platform_accepts).
  unfold seq at 1. rewrite (perform_accepted platform platform_accepts).
  unfold ret, after_conf. rewrite <- !app_assoc. reflexivity.
Qed.

(** With no file seen in the resources tree, the test of the first conf
    directory reads an unbound variable. *)
Lemma upload_files_to_databricks_unbound (runner_conf : DLTMetaRunnerConf)
    (tr : list event) :
  (∀ tr e, platform tr e = None) →
  last (files_seen (os_walk (int_tests_dir runner_conf +:+ "/resources")))
  = None →
  os_walk (int_tests_dir runner_conf +:+ "/conf") ≠ [] →
  upload_files_to_databricks platform os_walk os_listdir wheel_path
    runner_conf tr
  = ((tr ++ tree_uploads runner_conf
              (os_walk (int_tests_dir runner_conf +:+ "/resources")))%list,
     Raise (NameError "file")).
Proof.
  intros platform_accepts Hlast Hconf.
  unfold upload_files_to_databricks, seq at 1.
  rewrite (upload_resources_accepted platform platform_accepts).
  fold (files_seen (os_walk (int_tests_dir runner_conf +:+ "/resources"))).
  rewrite Hlast.
  fold (tree_uploads runner_conf
          (os_walk (int_tests_dir runner_conf +:+ "/resources"))).
  unfold seq at 1.
  destruct (os_walk (int_tests_dir runner_conf +:+ "/conf"))
    as [|[[root dirs] files] rest]; [contradiction|].
  reflexivity.
Qed.

(** C8: in [upload_files_to_databricks], on a platform that accepts every
    call.  The files of the conf tree are uploaded as the specification
    words it: each directory is decided once, on the name of the file the
    loops saw last, which for the first conf directory is the last file of
    the resources tree.  When that name does not end in [json], no file of
    the conf tree is uploaded, whatever the names of its files; when it
    does, every file of the directory is uploaded, whatever its name, and the
    next directory is decided on the last of them.  When no file was seen in
    the resources tree, the test of the first conf directory raises
    [NameError] and nothing more is uploaded. *)
Theorem upload_files_to_databricks_tests_last_file
    (runner_conf : DLTMetaRunnerConf) (tr : list event) :
  (∀ tr e, platform tr e = None) →
  (∀ last_file,
     last (files_seen (os_walk (int_tests_dir runner_conf +:+ "/resources")))
     = Some last_file →
     fst (upload_files_to_databricks platform os_walk os_listdir wheel_path
            runner_conf tr)
     = (tr ++ tree_uploads runner_conf
                (os_walk (int_tests_dir runner_conf +:+ "/resources"))
           ++ conf_uploads runner_conf
                (os_walk (int_tests_dir runner_conf +:+ "/conf")) last_file
           ++ after_conf runner_conf
                (os_listdir (runners_full_local_path runner_conf)))%list
     ∧ (endswith last_file "json" = false →
        fst (upload_files_to_databricks platform os_walk os_listdir
               wheel_path runner_conf tr)
        = (tr ++ tree_uploads runner_conf
                   (os_walk (int_tests_dir runner_conf +:+ "/resources"))
              ++ after_conf runner_conf
                   (os_listdir (runners_full_local_path runner_conf)))%list)
     ∧ (endswith last_file "json" = true →
        ∀ root dirs files rest,
          os_walk (int_tests_dir runner_conf +:+ "/conf")
          = (root, dirs, files) :: rest →
          fst (upload_files_to_databricks platform os_walk os_listdir
                 wheel_path runner_conf tr)
          = (tr ++ tree_uploads runner_conf
                     (os_walk (int_tests_dir runner_conf +:+ "/resources"))
                ++ uploads runner_conf root files
                ++ conf_uploads runner_conf rest
                     (default last_file (last files))
                ++ after_conf runner_conf
                     (os_listdir (runners_full_local_path runner_conf)))%list))
  ∧ (last (files_seen (os_walk (int_tests_dir runner_conf +:+ "/resources")))
     = None →
     os_walk (int_tests_dir runner_conf +:+ "/conf") ≠ [] →
     upload_files_to_databricks platform os_walk os_listdir wheel_path
       runner_conf tr
     = ((tr ++ tree_uploads runner_conf
                 (os_walk (int_tests_dir runner_conf +:+ "/resources")))%list,
        Raise (NameError "file"))).
Proof.
  intros Haccepts. split.
  - intros last_file Hlast.
    rewrite (upload_files_to_databricks_accepted runner_conf tr last_file
               Haccepts Hlast).
    cbn [fst]. split; [reflexivity|]. split.
    + intros Hsuffix.
      destruct (os_walk (int_tests_dir runner_conf +:+ "/conf"))
        as [|[[root dirs] files] rest]; [reflexivity|].
      cbn [conf_uploads]. rewrite Hsuffix. reflexivity.
    + intros Hsuffix root dirs files rest ->.
      cbn [conf_uploads]. rewrite Hsuffix, <- !app_assoc. reflexivity.
  - apply upload_files_to_databricks_unbound. exact Haccepts.
Qed.

(** C7: whatever the platform does, [run] ends by raising: with
    [SystemExit] when [init_dltmeta_runner_conf] returns (so also when the
    upload went through), and with the exception of
    [init_dltmeta_runner_conf] otherwise, at the trace
    [init_dltmeta_runner_conf] left; and every event [run] adds to the trace
    is one of [init_dltmeta_runner_conf], so the methods that create the
    pipelines, launch the job, download the results or clean up are never
    called.  The first event of [run] is always the initialization of the
    catalog resources; and on a platform that accepts every call the trace
    of [run] is that call, the generation of the onboarding files, the
    upload of the resources tree, of the conf tree, of the notebooks and of
    the wheel, in this order, and then the exit. *)
Theorem run_exits_after_init (runner_conf : DLTMetaRunnerConf)
    (tr : list event) :
  (∀ tr' c,
     init_dltmeta_runner_conf platform os_walk os_listdir method_effect
       wheel_path runner_conf tr = (tr', Ok c) →
     run platform os_walk os_listdir method_effect wheel_path runner_conf tr
     = (tr', Raise SystemExit))
  ∧ (∀ tr' e,
     init_dltmeta_runner_conf platform os_walk os_listdir method_effect
       wheel_path runner_conf tr = (tr', Raise e) →
     run platform os_walk os_listdir method_effect wheel_path runner_conf tr
     = (tr', Raise e))
  ∧ (∃ e,
     snd (run platform os_walk os_listdir method_effect wheel_path
            runner_conf tr) = Raise e)
  ∧ (∃ ext,
     fst (run platform os_walk os_listdir method_effect wheel_path
            runner_conf tr) = (tr ++ ext)%list
     ∧ Forall during_init ext
     ∧ (Call create_bronze_silver_dlt ∉ ext)
     ∧ (Call launch_workflow ∉ ext)
     ∧ (Call download_test_results ∉ ext)
     ∧ (Call clean_up ∉ ext))
  ∧ (∃ ext,
     fst (run platform os_walk os_listdir method_effect wheel_path
            runner_conf tr)
     = (tr ++ Call initialize_uc_resources :: ext)%list)
  ∧ ((∀ tr e, platform tr e = None) →
     ∀ initialized last_file,
       initialized
       = method_effect generate_onboarding_file
           (method_effect initialize_uc_resources runner_conf) →
       last (files_seen
               (os_walk (int_tests_dir initialized +:+ "/resources")))
       = Some last_file →
       run platform os_walk os_listdir method_effect wheel_path
         runner_conf tr
       = ((tr ++ [Call initialize_uc_resources; Call generate_onboarding_file]
              ++ tree_uploads initialized
                   (os_walk (int_tests_dir initialized +:+ "/resources"))
              ++ conf_uploads initialized
                   (os_walk (int_tests_dir initialized +:+ "/conf")) last_file
              ++ after_conf initialized
                   (os_listdir (runners_full_local_path initialized)))%list,
          Raise SystemExit)).
Proof.
  destruct (run_raises_at_the_trace_of_init platform os_walk os_listdir
              method_effect wheel_path runner_conf tr)
    as (Hreturns & Hraises & Hends & Htrace).
  split; [exact Hreturns|]. split; [exact Hraises|].
  split; [exact Hends|]. split; [exact Htrace|]. split.
  - apply run_starts_with_init.
  - intros Haccepts initialized last_file -> Hlast.
    rewrite run_is_init_then_exit.
    unfold init_dltmeta_runner_conf, seq at 1, call at 1, seq at 1.
    rewrite (perform_accepted platform Haccepts). cbn [ret].
    unfold seq at 1, call at 1, seq at 1.
    rewrite (perform_accepted platform Haccepts). cbn [ret].
    rewrite (upload_files_to_databricks_accepted _ _ last_file Haccepts
               Hlast).
    rewrite <- !app_assoc. reflexivity.
Qed.

End UploadFacts.

(** *** The scenarios of the specification *)

(** A check by evaluation that every name of a list has a value. *)
Lemma all_have_values (args : gmap string (option string))
    (names : list string) :
  forallb (fun a => match args !! a with
                    | Some (Some _) => true
                    | _ => false
                    end) names = true →
  ∀ a, a ∈ names → ∃ v, args !! a = Some (Some v).
Proof.
  intros Hall a Ha. rewrite forallb_forall in Hall.
  specialize (Hall a). rewrite <- list_elem_of_In in Hall.
  specialize (Hall Ha). destruct (args !! a) as [[v|]|]; [eauto | | ];
    discriminate Hall.
Defined.

(** The source [eventhub] without [eventhub_namespace]: the error names it;
    with the seven options present the arguments are returned. *)
Lemma process_arguments_conditionally_required_witness :
  process_arguments (eventhub_args None None)
  = Raise (Exception "Please provide '--eventhub_namespace'")
  ∧ process_arguments (eventhub_args (Some "ns") None)
    = Ok (eventhub_args (Some "ns") None).
Proof.
  split.
  - apply (proj2 (proj1 (process_arguments_conditionally_required
                           (eventhub_args None None) "eventhub" eq_refl)
                        eq_refl)
                 [ "eventhub_name"; "eventhub_name_append_flow";
                   "eventhub_producer_accesskey_name";
                   "eventhub_consumer_accesskey_name";
                   "eventhub_secrets_scope_name" ]
                 "eventhub_namespace" ["eventhub_port"] eq_refl).
    + apply all_have_values. vm_compute. reflexivity.
    + vm_compute. reflexivity.
  - apply (proj1 (proj1 (process_arguments_conditionally_required
                           (eventhub_args (Some "ns") None) "eventhub"
                           eq_refl)
                        eq_refl)).
    apply all_have_values. vm_compute. reflexivity.
Defined.

(** The platform of the scenarios accepts every call. *)
Lemma accepting_accepts : ∀ tr e, accepting tr e = None.
Proof. reflexivity. Defined.

(** A run on the source tree of the scenarios: the two initialization calls,
    the three resources, the two files of the conf directory (the last
    resource is named [schema.json]), the notebook and the wheel; then the
    exit. *)
Lemma run_exits_after_init_witness :
  run accepting a_walk a_listdir no_effect a_wheel a_conf []
  = ([ Call initialize_uc_resources; Call generate_onboarding_file;
       OpenFile "integration_tests/resources/ddl.sql";
       FilesUpload
         "/Volumes/cat/dlt_meta/files//integration_tests/resources/ddl.sql";
       OpenFile "integration_tests/resources/data/customers.csv";
       FilesUpload
         "/Volumes/cat/dlt_meta/files//integration_tests/resources/data/customers.csv";
       OpenFile "integration_tests/resources/data/schema.json";
       FilesUpload
         "/Volumes/cat/dlt_meta/files//integration_tests/resources/data/schema.json";
       OpenFile "integration_tests/conf/onboarding.json";
       FilesUpload
         "/Volumes/cat/dlt_meta/files//integration_tests/conf/onboarding.json";
       OpenFile "integration_tests/conf/cloudfiles-onboarding.template";
       FilesUpload
         "/Volumes/cat/dlt_meta/files//integration_tests/conf/cloudfiles-onboarding.template";
       WorkspaceMkdirs "/Users/me/dlt_meta_int_tests/run/runners";
       OpenFile "./integration_tests/notebooks/cloudfile_runners/init.py";
       WorkspaceUpload "/Users/me/dlt_meta_int_tests/run/runners/init.py";
       UploadWheel "/Volumes/cat/dlt_meta/files/" ],
     Raise SystemExit).
Proof.
  refine (eq_trans
            (proj2 (proj2 (proj2 (proj2 (proj2
               (run_exits_after_init accepting a_walk a_listdir no_effect
                  a_wheel a_conf [])))))
               accepting_accepts a_conf "schema.json" eq_refl _) _).
  - vm_compute. reflexivity.
  - vm_compute. reflexivity.
Defined.

(** The upload on that tree: the template of the conf directory is uploaded
    along with the onboarding file, the last resource being named
    [schema.json]. *)
Lemma upload_files_to_databricks_tests_last_file_witness :
  fst (upload_files_to_databricks accepting a_walk a_listdir a_wheel a_conf [])
  = [ OpenFile "integration_tests/resources/ddl.sql";
      FilesUpload
        "/Volumes/cat/dlt_meta/files//integration_tests/resources/ddl.sql";
      OpenFile "integration_tests/resources/data/customers.csv";
      FilesUpload
        "/Volumes/cat/dlt_meta/files//integration_tests/resources/data/customers.csv";
      OpenFile "integration_tests/resources/data/schema.json";
      FilesUpload
        "/Volumes/cat/dlt_meta/files//integration_tests/resources/data/schema.json";
      OpenFile "integration_tests/conf/onboarding.json";
      FilesUpload
        "/Volumes/cat/dlt_meta/files//integration_tests/conf/onboarding.json";
      OpenFile "integration_tests/conf/cloudfiles-onboarding.template";
      FilesUpload
        "/Volumes/cat/dlt_meta/files//integration_tests/conf/cloudfiles-onboarding.template";
      WorkspaceMkdirs "/Users/me/dlt_meta_int_tests/run/runners";
      OpenFile "./integration_tests/notebooks/cloudfile_runners/init.py";
      WorkspaceUpload "/Users/me/dlt_meta_int_tests/run/runners/init.py";
      UploadWheel "/Volumes/cat/dlt_meta/files/" ].
Proof.
  refine (eq_trans
            (proj1 (proj1
               (upload_files_to_databricks_tests_last_file accepting a_walk
                  a_listdir a_wheel a_conf [] accepting_accepts)
               "schema.json" _)) _).
  - vm_compute. reflexivity.
  - vm_compute. reflexivity.
Defined.

(** The upload when the last resource is named [customers.csv]: no file of
    the conf directory is uploaded, the onboarding file included. *)
Example upload_files_to_databricks_after_csv :
  fst (upload_files_to_databricks accepting csv_walk a_listdir a_wheel
         a_conf [])
  = [ OpenFile "integration_tests/resources/schema.json";
      FilesUpload
        "/Volumes/cat/dlt_meta/files//integration_tests/resources/schema.json";
      OpenFile "integration_tests/resources/customers.csv";
      FilesUpload
        "/Volumes/cat/dlt_meta/files//integration_tests/resources/customers.csv";
      WorkspaceMkdirs "/Users/me/dlt_meta_int_tests/run/runners";
      OpenFile "./integration_tests/notebooks/cloudfile_runners/init.py";
      WorkspaceUpload "/Users/me/dlt_meta_int_tests/run/runners/init.py";
      UploadWheel "/Volumes/cat/dlt_meta/files/" ].
Proof. vm_compute. reflexivity. Qed.

(** After a resources file that is not named [...json], the onboarding
    files of the conf directory are not uploaded. *)
Example upload_conf_after_csv :
  upload_conf accepting a_conf
    [("integration_tests/conf", [], ["onboarding.json"; "dqe.json"])]
    (Some "customers.csv") []
  = ([], Ok (Some "customers.csv")).
Proof. vm_compute. reflexivity. Qed.

(** After a file named [...json], the template of the conf directory is
    uploaded along with the onboarding file. *)
Example upload_conf_after_json :
  fst (upload_conf accepting a_conf
         [("integration_tests/conf", [],
           ["onboarding.json"; "cloudfiles-onboarding.template"])]
         (Some "schema.json") [])
  = [ OpenFile "integration_tests/conf/onboarding.json";
      FilesUpload
        "/Volumes/cat/dlt_meta/files//integration_tests/conf/onboarding.json";
      OpenFile "integration_tests/conf/cloudfiles-onboarding.template";
      FilesUpload
        "/Volumes/cat/dlt_meta/files//integration_tests/conf/cloudfiles-onboarding.template" ].
Proof. vm_compute. reflexivity. Qed.

End RunIntegrationTestsFacts.

(** ** Append flows *)

Module AppendFlowsFacts.
Import DataflowSpecUtils AppendFlows DataflowSpecFacts.

(** Filling the defaults the payload lacks is the union of the payload with
    the defaults, the payload first. *)
Lemma fill_defaults_union (defaults payload : gmap string value) :
  fill_defaults defaults (elements (dom defaults ∖ dom payload)) payload
  = Ok (payload ∪ defaults).
Proof.
  destruct (fill_defaults_ok defaults
              (elements (dom defaults ∖ dom payload)) payload)
    as (filled & Hfill & Hlookup).
  { intros key Hkey. apply elem_of_elements, elem_of_difference in Hkey.
    apply elem_of_dom. tauto. }
  rewrite Hfill. f_equal. apply map_eq. intros key. rewrite Hlookup.
  destruct (payload !! key) as [v|] eqn:Hpayload.
  - rewrite bool_decide_eq_false_2.
    + symmetry. apply lookup_union_Some_l. exact Hpayload.
    + intros Hkey. apply elem_of_elements, elem_of_difference in Hkey.
      destruct Hkey as [_ Hkey]. apply Hkey. apply elem_of_dom. eauto.
  - rewrite lookup_union_r by exact Hpayload.
    destruct (defaults !! key) as [d|] eqn:Hdefault.
    + rewrite bool_decide_eq_true_2; [reflexivity|].
      apply elem_of_elements, elem_of_difference. split.
      * apply elem_of_dom. eauto.
      * apply not_elem_of_dom. exact Hpayload.
    + destruct (bool_decide _); reflexivity.
Qed.

(** The loop body on an entry that has the four mandatory attributes. *)
Lemma get_append_flow_complete (payload : gmap string value) :
  (∀ key, key ∈ append_flow_mandatory_attributes →
          is_Some (payload !! key)) →
  get_append_flow (VDict payload)
  = new_AppendFlow (payload ∪ append_flow_api_attributes_defaults).
Proof.
  intros Hmandatory. unfold get_append_flow. cbn [as_dict bind].
  rewrite bool_decide_eq_false_2.
  2:{ intros Hne. apply missing_keys_nonempty in Hne as (key & Hin & Hnone).
      destruct (Hmandatory key Hin) as [v Hv]. congruence. }
  rewrite fill_defaults_union. reflexivity.
Qed.

Lemma lookup_with_default (payload defaults : gmap string value)
    (key : string) (d : value) :
  defaults !! key = Some d →
  (payload ∪ defaults) !! key = Some (default d (payload !! key)).
Proof.
  intros Hd. destruct (payload !! key) as [v|] eqn:Hv.
  - apply lookup_union_Some_l. exact Hv.
  - rewrite lookup_union_r by exact Hv. exact Hd.
Qed.

Section AppendFlowsPlatform.

Variable json_loads : string → option value.

(** X5: in the loop of [get_append_flows], an entry that lacks one of
    [name], [source_format], [create_streaming_table], [source_details]
    raises the error naming the mandatory keys it lacks; an entry that has
    the four and no key that is not a field of [AppendFlow] gives the record
    with the values of the entry and, for [comment], [reader_options],
    [spark_conf] and [once] when absent, their defaults (the default of
    [create_streaming_table] is never used); an entry that has the four and
    a key that is not a field raises a [TypeError]; and a list of entries
    gives one record for each entry, in order, or nothing at all. *)
Theorem get_append_flows_validates_and_fills :
  (∀ payload : gmap string value,
     (∃ key, key ∈ append_flow_mandatory_attributes
             ∧ payload !! key = None) →
     get_append_flow (VDict payload) =
     Raise (MandatoryMissingKeys
              (list_to_set append_flow_mandatory_attributes ∖ dom payload)
              "append flow"))
  ∧ (∀ (payload : gmap string value) n f c d,
       payload !! "name" = Some n →
       payload !! "source_format" = Some f →
       payload !! "create_streaming_table" = Some c →
       payload !! "source_details" = Some d →
       dom payload ⊆ list_to_set append_flow_fields →
       get_append_flow (VDict payload) =
       Ok {| name := n;
             comment := default VNone (payload !! "comment");
             create_streaming_table := c;
             source_format := f;
             source_details := d;
             reader_options := default VNone (payload !! "reader_options");
             spark_conf := default VNone (payload !! "spark_conf");
             once := default (VBool false) (payload !! "once") |})
  ∧ (∀ (payload : gmap string value) key,
       (∀ m, m ∈ append_flow_mandatory_attributes →
             is_Some (payload !! m)) →
       is_Some (payload !! key) →
       key ∉ append_flow_fields →
       ∃ msg, get_append_flow (VDict payload) = Raise (TypeError msg))
  ∧ (∀ append_flows entries,
       json_loads append_flows = Some (VList entries) →
       ∀ flows,
         get_append_flows json_loads append_flows = Ok flows
         ↔ Forall2 (fun entry flow => get_append_flow entry = Ok flow)
             entries flows).
Proof.
  split; [|split; [|split]].
  - intros payload Hmissing. unfold get_append_flow. cbn [as_dict bind].
    rewrite bool_decide_eq_true_2; [reflexivity|].
    apply missing_keys_nonempty. exact Hmissing.
  - intros payload n f c d Hn Hf Hc Hd Hdom.
    rewrite get_append_flow_complete.
    2:{ unfold append_flow_mandatory_attributes. intros key Hin.
        repeat (apply elem_of_cons in Hin as [->|Hin]; [eauto|]).
        apply elem_of_nil in Hin. contradiction. }
    unfold new_AppendFlow, known_kwargs.
    rewrite bool_decide_eq_true_2.
    2:{ rewrite dom_union_L. intros key Hkey.
        apply elem_of_union in Hkey as [Hkey|Hkey]; [apply Hdom; exact Hkey|].
        apply elem_of_dom in Hkey as [v Hv].
        apply elem_of_list_to_set.
        destruct (decide (key ∈ append_flow_fields)) as [|Hnot];
          [assumption|].
        exfalso. revert Hv.
        unfold append_flow_api_attributes_defaults. cbn [list_to_map foldr].
        unfold append_flow_fields in Hnot. rewrite !elem_of_cons in Hnot.
        rewrite !lookup_insert_ne by (intros <-; tauto).
        rewrite lookup_empty. discriminate. }
    cbn [bind].
    rewrite (kwarg_given _ "name" n)
      by (apply lookup_union_Some_l; exact Hn).
    rewrite (kwarg_given _ "source_format" f)
      by (apply lookup_union_Some_l; exact Hf).
    rewrite (kwarg_given _ "create_streaming_table" c)
      by (apply lookup_union_Some_l; exact Hc).
    rewrite (kwarg_given _ "source_details" d)
      by (apply lookup_union_Some_l; exact Hd).
    rewrite (kwarg_given _ "comment" (default VNone (payload !! "comment")))
      by (apply lookup_with_default; reflexivity).
    rewrite (kwarg_given _ "reader_options"
               (default VNone (payload !! "reader_options")))
      by (apply lookup_with_default; reflexivity).
    rewrite (kwarg_given _ "spark_conf"
               (default VNone (payload !! "spark_conf")))
      by (apply lookup_with_default; reflexivity).
    rewrite (kwarg_given _ "once"
               (default (VBool false) (payload !! "once")))
      by (apply lookup_with_default; reflexivity).
    reflexivity.
  - intros payload key Hmandatory [v Hv] Hnot.
    rewrite (get_append_flow_complete payload Hmandatory).
    unfold new_AppendFlow, known_kwargs.
    rewrite bool_decide_eq_false_2; [cbn; eauto|].
    intros Hsub. apply Hnot.
    assert (Hin : key ∈ dom (payload ∪ append_flow_api_attributes_defaults)).
    { apply elem_of_dom. exists v. apply lookup_union_Some_l. exact Hv. }
    apply Hsub, elem_of_list_to_set in Hin. exact Hin.
  - intros append_flows entries Hparse flows.
    unfold get_append_flows, loads. rewrite Hparse. cbn [bind iterate].
    split; [apply for_each_ok|]. clear Hparse.
    induction 1 as [|entry flow entries flows Hentry _ IH]; [reflexivity|].
    cbn. rewrite Hentry. cbn [bind]. rewrite IH. reflexivity.
Qed.

End AppendFlowsPlatform.

End AppendFlowsFacts.

(** ** Bronze and silver specs *)

Module TypedSpecsFacts.
Import DataflowSpecUtils TypedSpecs MoreVocabulary DataflowSpecFacts.

(** The keyword arguments are found exactly when every keyword is a field
    and every field is a keyword. *)
Lemma for_each_kwarg (kwargs : gmap string value) (fields : list string)
    (args : list value) :
  for_each (kwarg kwargs) fields = Ok args
  ↔ Forall2 (fun field v => kwargs !! field = Some v) fields args.
Proof.
  split.
  - intros H. apply for_each_ok in H.
    induction H as [|field v fields args Hfield _ IH]; constructor;
      [|exact IH].
    unfold kwarg in Hfield. destruct (kwargs !! field); congruence.
  - induction 1 as [|field v fields args Hfield _ IH]; [reflexivity|].
    cbn. unfold kwarg at 1. rewrite Hfield. cbn [bind]. rewrite IH.
    reflexivity.
Qed.

Lemma keyword_arguments_ok (fields : list string)
    (kwargs : gmap string value) (args : list value) :
  keyword_arguments fields kwargs = Ok args
  ↔ dom kwargs ⊆ list_to_set fields
    ∧ Forall2 (fun field v => kwargs !! field = Some v) fields args.
Proof.
  unfold keyword_arguments, known_kwargs. case_bool_decide as Hdom.
  - cbn [bind]. rewrite for_each_kwarg. tauto.
  - cbn [bind]. split; [discriminate | tauto].
Qed.

Lemma keyword_arguments_raises (fields : list string)
    (kwargs : gmap string value) (e : exn) :
  keyword_arguments fields kwargs = Raise e → ∃ msg, e = TypeError msg.
Proof.
  unfold keyword_arguments, known_kwargs. case_bool_decide as Hdom.
  - cbn [bind]. clear Hdom.
    induction fields as [|field fields IH]; [discriminate|].
    cbn. unfold kwarg at 1. destruct (kwargs !! field); cbn [bind].
    + destruct (for_each (kwarg kwargs) fields); cbn [bind];
        [discriminate | exact IH].
    + intros H. injection H as <-. eauto.
  - cbn [bind]. intros H. injection H as <-. eauto.
Qed.

(** Some field is missing exactly when the arguments are not found although
    every keyword is a field. *)
Lemma keyword_arguments_total (fields : list string)
    (kwargs : gmap string value) :
  dom kwargs ⊆ list_to_set fields →
  (∀ field, field ∈ fields → is_Some (kwargs !! field)) →
  ∃ args, keyword_arguments fields kwargs = Ok args.
Proof.
  intros Hdom Hall.
  assert (∃ args, Forall2 (fun field v => kwargs !! field = Some v)
                    fields args) as [args Hargs].
  { clear Hdom.
    induction fields as [|field fields IH]; [exists []; constructor|].
    destruct (Hall field) as [v Hv]; [apply list_elem_of_here|].
    destruct IH as [args Hargs].
    { intros f Hf. apply Hall. apply list_elem_of_further. exact Hf. }
    exists (v :: args). constructor; assumption. }
  exists args. apply keyword_arguments_ok. auto.
Qed.

(** A spec is built exactly when its fields are the keyword arguments. *)
Lemma new_BronzeDataflowSpec_ok (kwargs : gmap string value)
    (spec : Bronze.BronzeDataflowSpec) :
  Bronze.new_BronzeDataflowSpec kwargs = Ok spec
  ↔ keyword_arguments Bronze.bronze_fields kwargs = Ok (bronze_values spec).
Proof.
  unfold Bronze.new_BronzeDataflowSpec.
  destruct (keyword_arguments Bronze.bronze_fields kwargs) as [args|e]
    eqn:Hargs; cbn [bind]; [|split; discriminate].
  apply keyword_arguments_ok in Hargs as [_ Hargs].
  apply Forall2_length in Hargs. cbn in Hargs.
  do 23 (destruct args as [|? args]; [try discriminate Hargs|]);
    [|discriminate Hargs].
  split.
  - intros H. injection H as <-. reflexivity.
  - intros H. destruct spec. cbn in H. injection H as -> -> -> -> -> -> -> ->
      -> -> -> -> -> -> -> -> -> -> -> -> -> ->. reflexivity.
Qed.

Lemma new_SilverDataflowSpec_ok (kwargs : gmap string value)
    (spec : Silver.SilverDataflowSpec) :
  Silver.new_SilverDataflowSpec kwargs = Ok spec
  ↔ keyword_arguments Silver.silver_fields kwargs = Ok (silver_values spec).
Proof.
  unfold Silver.new_SilverDataflowSpec.
  destruct (keyword_arguments Silver.silver_fields kwargs) as [args|e]
    eqn:Hargs; cbn [bind]; [|split; discriminate].
  apply keyword_arguments_ok in Hargs as [_ Hargs].
  apply Forall2_length in Hargs. cbn in Hargs.
  do 22 (destruct args as [|? args]; [try discriminate Hargs|]);
    [|discriminate Hargs].
  split.
  - intros H. injection H as <-. reflexivity.
  - intros H. destruct spec. cbn in H. injection H as -> -> -> -> -> -> -> ->
      -> -> -> -> -> -> -> -> -> -> -> -> ->. reflexivity.
Qed.

Lemma new_BronzeDataflowSpec_raises (kwargs : gmap string value) (e : exn) :
  Bronze.new_BronzeDataflowSpec kwargs = Raise e → ∃ msg, e = TypeError msg.
Proof.
  unfold Bronze.new_BronzeDataflowSpec.
  destruct (keyword_arguments Bronze.bronze_fields kwargs) as [args|e']
    eqn:Hargs; cbn [bind].
  - do 23 (destruct args as [|? args];
           [intros H; first [discriminate H | injection H as <-; eauto]|]).
    intros H; injection H as <-; eauto.
  - intros H. injection H as <-.
    exact (keyword_arguments_raises _ _ _ Hargs).
Qed.

Lemma new_SilverDataflowSpec_raises (kwargs : gmap string value) (e : exn) :
  Silver.new_SilverDataflowSpec kwargs = Raise e → ∃ msg, e = TypeError msg.
Proof.
  unfold Silver.new_SilverDataflowSpec.
  destruct (keyword_arguments Silver.silver_fields kwargs) as [args|e']
    eqn:Hargs; cbn [bind].
  - do 22 (destruct args as [|? args];
           [intros H; first [discriminate H | injection H as <-; eauto]|]).
    intros H; injection H as <-; eauto.
  - intros H. injection H as <-.
    exact (keyword_arguments_raises _ _ _ Hargs).
Qed.

(** The dict of a row. *)
Lemma asDict_lookup (row : Row) (column : string) :
  asDict row !! column =
  if bool_decide (column = "dataFlowId") then Some (VStr (dataFlowId row))
  else if bool_decide (column = "dataFlowGroup")
       then Some (VStr (dataFlowGroup row))
  else if bool_decide (column = "version") then Some (VStr (version row))
  else columns row !! column.
Proof.
  unfold asDict.
  case_bool_decide as H1; [subst; apply lookup_insert_eq|].
  rewrite lookup_insert_ne by congruence.
  case_bool_decide as H2; [subst; apply lookup_insert_eq|].
  rewrite lookup_insert_ne by congruence.
  case_bool_decide as H3; [subst; apply lookup_insert_eq|].
  rewrite lookup_insert_ne by congruence. reflexivity.
Qed.

Lemma asDict_is_Some (row : Row) (column : string) :
  is_Some (asDict row !! column)
  ↔ column ∈ key_columns ∨ is_Some (columns row !! column).
Proof.
  rewrite asDict_lookup. unfold key_columns.
  rewrite !elem_of_cons, elem_of_nil.
  repeat case_bool_decide; subst; split; eauto.
  intros [[?|[?|[?|[]]]]|Hsome]; [congruence.. | exact Hsome].
Qed.

(** The values the constructor is given for a row whose missing additional
    columns were filled in. *)
Lemma row_arguments_values (fields additional : list string) (row : Row)
    (args : list value) :
  keyword_arguments fields
    (populate_additional_df_cols (asDict row) additional) = Ok args →
  Forall2 (fun field v => v = default VNone (asDict row !! field))
    fields args.
Proof.
  intros H. apply keyword_arguments_ok in H as [_ H].
  eapply Forall2_impl; [exact H|]. intros field v Hv. cbn in Hv.
  rewrite populate_additional_df_cols_lookup in Hv.
  destruct (asDict row !! field); cbn; [congruence|].
  case_bool_decide; congruence.
Qed.

Lemma row_arguments_found (fields additional : list string) (row : Row) :
  (∀ column, column ∈ additional → column ∈ fields) →
  (∃ args, keyword_arguments fields
             (populate_additional_df_cols (asDict row) additional) = Ok args)
  ↔ (∀ column, is_Some (asDict row !! column) → column ∈ fields)
    ∧ (∀ field, field ∈ fields → field ∉ additional →
         is_Some (asDict row !! field)).
Proof.
  intros Hadditional. split.
  - intros [args H]. apply keyword_arguments_ok in H as [Hdom H]. split.
    + intros column [v Hv].
      apply (elem_of_list_to_set (C := gset string)), Hdom, elem_of_dom.
      rewrite populate_additional_df_cols_lookup, Hv. eauto.
    + intros field Hin Hnin.
      apply list_elem_of_lookup in Hin as [i Hi].
      destruct (Forall2_lookup_l _ _ _ _ _ H Hi) as (v & _ & Hv).
      rewrite populate_additional_df_cols_lookup in Hv.
      destruct (asDict row !! field); [eauto|].
      rewrite bool_decide_eq_false_2 in Hv by exact Hnin. discriminate Hv.
  - intros [Hcolumns Hfields]. apply keyword_arguments_total.
    + intros column Hin. apply elem_of_dom in Hin as [v Hv].
      apply elem_of_list_to_set.
      rewrite populate_additional_df_cols_lookup in Hv.
      destruct (asDict row !! column) eqn:Hrow.
      * apply Hcolumns. rewrite Hrow. eauto.
      * case_bool_decide as Hin; [auto | discriminate Hv].
    + intros field Hin. rewrite populate_additional_df_cols_lookup.
      destruct (asDict row !! field) eqn:Hrow; [eauto|].
      case_bool_decide as Hadd; [eauto|].
      rewrite <- Hrow. apply Hfields; assumption.
Qed.

(** Membership in a list of strings that is given, by computation. *)
Ltac listed := apply (bool_decide_unpack _); vm_compute; exact I.

(** X6: a row of the bronze table becomes a spec exactly when each of its
    columns is a field of [BronzeDataflowSpec] and each field other than
    [appendFlows] and [appendFlowsSchemas] is a column (the three key columns
    always are).  The spec then holds the row's value of each column, and
    [None] for a column the row lacks.  Otherwise the constructor raises
    [TypeError]; in particular [sinks] is not filled in, so a row without
    that column is refused. *)
Theorem bronze_of_row_outcome (row : Row) :
  ((∃ spec, bronze_of_row row = Ok spec)
   ↔ (∀ column, is_Some (columns row !! column) →
        column ∈ Bronze.bronze_fields)
     ∧ (∀ field, field ∈ Bronze.bronze_fields → field ∉ key_columns →
          field ∉ additional_bronze_df_columns →
          is_Some (columns row !! field)))
  ∧ (∀ spec, bronze_of_row row = Ok spec →
       Forall2 (fun field v => v = default VNone (asDict row !! field))
         Bronze.bronze_fields (bronze_values spec))
  ∧ (∀ e, bronze_of_row row = Raise e → ∃ msg, e = TypeError msg)
  ∧ (columns row !! "sinks" = None →
     ∃ msg, bronze_of_row row = Raise (TypeError msg)).
Proof.
  assert (Hiff : (∃ spec, bronze_of_row row = Ok spec)
    ↔ (∀ column, is_Some (columns row !! column) →
         column ∈ Bronze.bronze_fields)
      ∧ (∀ field, field ∈ Bronze.bronze_fields → field ∉ key_columns →
           field ∉ additional_bronze_df_columns →
           is_Some (columns row !! field))).
  { unfold bronze_of_row. cbn zeta.
    assert (Hspec : (∃ spec, Bronze.new_BronzeDataflowSpec
               (populate_additional_df_cols (asDict row)
                  additional_bronze_df_columns) = Ok spec)
             ↔ ∃ args, keyword_arguments Bronze.bronze_fields
                 (populate_additional_df_cols (asDict row)
                    additional_bronze_df_columns) = Ok args).
    { split.
      - intros [spec H]. apply new_BronzeDataflowSpec_ok in H. eauto.
      - intros [args H]. unfold Bronze.new_BronzeDataflowSpec.
        rewrite H. cbn [bind].
        apply keyword_arguments_ok in H as [_ H].
        apply Forall2_length in H. cbn in H.
        do 23 (destruct args as [|? args]; [try discriminate H|]);
          [eauto | discriminate H]. }
    rewrite Hspec, row_arguments_found.
    - split; intros [Hcolumns Hfields]; split.
      + intros column Hsome. apply Hcolumns, asDict_is_Some. auto.
      + intros field Hin Hkey Hadd.
        destruct (proj1 (asDict_is_Some row field) (Hfields field Hin Hadd))
          as [Hk|Hsome]; [contradiction | exact Hsome].
      + intros column Hsome.
        apply asDict_is_Some in Hsome as [Hkey|Hsome]; [|auto].
        unfold key_columns in Hkey.
        rewrite !elem_of_cons, elem_of_nil in Hkey.
        destruct Hkey as [->|[->|[->|[]]]]; listed.
      + intros field Hin Hadd. apply asDict_is_Some.
        destruct (decide (field ∈ key_columns)); auto.
    - intros column Hin. unfold additional_bronze_df_columns in Hin.
      rewrite !elem_of_cons, elem_of_nil in Hin.
      destruct Hin as [->|[->|[]]]; listed. }
  split; [exact Hiff|]. split; [|split].
  - intros spec H. apply new_BronzeDataflowSpec_ok in H.
    exact (row_arguments_values _ _ _ _ H).
  - intros e H. exact (new_BronzeDataflowSpec_raises _ _ H).
  - intros Hsinks. destruct (bronze_of_row row) as [spec|e] eqn:H.
    + exfalso. destruct (proj1 Hiff (ex_intro _ spec eq_refl)) as [_ Hfields].
      destruct (Hfields "sinks") as [v Hv]; [listed | | | congruence].
      * intros Hin. apply (bool_decide_pack _) in Hin. vm_compute in Hin.
        exact Hin.
      * intros Hin. apply (bool_decide_pack _) in Hin. vm_compute in Hin.
        exact Hin.
    + destruct (new_BronzeDataflowSpec_raises _ _ H) as [msg ->]. eauto.
Qed.

(** X7: a row of the silver table becomes a spec exactly when each of its
    columns is a field of [SilverDataflowSpec] and each field other than
    [dataQualityExpectations], [appendFlows] and [appendFlowsSchemas] is a
    column.  The spec then holds the row's value of each column, and [None]
    for a column the row lacks; otherwise the constructor raises
    [TypeError]. *)
Theorem silver_of_row_outcome (row : Row) :
  ((∃ spec, silver_of_row row = Ok spec)
   ↔ (∀ column, is_Some (columns row !! column) →
        column ∈ Silver.silver_fields)
     ∧ (∀ field, field ∈ Silver.silver_fields → field ∉ key_columns →
          field ∉ additional_silver_df_columns →
          is_Some (columns row !! field)))
  ∧ (∀ spec, silver_of_row row = Ok spec →
       Forall2 (fun field v => v = default VNone (asDict row !! field))
         Silver.silver_fields (silver_values spec))
  ∧ (∀ e, silver_of_row row = Raise e → ∃ msg, e = TypeError msg)
  ∧ (columns row !! "dataQualityExpectations" = None →
     ∀ spec, silver_of_row row = Ok spec →
       Silver.dataQualityExpectations spec = VNone).
Proof.
  split; [|split; [|split]].
  - unfold silver_of_row. cbn zeta.
    assert (Hspec : (∃ spec, Silver.new_SilverDataflowSpec
               (populate_additional_df_cols (asDict row)
                  additional_silver_df_columns) = Ok spec)
             ↔ ∃ args, keyword_arguments Silver.silver_fields
                 (populate_additional_df_cols (asDict row)
                    additional_silver_df_columns) = Ok args).
    { split.
      - intros [spec H]. apply new_SilverDataflowSpec_ok in H. eauto.
      - intros [args H]. unfold Silver.new_SilverDataflowSpec.
        rewrite H. cbn [bind].
        apply keyword_arguments_ok in H as [_ H].
        apply Forall2_length in H. cbn in H.
        do 22 (destruct args as [|? args]; [try discriminate H|]);
          [eauto | discriminate H]. }
    rewrite Hspec, row_arguments_found.
    + split; intros [Hcolumns Hfields]; split.
      * intros column Hsome. apply Hcolumns, asDict_is_Some. auto.
      * intros field Hin Hkey Hadd.
        destruct (proj1 (asDict_is_Some row field) (Hfields field Hin Hadd))
          as [Hk|Hsome]; [contradiction | exact Hsome].
      * intros column Hsome.
        apply asDict_is_Some in Hsome as [Hkey|Hsome]; [|auto].
        unfold key_columns in Hkey.
        rewrite !elem_of_cons, elem_of_nil in Hkey.
        destruct Hkey as [->|[->|[->|[]]]]; listed.
      * intros field Hin Hadd. apply asDict_is_Some.
        destruct (decide (field ∈ key_columns)); auto.
    + intros column Hin. unfold additional_silver_df_columns in Hin.
      rewrite !elem_of_cons, elem_of_nil in Hin.
      destruct Hin as [->|[->|[->|[]]]]; listed.
  - intros spec H. apply new_SilverDataflowSpec_ok in H.
    exact (row_arguments_values _ _ _ _ H).
  - intros e H. exact (new_SilverDataflowSpec_raises _ _ H).
  - intros Hcolumn spec H. apply new_SilverDataflowSpec_ok in H.
    apply row_arguments_values in H.
    pose proof (Forall2_lookup_lr _ _ _ 12 _ _ H eq_refl eq_refl) as Hq.
    cbn beta in Hq. rewrite asDict_lookup in Hq. cbn in Hq.
    rewrite Hcolumn in Hq. exact Hq.
Qed.

(** A loop that builds a list returns the results of its body, and raises
    what its body raises. *)
Lemma for_each_ok_iff {A B : Type} (body : A → result B) (l : list A)
    (out : list B) :
  for_each body l = Ok out ↔ Forall2 (fun x b => body x = Ok b) l out.
Proof.
  split; [apply for_each_ok|].
  induction 1 as [|x b l out Hx _ IH]; [reflexivity|].
  cbn. rewrite Hx. cbn [bind]. rewrite IH. reflexivity.
Qed.

Lemma for_each_raised {A B : Type} (body : A → result B) (l : list A)
    (e : exn) :
  for_each body l = Raise e → ∃ x, x ∈ l ∧ body x = Raise e.
Proof.
  induction l as [|x l IH]; cbn; [discriminate|].
  destruct (body x) as [b|e'] eqn:Hx; cbn [bind].
  - destruct (for_each body l) as [bs|e'']; cbn [bind]; [discriminate|].
    intros H. injection H as ->. destruct IH as (y & Hin & Hy);
      [reflexivity|]. exists y. split; [apply list_elem_of_further|]; auto.
  - intros H. injection H as ->. exists x.
    split; [apply list_elem_of_here | exact Hx].
Qed.

(** The validation passes once the keys of the configured layer are set. *)
Lemma check_passes (conf : gmap string string) (layer_arg layer table : string) :
  conf !! "layer" = Some layer →
  conf !! (layer +:+ ".dataflowspecTable") = Some table →
  is_Some (conf !! (layer +:+ ".group"))
  ∨ is_Some (conf !! (layer +:+ ".dataflowIds")) →
  check_spark_dataflowpipeline_conf_params conf layer_arg = Ok tt.
Proof.
  intros Hlayer Htable Hor.
  unfold check_spark_dataflowpipeline_conf_params.
  rewrite Hlayer, Htable.
  destruct Hor as [[v Hv]|[v Hv]]; rewrite Hv; [reflexivity|].
  destruct (conf !! (layer +:+ ".group")); reflexivity.
Qed.

Section GetterFacts.

Variable read_table : string → option DataFrame.
Variable sql_condition : string → option (Row → bool).

(** The rows a getter converts, for a configuration of its own layer. *)
Lemma rows_of_layer (conf : gmap string string) (layer table : string)
    (df rows : DataFrame) :
  conf !! (layer +:+ ".dataflowspecTable") = Some table →
  read_table table = Some df →
  where_group_or_ids sql_condition (conf !! (layer +:+ ".group"))
    (conf !! (layer +:+ ".dataflowIds")) df = Ok rows →
  _get_dataflow_spec read_table sql_condition conf layer None None None
  = Ok (latest_version rows).
Proof.
  intros Htable Hread Hwhere.
  unfold _get_dataflow_spec, given_or_table, conf_get.
  rewrite Htable. cbn [bind]. rewrite Hread. cbn [bind].
  unfold or_conf. cbn [truthy negb]. rewrite Hwhere. reflexivity.
Qed.

(** X8: [get_bronze_dataflow_spec] validates the keys of the layer the
    configuration names but reads the keys of [bronze]: a configuration that
    passes the validation without [bronze.dataflowspecTable] makes the read
    raise.  For a configuration of the bronze layer whose table can be read,
    the call returns one spec per row of the latest versions, in their
    order, and raises exactly when some such row cannot be converted. *)
Theorem get_bronze_dataflow_spec_outcome (conf : gmap string string) :
  (check_spark_dataflowpipeline_conf_params conf "bronze" = Ok tt →
   conf !! "bronze.dataflowspecTable" = None →
   get_bronze_dataflow_spec read_table sql_condition conf
   = Raise (PlatformError "bronze.dataflowspecTable"))
  ∧ (∀ table df rows,
       conf !! "layer" = Some "bronze" →
       conf !! "bronze.dataflowspecTable" = Some table →
       is_Some (conf !! "bronze.group")
       ∨ is_Some (conf !! "bronze.dataflowIds") →
       read_table table = Some df →
       where_group_or_ids sql_condition (conf !! "bronze.group")
         (conf !! "bronze.dataflowIds") df = Ok rows →
       (∀ specs,
          get_bronze_dataflow_spec read_table sql_condition conf = Ok specs
          ↔ Forall2 (fun row spec => bronze_of_row row = Ok spec)
              (latest_version rows) specs)
       ∧ ((∃ e, get_bronze_dataflow_spec read_table sql_condition conf
                = Raise e)
          ↔ ∃ row, row ∈ latest_version rows
                   ∧ ∃ e, bronze_of_row row = Raise e)).
Proof.
  split.
  - intros Hcheck Htable. unfold get_bronze_dataflow_spec.
    rewrite Hcheck. cbn [bind].
    unfold _get_dataflow_spec, given_or_table, conf_get.
    change ("bronze" +:+ ".dataflowspecTable") with "bronze.dataflowspecTable".
    rewrite Htable. reflexivity.
  - intros table df rows Hlayer Htable Hor Hread Hwhere.
    assert (Hcall : get_bronze_dataflow_spec read_table sql_condition conf
                    = for_each bronze_of_row (latest_version rows)).
    { unfold get_bronze_dataflow_spec.
      rewrite (check_passes conf "bronze" "bronze" table Hlayer Htable Hor).
      cbn [bind].
      rewrite (rows_of_layer conf "bronze" table df rows Htable Hread Hwhere).
      reflexivity. }
    rewrite Hcall. split.
    + intros specs. apply for_each_ok_iff.
    + split.
      * intros [e He]. apply for_each_raised in He as (row & Hin & Hrow).
        eauto.
      * intros (row & Hin & e & Hrow). apply for_each_raises. eauto.
Qed.

(** X9: [get_silver_dataflow_spec] validates the keys of the layer the
    configuration names but reads the keys of [silver]; for a configuration
    of the silver layer whose table can be read, it returns one spec per row
    of the latest versions, in their order, and raises exactly when some
    such row cannot be converted. *)
Theorem get_silver_dataflow_spec_outcome (conf : gmap string string) :
  (check_spark_dataflowpipeline_conf_params conf "silver" = Ok tt →
   conf !! "silver.dataflowspecTable" = None →
   get_silver_dataflow_spec read_table sql_condition conf
   = Raise (PlatformError "silver.dataflowspecTable"))
  ∧ (∀ table df rows,
       conf !! "layer" = Some "silver" →
       conf !! "silver.dataflowspecTable" = Some table →
       is_Some (conf !! "silver.group")
       ∨ is_Some (conf !! "silver.dataflowIds") →
       read_table table = Some df →
       where_group_or_ids sql_condition (conf !! "silver.group")
         (conf !! "silver.dataflowIds") df = Ok rows →
       (∀ specs,
          get_silver_dataflow_spec read_table sql_condition conf = Ok specs
          ↔ Forall2 (fun row spec => silver_of_row row = Ok spec)
              (latest_version rows) specs)
       ∧ ((∃ e, get_silver_dataflow_spec read_table sql_condition conf
                = Raise e)
          ↔ ∃ row, row ∈ latest_version rows
                   ∧ ∃ e, silver_of_row row = Raise e)).
Proof.
  split.
  - intros Hcheck Htable. unfold get_silver_dataflow_spec.
    rewrite Hcheck. cbn [bind].
    unfold _get_dataflow_spec, given_or_table, conf_get.
    change ("silver" +:+ ".dataflowspecTable") with "silver.dataflowspecTable".
    rewrite Htable. reflexivity.
  - intros table df rows Hlayer Htable Hor Hread Hwhere.
    assert (Hcall : get_silver_dataflow_spec read_table sql_condition conf
                    = for_each silver_of_row (latest_version rows)).
    { unfold get_silver_dataflow_spec.
      rewrite (check_passes conf "silver" "silver" table Hlayer Htable Hor).
      cbn [bind].
      rewrite (rows_of_layer conf "silver" table df rows Htable Hread Hwhere).
      reflexivity. }
    rewrite Hcall. split.
    + intros specs. apply for_each_ok_iff.
    + split.
      * intros [e He]. apply for_each_raised in He as (row & Hin & Hrow).
        eauto.
      * intros (row & Hin & e & Hrow). apply for_each_raises. eauto.
Qed.

End GetterFacts.

(** A configuration of the silver layer passes the validation of
    [get_bronze_dataflow_spec], which then finds no bronze table; and the
    other way round. *)
Lemma get_bronze_dataflow_spec_outcome_witness :
  get_bronze_dataflow_spec Vocabulary.no_table Vocabulary.no_sql silver_only
  = Raise (PlatformError "bronze.dataflowspecTable").
Proof.
  exact (proj1 (get_bronze_dataflow_spec_outcome Vocabulary.no_table
                  Vocabulary.no_sql silver_only) eq_refl eq_refl).
Defined.

Lemma get_silver_dataflow_spec_outcome_witness :
  get_silver_dataflow_spec Vocabulary.no_table Vocabulary.no_sql bronze_only
  = Raise (PlatformError "silver.dataflowspecTable").
Proof.
  exact (proj1 (get_silver_dataflow_spec_outcome Vocabulary.no_table
                  Vocabulary.no_sql bronze_only) eq_refl eq_refl).
Defined.

End TypedSpecsFacts.

(** ** Dataflow-spec utilities, continued *)

Module DataflowSpecOutcomes.
Import DataflowSpecUtils Vocabulary MoreVocabulary DataflowSpecFacts.

(** Membership in a list of strings that is given, by computation. *)
Ltac in_list := apply (bool_decide_unpack _); vm_compute; exact I.

(** *** Partition columns *)

(** X2: whenever [get_partition_cols] returns a list, it is the list given
    without its empty strings, so an entry of spaces stays in a list of two
    or more although a single such entry gives [None]; and a list of two or
    more entries that are all empty gives the empty list, not [None]. *)
Theorem get_partition_cols_longer_lists :
  (∀ l cols, get_partition_cols l = Some cols → cols = filter_None l)
  ∧ (∀ l cols, get_partition_cols l = Some cols →
       ∀ c, c ∈ cols ↔ c ∈ l ∧ c ≠ "")
  ∧ (∀ l, 1 < length l → (∀ c, c ∈ l → c = "") →
       get_partition_cols l = Some [])
  ∧ (∀ l c, 1 < length l → c ∈ l → c ≠ "" →
       ∃ cols, get_partition_cols l = Some cols ∧ c ∈ cols).
Proof.
  assert (Hfilter : ∀ l c, c ∈ filter_None l ↔ c ∈ l ∧ c ≠ "").
  { intros l c. unfold filter_None.
    rewrite !list_elem_of_In, List.filter_In, negb_true_iff, String.eqb_neq.
    reflexivity. }
  assert (Hsome : ∀ l cols, get_partition_cols l = Some cols →
                            cols = filter_None l).
  { intros [|c1 [|c2 rest]] cols H.
    - discriminate H.
    - rewrite get_partition_cols_single in H.
      destruct (String.eqb_spec (strip c1) "") as [|Hne]; [discriminate H|].
      injection H as <-. unfold filter_None. cbn.
      destruct (String.eqb_spec c1 "") as [->|]; [|reflexivity].
      destruct (Hne eq_refl).
    - rewrite get_partition_cols_longer in H. congruence. }
  split; [exact Hsome|]. split; [|split].
  - intros l cols H c. rewrite (Hsome l cols H). apply Hfilter.
  - intros [|c1 [|c2 rest]] Hlen Hall; cbn in Hlen; [lia | lia |].
    rewrite get_partition_cols_longer. f_equal.
    destruct (filter_None (c1 :: c2 :: rest)) as [|c cols] eqn:Hf;
      [reflexivity|].
    assert (Hc : c ∈ filter_None (c1 :: c2 :: rest))
      by (rewrite Hf; apply list_elem_of_here).
    apply Hfilter in Hc as [Hin Hne]. destruct (Hne (Hall c Hin)).
  - intros [|c1 [|c2 rest]] c Hlen Hin Hne; cbn in Hlen; [lia | lia |].
    rewrite get_partition_cols_longer. eexists. split; [reflexivity|].
    apply Hfilter. auto.
Qed.


(** *** The latest versions are stable *)

(** A partition of one row. *)
Lemma partition_of_single (df : DataFrame) (r : Row) :
  NoDup (partition_key <$> df) → r ∈ df →
  partition_of df (partition_key r) = [r].
Proof.
  unfold partition_of. induction df as [|x df IH]; intros Hnd Hr.
  - apply elem_of_nil in Hr. contradiction.
  - rewrite fmap_cons in Hnd. apply NoDup_cons in Hnd as [Hx Hnd].
    cbn [List.filter]. apply elem_of_cons in Hr as [->|Hr].
    + rewrite bool_decide_eq_true_2 by reflexivity. f_equal.
      clear IH. induction df as [|y df IH]; [reflexivity|].
      cbn [List.filter]. rewrite fmap_cons in Hx, Hnd.
      apply not_elem_of_cons in Hx as [Hxy Hx].
      apply NoDup_cons in Hnd as [_ Hnd].
      rewrite bool_decide_eq_false_2 by congruence. auto.
    + rewrite bool_decide_eq_false_2.
      * apply IH; assumption.
      * intros Heq. apply Hx. rewrite Heq.
        apply list_elem_of_fmap_2. exact Hr.
Qed.

Lemma remove_dups_fixed {A : Type} `{EqDecision A} (l : list A) :
  NoDup l → remove_dups l = l.
Proof.
  induction 1 as [|x l Hx _ IH]; [reflexivity|].
  cbn. destruct (decide_rel elem_of x l); [contradiction|].
  rewrite IH. reflexivity.
Qed.

Lemma bind_singletons {A : Type} (h : A → list A) (l : list A) :
  (∀ x, x ∈ l → h x = [x]) → l ≫= h = l.
Proof.
  induction l as [|x l IH]; intros H; [reflexivity|].
  cbn. rewrite (H x) by apply list_elem_of_here.
  rewrite IH; [reflexivity|].
  intros y Hy. apply H, list_elem_of_further, Hy.
Qed.

(** A table with one row per flow is its own latest version. *)
Lemma latest_version_fixed (df : DataFrame) :
  NoDup (partition_key <$> df) → latest_version df = df.
Proof.
  intros Hnd. rewrite latest_version_keys.
  rewrite (remove_dups_fixed _ Hnd), list_fmap_bind.
  apply bind_singletons. intros r Hr. cbn.
  rewrite (partition_of_single df r Hnd Hr). reflexivity.
Qed.

Lemma filter_fixed {A : Type} (f : A → bool) (l : list A) :
  (∀ x, x ∈ l → f x = true) → List.filter f l = l.
Proof.
  induction l as [|x l IH]; intros H; [reflexivity|].
  cbn. rewrite (H x) by apply list_elem_of_here.
  rewrite IH; [reflexivity|].
  intros y Hy. apply H, list_elem_of_further, Hy.
Qed.

Lemma latest_version_subset (df : DataFrame) (r : Row) :
  r ∈ latest_version df → r ∈ df.
Proof. intros H. apply latest_version_max in H as [H _]. exact H. Qed.


(** *** Payloads *)

Lemma new_CDCApplyChanges_total (kwargs : gmap string value) :
  dom kwargs ⊆ list_to_set cdc_applychanges_api_attributes →
  (∀ a, a ∈ cdc_applychanges_api_attributes → is_Some (kwargs !! a)) →
  ∃ changes, new_CDCApplyChanges kwargs = Ok changes.
Proof.
  intros Hdom Hall. unfold new_CDCApplyChanges, known_kwargs.
  rewrite bool_decide_eq_true_2 by exact Hdom. cbn [bind].
  repeat match goal with
         | |- context [kwarg kwargs ?f] =>
             let v := fresh "v" in
             let Hv := fresh "Hv" in
             destruct (Hall f) as [v Hv]; [in_list|];
             rewrite (kwarg_given kwargs f v Hv); cbn [bind]
         end.
  eauto.
Qed.


Section OutcomeFacts.

Variable read_table : string → option DataFrame.
Variable sql_condition : string → option (Row → bool).
Variable json_loads : string → option value.
Variable get_db_utils : option (value → value → option value).

(** X10: a call of [_get_dataflow_spec] that returns gives rows of the table
    it read, and the same call on the data frame it returned gives that data
    frame again: the filter and the choice of the latest versions change
    nothing the second time. *)
Theorem get_dataflow_spec_idempotent (conf : gmap string string)
    (layer : string) (dataflow_spec_df : option DataFrame)
    (group dataflow_ids : option string) (out : DataFrame) :
  _get_dataflow_spec read_table sql_condition conf layer dataflow_spec_df
    group dataflow_ids = Ok out →
  _get_dataflow_spec read_table sql_condition conf layer (Some out)
    group dataflow_ids = Ok out
  ∧ ∃ df, given_or_table read_table conf layer dataflow_spec_df = Ok df
          ∧ ∀ r, r ∈ out → r ∈ df.
Proof.
  unfold _get_dataflow_spec. cbn zeta.
  destruct (given_or_table read_table conf layer dataflow_spec_df)
    as [df|] eqn:Hload; cbn [bind]; [|discriminate].
  set (g := or_conf group conf (layer +:+ ".group")).
  set (ids := or_conf dataflow_ids conf (layer +:+ ".dataflowIds")).
  destruct (where_group_or_ids sql_condition g ids df) as [rows|] eqn:Hwhere;
    cbn [bind]; [|discriminate].
  intros H. injection H as <-.
  assert (Hrows : ∀ r, r ∈ rows → r ∈ df).
  { revert Hwhere. unfold where_group_or_ids.
    destruct (truthy g || truthy ids); [|by intros [= ->]].
    destruct (truthy g).
    - intros [= <-] r Hr. apply list_elem_of_In, List.filter_In in Hr as [Hr _].
      apply list_elem_of_In, Hr.
    - destruct (sql_condition _); [|discriminate].
      intros [= <-] r Hr. apply list_elem_of_In, List.filter_In in Hr as [Hr _].
      apply list_elem_of_In, Hr. }
  split.
  - assert (Hagain : where_group_or_ids sql_condition g ids
                       (latest_version rows) = Ok (latest_version rows)).
    { revert Hwhere. unfold where_group_or_ids.
      destruct (truthy g || truthy ids); [|reflexivity].
      destruct (truthy g).
      - intros [= <-]. f_equal. apply filter_fixed. intros r Hr.
        apply latest_version_subset, list_elem_of_In, List.filter_In in Hr
          as [_ Hr]. exact Hr.
      - destruct (sql_condition _) as [condition|]; [|discriminate].
        intros [= <-]. f_equal. apply filter_fixed. intros r Hr.
        apply latest_version_subset, list_elem_of_In, List.filter_In in Hr
          as [_ Hr]. exact Hr. }
    cbn [given_or_table bind]. rewrite Hagain. cbn [bind]. f_equal. apply latest_version_fixed.
    rewrite latest_version_one_per_key. apply NoDup_remove_dups.
  - exists df. split; [reflexivity|]. intros r Hr.
    apply Hrows, latest_version_subset, Hr.
Qed.


(** X11: [get_cdc_apply_changes] raises [JSONDecodeError] for a text that
    does not parse and [AttributeError] for one that parses to something
    other than a dict; a payload with the mandatory attributes and a key that
    is not an attribute is refused by the constructor with [TypeError]; and
    the call returns exactly when the mandatory attributes are present and
    every key is an attribute. *)
Theorem get_cdc_apply_changes_other_errors (cdc_apply_changes : string) :
  (json_loads cdc_apply_changes = None →
   get_cdc_apply_changes json_loads cdc_apply_changes = Raise JSONDecodeError)
  ∧ (∀ parsed, json_loads cdc_apply_changes = Some parsed →
       (∀ payload, parsed ≠ VDict payload) →
       get_cdc_apply_changes json_loads cdc_apply_changes
       = Raise (AttributeError "keys"))
  ∧ (∀ payload key,
       json_loads cdc_apply_changes = Some (VDict payload) →
       (∀ m, m ∈ cdc_applychanges_api_mandatory_attributes →
             is_Some (payload !! m)) →
       is_Some (payload !! key) →
       key ∉ cdc_applychanges_api_attributes →
       ∃ msg, get_cdc_apply_changes json_loads cdc_apply_changes
              = Raise (TypeError msg))
  ∧ (∀ payload,
       json_loads cdc_apply_changes = Some (VDict payload) →
       (∃ changes, get_cdc_apply_changes json_loads cdc_apply_changes
                   = Ok changes)
       ↔ (∀ m, m ∈ cdc_applychanges_api_mandatory_attributes →
               is_Some (payload !! m))
         ∧ ∀ key, is_Some (payload !! key) →
                  key ∈ cdc_applychanges_api_attributes).
Proof.
  assert (Hunknown : ∀ payload key,
    json_loads cdc_apply_changes = Some (VDict payload) →
    (∀ m, m ∈ cdc_applychanges_api_mandatory_attributes →
          is_Some (payload !! m)) →
    is_Some (payload !! key) →
    key ∉ cdc_applychanges_api_attributes →
    ∃ msg, get_cdc_apply_changes json_loads cdc_apply_changes
           = Raise (TypeError msg)).
  { intros payload key Hparse Hmandatory [v Hv] Hkey.
    rewrite (get_cdc_apply_changes_parsed _ _ _ Hparse). cbv zeta.
    rewrite bool_decide_eq_false_2.
    2:{ intros Hne. apply missing_keys_nonempty in Hne as (m & Hm & Hnone).
        destruct (Hmandatory m Hm) as [? ?]. congruence. }
    destruct (get_cdc_apply_changes_filled payload Hmandatory)
      as (filled & -> & Hlookup).
    cbn [bind]. unfold new_CDCApplyChanges, known_kwargs.
    rewrite bool_decide_eq_false_2; [cbn [bind]; eauto|].
    intros Hdom. apply Hkey.
    apply (elem_of_list_to_set (C := gset string)), Hdom, elem_of_dom.
    rewrite Hlookup, Hv. eauto. }
  split; [|split; [|split]].
  - intros Hparse. unfold get_cdc_apply_changes, loads.
    rewrite Hparse. reflexivity.
  - intros parsed Hparse Hnot. unfold get_cdc_apply_changes, loads.
    rewrite Hparse. cbn [bind].
    destruct parsed; try reflexivity. destruct (Hnot _ eq_refl).
  - exact Hunknown.
  - intros payload Hparse. split.
    + intros [changes Hok].
      assert (Hmandatory : ∀ m,
        m ∈ cdc_applychanges_api_mandatory_attributes →
        is_Some (payload !! m)).
      { intros m Hm. destruct (payload !! m) eqn:Hnone; [eauto|]. exfalso.
        rewrite (get_cdc_apply_changes_parsed _ _ _ Hparse) in Hok.
        cbv zeta in Hok. rewrite bool_decide_eq_true_2 in Hok;
          [discriminate Hok|].
        apply missing_keys_nonempty. eauto. }
      split; [exact Hmandatory|]. intros key Hsome.
      destruct (decide (key ∈ cdc_applychanges_api_attributes)) as [|Hnin];
        [assumption|]. exfalso.
      destruct (Hunknown payload key Hparse Hmandatory Hsome Hnin) as [msg H].
      congruence.
    + intros [Hmandatory Hknown].
      rewrite (get_cdc_apply_changes_parsed _ _ _ Hparse). cbv zeta.
      rewrite bool_decide_eq_false_2.
      2:{ intros Hne. apply missing_keys_nonempty in Hne as (m & Hm & Hnone).
          destruct (Hmandatory m Hm) as [? ?]. congruence. }
      destruct (get_cdc_apply_changes_filled payload Hmandatory)
        as (filled & -> & Hlookup).
      cbn [bind]. apply new_CDCApplyChanges_total.
      * intros key Hkey. apply elem_of_dom in Hkey as [v Hv].
        apply elem_of_list_to_set. rewrite Hlookup in Hv.
        destruct (payload !! key) eqn:Hp; [apply Hknown; rewrite Hp; eauto|].
        case_bool_decide; [assumption | discriminate Hv].
      * intros a Ha. rewrite Hlookup.
        destruct (payload !! a) eqn:Hp; [eauto|].
        rewrite bool_decide_eq_true_2 by exact Ha.
        apply optional_attributes_have_defaults; [exact Ha|].
        intros Hm. destruct (Hmandatory a Hm) as [? ?]. congruence.
Qed.

(** What [get_sink] does for an entry with the three attributes and a
    supported format. *)
Lemma get_sink_supported (payload : gmap string value) (n f o : value) :
  sink_entry payload n f o →
  value_in f supported_sink_formats = true →
  get_sink json_loads get_db_utils (VDict payload) =
  (parsed <- loads json_loads o ;;
   json_sink <-
     (if value_is f "kafka" then
        secrets_get <-
          match get_db_utils with
          | Some secrets_get => Ok secrets_get
          | None => Raise (PlatformError "get_db_utils")
          end ;;
        kafka_options_json <- as_dict parsed ;;
        resolved <- resolve_kafka_secrets secrets_get kafka_options_json ;;
        Ok (<["options" := VDict resolved]> (<["options" := parsed]> payload))
      else Ok (<["options" := parsed]> payload)) ;;
   new_DLTSink json_sink)%result.
Proof.
  intros (Hdom & Hn & Hf & Ho) Hsupported.
  unfold get_sink. cbn [as_dict bind]. cbv zeta.
  rewrite bool_decide_eq_false_2.
  2:{ intros Hne. apply missing_keys_nonempty in Hne as (m & Hm & Hnone).
      unfold sink_mandatory_attributes in Hm.
      rewrite !elem_of_cons, elem_of_nil in Hm.
      destruct Hm as [->|[->|[->|[]]]]; congruence. }
  unfold getitem at 1. rewrite Hf. cbn [bind]. rewrite Hsupported.
  cbn [negb].
  rewrite bool_decide_eq_true_2 by (apply elem_of_dom; eauto).
  unfold getitem at 1. rewrite Ho. cbn [bind].
  destruct (loads json_loads o) as [parsed|e]; cbn [bind]; [|reflexivity].
  rewrite bool_decide_eq_true_2
    by (apply elem_of_dom; rewrite lookup_insert_eq; eauto).
  rewrite andb_true_r. destruct (value_is f "kafka"); [|reflexivity].
  unfold getitem. rewrite lookup_insert_eq. reflexivity.
Qed.

Lemma new_DLTSink_built (payload : gmap string value) (n f o o' : value) :
  sink_entry payload n f o →
  new_DLTSink (<["options" := o']> payload)
  = Ok {| name := n; format := f; options := o' |}.
Proof.
  intros (Hdom & Hn & Hf & Ho). unfold new_DLTSink, known_kwargs.
  rewrite bool_decide_eq_true_2.
  2:{ rewrite dom_insert_L. intros key Hkey.
      apply elem_of_union in Hkey as [Hkey|Hkey]; [|auto].
      apply elem_of_singleton in Hkey as ->.
      apply elem_of_list_to_set. in_list. }
  cbn [bind]. unfold kwarg.
  rewrite lookup_insert_ne by discriminate. rewrite Hn. cbn [bind].
  rewrite lookup_insert_ne by discriminate. rewrite Hf. cbn [bind].
  rewrite lookup_insert_eq. reflexivity.
Qed.


(** X12: for an entry with the three attributes and no other.  A delta sink
    is returned with its options parsed, whatever they parse to and whether
    or not the utilities of the platform are available.  Options that are not
    a string raise [TypeError], and a text that does not parse raises
    [JSONDecodeError].  A kafka sink asks for the utilities before it looks
    at its options: without them the call raises even when no secret is
    referred to; options that are not a dict raise [AttributeError]; options
    that lack one of the two secret references are returned as parsed, the
    store not being consulted; and a store that raises makes the call
    raise. *)
Theorem get_sink_outcomes (payload : gmap string value) (n f o : value) :
  sink_entry payload n f o →
  (∀ text parsed,
     f = VStr "delta" → o = VStr text → json_loads text = Some parsed →
     get_sink json_loads get_db_utils (VDict payload)
     = Ok {| name := n; format := f; options := parsed |})
  ∧ (value_in f supported_sink_formats = true →
     (∀ text, o ≠ VStr text) →
     ∃ msg, get_sink json_loads get_db_utils (VDict payload)
            = Raise (TypeError msg))
  ∧ (∀ text,
       value_in f supported_sink_formats = true →
       o = VStr text → json_loads text = None →
       get_sink json_loads get_db_utils (VDict payload)
       = Raise JSONDecodeError)
  ∧ (∀ text parsed,
       f = VStr "kafka" → o = VStr text → json_loads text = Some parsed →
       get_db_utils = None →
       get_sink json_loads get_db_utils (VDict payload)
       = Raise (PlatformError "get_db_utils"))
  ∧ (∀ text parsed secrets_get,
       f = VStr "kafka" → o = VStr text → json_loads text = Some parsed →
       get_db_utils = Some secrets_get →
       (∀ kafka_options, parsed ≠ VDict kafka_options) →
       get_sink json_loads get_db_utils (VDict payload)
       = Raise (AttributeError "keys"))
  ∧ (∀ text kafka_options secrets_get,
       f = VStr "kafka" → o = VStr text →
       json_loads text = Some (VDict kafka_options) →
       get_db_utils = Some secrets_get →
       kafka_options !! "kafka_bootstrap_servers_secrets_scope" = None
       ∨ kafka_options !! "kafka_bootstrap_servers_secrets_key" = None →
       get_sink json_loads get_db_utils (VDict payload)
       = Ok {| name := n; format := f; options := VDict kafka_options |})
  ∧ (∀ text kafka_options secrets_get scope key,
       f = VStr "kafka" → o = VStr text →
       json_loads text = Some (VDict kafka_options) →
       get_db_utils = Some secrets_get →
       kafka_options !! "kafka_bootstrap_servers_secrets_scope" = Some scope →
       kafka_options !! "kafka_bootstrap_servers_secrets_key" = Some key →
       secrets_get scope key = None →
       get_sink json_loads get_db_utils (VDict payload)
       = Raise (PlatformError "secrets.get")).
Proof.
  intros Hentry.
  split; [|split; [|split; [|split; [|split; [|split]]]]].
  - intros text parsed -> -> Hparse.
    rewrite (get_sink_supported payload n _ _ Hentry) by reflexivity.
    unfold loads. rewrite Hparse. cbn [bind value_is String.eqb].
    cbn. apply (new_DLTSink_built payload n _ _ parsed Hentry).
  - intros Hsupported Hnot.
    rewrite (get_sink_supported payload n _ _ Hentry Hsupported).
    unfold loads. destruct o; try (cbn [bind]; eauto).
    destruct (Hnot _ eq_refl).
  - intros text Hsupported -> Hparse.
    rewrite (get_sink_supported payload n _ _ Hentry Hsupported).
    unfold loads. rewrite Hparse. reflexivity.
  - intros text parsed -> -> Hparse Hutils.
    rewrite (get_sink_supported payload n _ _ Hentry) by reflexivity.
    unfold loads. rewrite Hparse, Hutils. reflexivity.
  - intros text parsed secrets_get -> -> Hparse Hutils Hnot.
    rewrite (get_sink_supported payload n _ _ Hentry) by reflexivity.
    unfold loads. rewrite Hparse, Hutils. cbn.
    destruct parsed; try reflexivity. destruct (Hnot _ eq_refl).
  - intros text kafka_options secrets_get -> -> Hparse Hutils Hone.
    rewrite (get_sink_supported payload n _ _ Hentry) by reflexivity.
    unfold loads. rewrite Hparse, Hutils. cbn.
    unfold resolve_kafka_secrets.
    replace (bool_decide
               ("kafka_bootstrap_servers_secrets_scope" ∈ dom kafka_options)
             && bool_decide
                  ("kafka_bootstrap_servers_secrets_key" ∈ dom kafka_options))
      with false.
    2:{ symmetry. apply andb_false_iff.
        destruct Hone as [H|H]; [left|right];
          apply bool_decide_eq_false_2, not_elem_of_dom, H. }
    cbn [bind]. rewrite insert_insert_eq.
    apply (new_DLTSink_built payload n _ _ _ Hentry).
  - intros text kafka_options secrets_get scope key -> -> Hparse Hutils
      Hscope Hkey Hsecret.
    rewrite (get_sink_supported payload n _ _ Hentry) by reflexivity.
    unfold loads. rewrite Hparse, Hutils. cbn.
    unfold resolve_kafka_secrets.
    rewrite !bool_decide_eq_true_2 by (apply elem_of_dom; eauto).
    cbn [andb]. unfold getitem. rewrite Hscope, Hkey. cbn [bind].
    rewrite Hsecret. reflexivity.
Qed.


End OutcomeFacts.

(** The latest version of the three versions of one flow, queried again. *)
Lemma get_dataflow_spec_idempotent_witness :
  _get_dataflow_spec no_table no_sql ∅ "bronze"
    (Some [flow_row "G" "F" "3"]) (Some "G") None
  = Ok [flow_row "G" "F" "3"]
  ∧ ∃ df, given_or_table no_table ∅ "bronze" (Some three_versions) = Ok df
          ∧ ∀ r, r ∈ [flow_row "G" "F" "3"] → r ∈ df.
Proof.
  apply (get_dataflow_spec_idempotent no_table no_sql ∅ "bronze"
           (Some three_versions) (Some "G") None [flow_row "G" "F" "3"]).
  vm_compute. reflexivity.
Defined.

(** The kafka sink of the scenarios on a platform without utilities. *)
Lemma get_sink_outcomes_witness :
  get_sink kafka_json_loads None (VDict kafka_sink)
  = Raise (PlatformError "get_db_utils").
Proof.
  assert (Hentry : sink_entry kafka_sink (VStr "s") (VStr "kafka")
                     (VStr "options")).
  { split; [apply (bool_decide_unpack _); vm_compute; exact I|].
    repeat split; reflexivity. }
  exact (proj1 (proj2 (proj2 (proj2
           (get_sink_outcomes kafka_json_loads None kafka_sink
              (VStr "s") (VStr "kafka") (VStr "options") Hentry))))
           "options" (VDict kafka_options) eq_refl eq_refl eq_refl eq_refl).
Defined.

End DataflowSpecOutcomes.

(** ** The life cycle of a run *)

Module RunnerLifecycleFacts.
Import RunnerLifecycle LifecycleVocabulary.

(** *** Traces *)

Lemma sends_pure {A : Type} (P : request → Prop) (a : A) : sends P (pure a).
Proof. intros tr. exists []. rewrite app_nil_r. split; [reflexivity|constructor]. Qed.

Lemma sends_fail {A : Type} (P : request → Prop) (e : exn) :
  sends P (fail (A := A) e).
Proof. intros tr. exists []. rewrite app_nil_r. split; [reflexivity|constructor]. Qed.

(** [Q] holds of what the first computation returns. *)
Lemma sends_andthen {A B : Type} (P : request → Prop) (Q : A → Prop)
    (c : life_m A) (k : A → life_m B) :
  sends P c →
  (∀ tr a, snd (c tr) = Ok a → Q a) →
  (∀ a, Q a → sends P (k a)) →
  sends P (andthen c k).
Proof.
  intros Hc HQ Hk tr. unfold andthen.
  destruct (Hc tr) as (ext & Htr & Hext). specialize (HQ tr).
  destruct (c tr) as [tr' [a|e]]; cbn in Htr, HQ; subst tr'.
  - destruct (Hk a (HQ a eq_refl) (tr ++ ext)%list) as (ext' & Htr' & Hext').
    exists (ext ++ ext')%list. rewrite Htr', app_assoc.
    split; [reflexivity | apply Forall_app; auto].
  - exists ext. auto.
Qed.

Lemma sends_seq {A B : Type} (P : request → Prop) (c : life_m A)
    (k : A → life_m B) :
  sends P c → (∀ a, sends P (k a)) → sends P (andthen c k).
Proof.
  intros Hc Hk. apply (sends_andthen P (fun _ => True)); auto.
Qed.

Lemma sends_when (P : request → Prop) (cond : bool) (body : life_m unit) :
  (cond = true → sends P body) → sends P (when cond body).
Proof. destruct cond; intros H; [auto | apply sends_pure]. Qed.

Lemma sends_for_ {A : Type} (P : request → Prop) (l : list A)
    (body : A → life_m unit) :
  (∀ x, x ∈ l → sends P (body x)) → sends P (for_ l body).
Proof.
  induction l as [|x l IH]; intros H; cbn; [apply sends_pure|].
  apply sends_seq; [apply H, list_elem_of_here|].
  intros _. apply IH. intros y Hy. apply H, list_elem_of_further, Hy.
Qed.

Section WorkspaceFacts.

Variable workspace : list request → request → option exn.
Variable created : list request → request → option (option string).
Variable listed : list request → request → list Info.

Lemma sends_ask {A : Type} (P : request → Prop)
    (answer : list request → request → A) (r : request) :
  P r → sends P (ask workspace answer r).
Proof.
  intros Hr tr. exists [r]. unfold ask.
  destruct (workspace tr r); cbn; (split; [reflexivity|]);
    constructor; auto.
Qed.

Lemma ask_returns {A : Type} (answer : list request → request → A)
    (r : request) (tr : list request) (a : A) :
  snd (ask workspace answer r tr) = Ok a → a = answer tr r.
Proof. unfold ask. destruct (workspace tr r); cbn; congruence. Qed.

Lemma ask_raises {A : Type} (answer : list request → request → A)
    (r : request) (tr : list request) (e : exn) :
  snd (ask workspace answer r tr) = Raise e → workspace tr r = Some e.
Proof. unfold ask. destruct (workspace tr r); cbn; congruence. Qed.

Lemma truthy_fmt (x : option string) : truthy x = true → x = Some (fmt x).
Proof. destruct x; [reflexivity | discriminate]. Qed.

(** *** [clean_up] *)

Lemma clean_schema_own (runner_conf : RunnerConf) (schema : Info)
    (tr : list request) :
  schema ∈ listed tr (SchemasList (fmt (uc_catalog_name runner_conf))) →
  truthy (uc_catalog_name runner_conf) = true →
  sends (own_resource listed runner_conf)
    (clean_schema workspace listed (fmt (uc_catalog_name runner_conf))
       (test_schemas runner_conf) schema).
Proof.
  intros Hschema Hcatalog. unfold clean_schema.
  apply sends_when. intros Hname. apply bool_decide_eq_true_1 in Hname.
  apply truthy_fmt in Hcatalog.
  apply (sends_andthen _
           (fun l => ∃ tr', l = listed tr'
                       (VolumesList (fmt (uc_catalog_name runner_conf))
                          (name schema)))).
  { apply sends_ask. cbn. auto. }
  { intros tr' l Hl. apply ask_returns in Hl. eauto. }
  intros vol_list [tr1 ->]. apply sends_seq.
  { apply sends_for_. intros vol Hvol. apply sends_ask. cbn.
    exists tr1, (name schema), vol. auto. }
  intros _.
  apply (sends_andthen _
           (fun l => ∃ tr', l = listed tr'
                       (TablesList (fmt (uc_catalog_name runner_conf))
                          (name schema)))).
  { apply sends_ask. cbn. auto. }
  { intros tr' l Hl. apply ask_returns in Hl. eauto. }
  intros tables_list [tr2 ->]. apply sends_seq.
  { apply sends_for_. intros table Htable. apply sends_ask. cbn.
    exists tr2, (name schema), table. auto. }
  intros _. apply sends_ask. cbn. exists tr, schema. auto.
Qed.

(** X17: whatever the workspace answers, [clean_up] asks only for what the
    run configuration names: the deletion of its job, of its bronze and
    silver pipelines, of its cluster and of its temporary path, the listing
    of its catalog, and, for the schemas of that listing whose name is one of
    the three schemas of the run, the listing and deletion of their volumes
    and tables and the deletion of the schema.  It creates nothing, and it
    never asks for the deletion of the pipeline [bronze_pipeline_A2_id]
    names. *)
Theorem clean_up_deletes_only_own_resources (runner_conf : RunnerConf) :
  sends (own_resource listed runner_conf)
    (clean_up workspace listed runner_conf).
Proof.
  unfold clean_up.
  apply sends_seq.
  { apply sends_when. intros H. apply sends_ask. cbn.
    apply truthy_fmt, H. }
  intros _. apply sends_seq.
  { apply sends_when. intros H. apply sends_ask. cbn.
    left. apply truthy_fmt, H. }
  intros _. apply sends_seq.
  { apply sends_when. intros H. apply sends_ask. cbn.
    right. apply truthy_fmt, H. }
  intros _. apply sends_seq.
  { apply sends_when. intros H. apply sends_ask. cbn.
    apply truthy_fmt, H. }
  intros _.
  apply (sends_andthen _ (fun v => dbfs_tmp_path runner_conf = Some v)).
  { unfold get_dbfs_tmp_path. destruct (dbfs_tmp_path runner_conf);
      [apply sends_pure | apply sends_fail]. }
  { intros tr v. unfold get_dbfs_tmp_path.
    destruct (dbfs_tmp_path runner_conf); cbn; congruence. }
  intros dbfs Hdbfs. apply sends_seq.
  { apply sends_when. intros H. apply sends_ask. cbn.
    rewrite Hdbfs. f_equal. apply truthy_fmt, H. }
  intros _. apply sends_when. intros Hcatalog. cbn zeta.
  apply (sends_andthen _
           (fun l => ∃ tr, l = listed tr
                       (SchemasList (fmt (uc_catalog_name runner_conf))))).
  { apply sends_ask. cbn. apply truthy_fmt, Hcatalog. }
  { intros tr l Hl. apply ask_returns in Hl. eauto. }
  intros schema_list [tr ->]. apply sends_for_. intros schema Hschema.
  exact (clean_schema_own runner_conf schema tr Hschema Hcatalog).
Qed.

End WorkspaceFacts.

(** *** Strings *)

Lemma length_app (s t : string) :
  String.length (s +:+ t) = (String.length s + String.length t)%nat.
Proof.
  induction s as [|c s IH]; [reflexivity|].
  change (S (String.length (s +:+ t))
          = S (String.length s + String.length t)).
  rewrite IH. reflexivity.
Qed.

(** Two texts with the same ending of the same length have the same
    beginning. *)
Lemma app_same_length (s1 s2 t1 t2 : string) :
  s1 +:+ t1 = s2 +:+ t2 → String.length t1 = String.length t2 →
  s1 = s2 ∧ t1 = t2.
Proof.
  revert s2. induction s1 as [|c s1 IH]; intros [|c' s2] H Hlen.
  - auto.
  - apply (f_equal String.length) in H. rewrite !length_app in H.
    cbn in H. lia.
  - apply (f_equal String.length) in H. rewrite !length_app in H.
    cbn in H. lia.
  - change (String c (s1 +:+ t1) = String c' (s2 +:+ t2)) in H.
    injection H as -> H. destruct (IH s2 H Hlen) as [-> ->]. auto.
Qed.


(** *** [init_runner_conf] *)

Lemma init_runner_conf_found (args : gmap string (option string))
    (my_username run_id : string) (catalog : option string)
    (src cloud path node : string) :
  args !! "uc_catalog_name" = Some catalog →
  args !! "source" = Some (Some src) →
  args !! "cloud_provider_name" = Some (Some cloud) →
  cloud_node_type_id_dict !! cloud = Some node →
  source_paths !! src = Some path →
  ∃ rc, init_runner_conf args my_username run_id = Ok rc.
Proof.
  intros Hc Hs Hp Hnode Hpath. unfold init_runner_conf, getitem_key, getitem.
  rewrite Hc, Hs, Hp. cbn [bind]. rewrite Hnode. cbn [bind].
  rewrite Hpath. eauto.
Qed.

(** What a call that returns has read, and the configuration it built. *)
Lemma init_runner_conf_ok (args : gmap string (option string))
    (my_username run_id : string) (runner_conf : RunnerConf) :
  init_runner_conf args my_username run_id = Ok runner_conf →
  ∃ catalog src cloud node path,
    args !! "uc_catalog_name" = Some catalog
    ∧ args !! "source" = Some (Some src)
    ∧ args !! "cloud_provider_name" = Some (Some cloud)
    ∧ cloud_node_type_id_dict !! cloud = Some node
    ∧ source_paths !! src = Some path
    ∧ runner_conf =
      {| run_id := run_id;
         username := Some my_username;
         uc_catalog_name := catalog;
         dlt_meta_schema := Some ("dlt_meta_dataflowspecs_it_" +:+ run_id);
         bronze_schema := Some ("dlt_meta_bronze_it_" +:+ run_id);
         silver_schema := Some ("dlt_meta_silver_it_" +:+ run_id);
         runners_nb_path :=
           Some ("/Users/" +:+ my_username +:+ "/dlt_meta_int_tests/"
                 +:+ run_id);
         runners_full_local_path := Some path;
         source := Some src;
         node_type_id := Some node;
         test_output_file_path :=
           Some ("/Users/" +:+ my_username +:+ "/dlt_meta_int_tests/"
                 +:+ run_id +:+ "/integration-test-output.csv");
         remote_whl_path := None;
         bronze_pipeline_id := None;
         bronze_pipeline_A2_id := None;
         silver_pipeline_id := None;
         cluster_id := None;
         job_id := None;
         dbfs_tmp_path := None |}.
Proof.
  intros H. unfold init_runner_conf, getitem_key, getitem in H.
  destruct (args !! "uc_catalog_name") as [catalog|]; [|discriminate H].
  destruct (args !! "source") as [src|]; [|discriminate H].
  destruct (args !! "cloud_provider_name") as [cloud|]; [|discriminate H].
  cbn [bind] in H. destruct cloud as [cloud|]; [|discriminate H].
  destruct (cloud_node_type_id_dict !! cloud) as [node|] eqn:Hnode;
    [|discriminate H].
  cbn [bind] in H. destruct src as [src|]; [|discriminate H].
  destruct (source_paths !! src) as [path|] eqn:Hpath; [|discriminate H].
  injection H as <-. exists catalog, src, cloud, node, path.
  repeat split; assumption.
Qed.

(** X13: [init_runner_conf] returns exactly when the three arguments it
    reads are present, the cloud provider is one of aws, azure, gcp and the
    source is one of cloudfiles, eventhub, kafka.  The cloud provider is
    looked up first: an unknown one is a [KeyError], whatever the source; a
    known one with an unsupported source is the [Exception] that lists the
    sources.  The configuration returned names the three schemas after the
    run id, has the notebook directory of its source, and has no job,
    pipeline or cluster and no [dbfs_tmp_path]. *)
Theorem init_runner_conf_outcome (args : gmap string (option string))
    (my_username run_id : string) :
  ((∃ runner_conf, init_runner_conf args my_username run_id = Ok runner_conf)
   ↔ ∃ catalog src cloud,
       args !! "uc_catalog_name" = Some catalog
       ∧ args !! "source" = Some (Some src)
       ∧ args !! "cloud_provider_name" = Some (Some cloud)
       ∧ src ∈ ["cloudfiles"; "eventhub"; "kafka"]
       ∧ cloud ∈ ["aws"; "azure"; "gcp"])
  ∧ (∀ catalog src cloud,
       args !! "uc_catalog_name" = Some catalog →
       args !! "source" = Some src →
       args !! "cloud_provider_name" = Some cloud →
       (∀ c, cloud = Some c → c ∉ ["aws"; "azure"; "gcp"]) →
       init_runner_conf args my_username run_id
       = Raise (KeyError (fmt cloud)))
  ∧ (∀ catalog src cloud,
       args !! "uc_catalog_name" = Some catalog →
       args !! "source" = Some src →
       args !! "cloud_provider_name" = Some (Some cloud) →
       cloud ∈ ["aws"; "azure"; "gcp"] →
       (∀ s, src = Some s → s ∉ ["cloudfiles"; "eventhub"; "kafka"]) →
       init_runner_conf args my_username run_id
       = Raise (Exception
           "Given source is not support. Support source are: cloudfiles, eventhub, or kafka"))
  ∧ (∀ runner_conf,
       init_runner_conf args my_username run_id = Ok runner_conf →
       test_schemas runner_conf
       = [ Some ("dlt_meta_dataflowspecs_it_" +:+ run_id);
           Some ("dlt_meta_bronze_it_" +:+ run_id);
           Some ("dlt_meta_silver_it_" +:+ run_id) ]
       ∧ runners_full_local_path runner_conf
         = (source runner_conf ≫= fun s => source_paths !! s)
       ∧ job_id runner_conf = None
       ∧ bronze_pipeline_id runner_conf = None
       ∧ silver_pipeline_id runner_conf = None
       ∧ cluster_id runner_conf = None
       ∧ dbfs_tmp_path runner_conf = None).
Proof.
  assert (Hclouds : ∀ c, c ∈ ["aws"; "azure"; "gcp"]
                         ↔ is_Some (cloud_node_type_id_dict !! c)).
  { intros c. rewrite !elem_of_cons, elem_of_nil.
    unfold cloud_node_type_id_dict. split.
    - intros [->|[->|[->|[]]]]; vm_compute; eauto.
    - intros [v Hv].
      apply lookup_insert_Some in Hv as [[<- _]|[_ Hv]]; [auto|].
      apply lookup_insert_Some in Hv as [[<- _]|[_ Hv]]; [auto|].
      apply lookup_singleton_Some in Hv as [<- _]. auto. }
  assert (Hsources : ∀ s, s ∈ ["cloudfiles"; "eventhub"; "kafka"]
                          ↔ is_Some (source_paths !! s)).
  { intros c. rewrite !elem_of_cons, elem_of_nil.
    unfold source_paths. split.
    - intros [->|[->|[->|[]]]]; vm_compute; eauto.
    - intros [v Hv].
      apply lookup_insert_Some in Hv as [[<- _]|[_ Hv]]; [auto|].
      apply lookup_insert_Some in Hv as [[<- _]|[_ Hv]]; [auto|].
      apply lookup_singleton_Some in Hv as [<- _]. auto. }
  split; [|split; [|split]].
  - split.
    + intros [rc H].
      apply init_runner_conf_ok in H
        as (catalog & src & cloud & node & path & Hc & Hs & Hp & Hnode
            & Hpath & _).
      exists catalog, src, cloud. repeat split; try assumption.
      * apply Hsources. eauto.
      * apply Hclouds. eauto.
    + intros (catalog & src & cloud & Hc & Hs & Hp & Hsrc & Hcloud).
      apply Hsources in Hsrc as [path Hpath].
      apply Hclouds in Hcloud as [node Hnode].
      eapply init_runner_conf_found; eassumption.
  - intros catalog src cloud Hc Hs Hp Hcloud.
    unfold init_runner_conf, getitem_key, getitem.
    rewrite Hc, Hs, Hp. cbn [bind]. destruct cloud as [cloud|]; [|reflexivity].
    destruct (cloud_node_type_id_dict !! cloud) as [node|] eqn:Hnode;
      [|reflexivity].
    exfalso. apply (Hcloud cloud eq_refl), Hclouds. eauto.
  - intros catalog src cloud Hc Hs Hp Hcloud Hsrc.
    unfold init_runner_conf, getitem_key, getitem.
    rewrite Hc, Hs, Hp. cbn [bind].
    apply Hclouds in Hcloud as [node ->]. cbn [bind].
    destruct src as [src|]; [|reflexivity].
    destruct (source_paths !! src) as [path|] eqn:Hpath; [|reflexivity].
    exfalso. apply (Hsrc src eq_refl), Hsources. eauto.
  - intros rc H.
    apply init_runner_conf_ok in H
      as (catalog & src & cloud & node & path & _ & _ & _ & _ & Hpath & ->).
    cbn. rewrite Hpath. repeat split; reflexivity.
Qed.

(** X14: two runs of the same user with different run ids share no schema
    name, no notebook path and no output file. *)
Theorem init_runner_conf_isolates_runs
    (args1 args2 : gmap string (option string)) (my_username : string)
    (run_id1 run_id2 : string) (runner_conf1 runner_conf2 : RunnerConf) :
  init_runner_conf args1 my_username run_id1 = Ok runner_conf1 →
  init_runner_conf args2 my_username run_id2 = Ok runner_conf2 →
  run_id1 ≠ run_id2 →
  (∀ schema, schema ∈ test_schemas runner_conf1 →
             schema ∈ test_schemas runner_conf2 → False)
  ∧ runners_nb_path runner_conf1 ≠ runners_nb_path runner_conf2
  ∧ test_output_file_path runner_conf1 ≠ test_output_file_path runner_conf2.
Proof.
  intros H1 H2 Hne.
  apply init_runner_conf_ok in H1 as (? & ? & ? & ? & ? & _ & _ & _ & _ & _ & ->).
  apply init_runner_conf_ok in H2 as (? & ? & ? & ? & ? & _ & _ & _ & _ & _ & ->).
  unfold test_schemas.
  cbn [dlt_meta_schema bronze_schema silver_schema runners_nb_path
       test_output_file_path].
  split; [|split].
  - intros schema Hin1 Hin2.
    rewrite !elem_of_cons, elem_of_nil in Hin1, Hin2.
    destruct Hin1 as [->|[->|[->|[]]]];
      destruct Hin2 as [H|[H|[H|[]]]]; simplify_eq.
  - intros H. injection H as H.
    do 3 apply (inj (String.app _)) in H. contradiction.
  - intros H. injection H as H.
    do 3 apply (inj (String.app _)) in H.
    apply app_same_length in H as [H _]; [contradiction | reflexivity].
Qed.

(** *** The configuration of a pipeline *)

(** The four keys of the configuration are distinct, whatever the layer. *)
Lemma layer_key_ne_group (layer : string) : layer +:+ ".group" ≠ "layer".
Proof.
  intros H. apply (f_equal String.length) in H. rewrite length_app in H.
  cbn in H. lia.
Qed.

Lemma layer_key_ne_table (layer : string) :
  layer +:+ ".dataflowspecTable" ≠ "layer".
Proof.
  intros H. apply (f_equal String.length) in H. rewrite length_app in H.
  cbn in H. lia.
Qed.

Lemma whl_key_ne_table (layer : string) :
  layer +:+ ".dataflowspecTable" ≠ "dlt_meta_whl".
Proof.
  intros H. apply (f_equal String.length) in H. rewrite length_app in H.
  cbn in H. lia.
Qed.

Lemma whl_key_ne_group (layer : string) : "dlt_meta_whl" ≠ layer +:+ ".group".
Proof.
  intros H. change "dlt_meta_whl" with ("dlt_me" +:+ "ta_whl") in H.
  apply app_same_length in H as [_ H]; [discriminate H | reflexivity].
Qed.

Lemma group_key_ne_table (layer : string) :
  layer +:+ ".dataflowspecTable" ≠ layer +:+ ".group".
Proof. intros H. apply (inj (String.app _)) in H. discriminate H. Qed.

Lemma ids_key_ne_group (layer : string) :
  layer +:+ ".dataflowIds" ≠ layer +:+ ".group".
Proof. intros H. apply (inj (String.app _)) in H. discriminate H. Qed.

Lemma pipeline_configuration_layer (layer group : string)
    (runner_conf : RunnerConf) :
  pipeline_configuration layer group runner_conf !! "layer"
  = Some (Some layer).
Proof.
  unfold pipeline_configuration. cbn zeta.
  destruct (truthy (uc_catalog_name runner_conf));
    rewrite (lookup_insert_ne _ _ _ _ (layer_key_ne_table layer));
    rewrite lookup_insert_ne by discriminate;
    rewrite (lookup_insert_ne _ _ _ _ (layer_key_ne_group layer));
    apply lookup_insert_eq.
Qed.

Lemma pipeline_configuration_group (layer group : string)
    (runner_conf : RunnerConf) :
  pipeline_configuration layer group runner_conf !! (layer +:+ ".group")
  = Some (Some group).
Proof.
  unfold pipeline_configuration. cbn zeta.
  destruct (truthy (uc_catalog_name runner_conf));
    rewrite (lookup_insert_ne _ _ _ _ (group_key_ne_table layer));
    rewrite (lookup_insert_ne _ _ _ _ (whl_key_ne_group layer));
    apply lookup_insert_eq.
Qed.

Lemma pipeline_configuration_table (layer group : string)
    (runner_conf : RunnerConf) :
  pipeline_configuration layer group runner_conf
    !! (layer +:+ ".dataflowspecTable")
  = Some (Some
      (if truthy (uc_catalog_name runner_conf) then
         fmt (uc_catalog_name runner_conf) +:+ "."
         +:+ fmt (dlt_meta_schema runner_conf) +:+ "."
         +:+ layer +:+ "_dataflowspec_cdc"
       else
         fmt (dlt_meta_schema runner_conf) +:+ "."
         +:+ layer +:+ "_dataflowspec_cdc")).
Proof.
  unfold pipeline_configuration. cbn zeta.
  destruct (truthy (uc_catalog_name runner_conf)); apply lookup_insert_eq.
Qed.

(** X15: a run-time configuration that has the entries of the configuration
    map [create_dlt_meta_pipeline] builds passes
    [check_spark_dataflowpipeline_conf_params], whatever the layer argument;
    and, the group not being empty, [_get_dataflow_spec] for that layer reads
    the table of the run's schema ([<catalog>.<schema>.<layer>_dataflowspec_cdc]
    when the run has a catalog) and keeps the latest versions of the rows of
    that group. *)
Theorem pipeline_configuration_passes_validation (layer group : string)
    (runner_conf : RunnerConf) (conf : gmap string string)
    (layer_arg : string) :
  (∀ key v, pipeline_configuration layer group runner_conf !! key
            = Some (Some v) → conf !! key = Some v) →
  DataflowSpecUtils.check_spark_dataflowpipeline_conf_params conf layer_arg
  = Ok tt
  ∧ (group ≠ "" →
     ∀ read_table sql_condition,
       DataflowSpecUtils._get_dataflow_spec read_table sql_condition conf
         layer None None None
       = match read_table
                 (if truthy (uc_catalog_name runner_conf) then
                    fmt (uc_catalog_name runner_conf) +:+ "."
                    +:+ fmt (dlt_meta_schema runner_conf) +:+ "."
                    +:+ layer +:+ "_dataflowspec_cdc"
                  else
                    fmt (dlt_meta_schema runner_conf) +:+ "."
                    +:+ layer +:+ "_dataflowspec_cdc") with
         | Some df =>
             Ok (DataflowSpecUtils.latest_version
                   (List.filter
                      (fun r => String.eqb (DataflowSpecUtils.dataFlowGroup r)
                                  group) df))
         | None => Raise (PlatformError "read.table")
         end).
Proof.
  intros Hconf.
  pose proof (Hconf _ _ (pipeline_configuration_layer layer group runner_conf))
    as Hlayer.
  pose proof (Hconf _ _ (pipeline_configuration_group layer group runner_conf))
    as Hgroup.
  pose proof (Hconf _ _ (pipeline_configuration_table layer group runner_conf))
    as Htable.
  split.
  - unfold DataflowSpecUtils.check_spark_dataflowpipeline_conf_params.
    rewrite Hlayer, Htable, Hgroup. reflexivity.
  - intros Hne read_table sql_condition.
    unfold DataflowSpecUtils._get_dataflow_spec,
      DataflowSpecUtils.given_or_table, DataflowSpecUtils.conf_get,
      DataflowSpecUtils.or_conf.
    rewrite Htable. cbn [bind truthy negb]. rewrite Hgroup.
    destruct (read_table _) as [df|]; [|reflexivity]. cbn [bind].
    unfold DataflowSpecUtils.where_group_or_ids. cbn [truthy default].
    apply String.eqb_neq in Hne. rewrite Hne. reflexivity.
Qed.

(** *** Computations that stop *)

Lemma stops_fail {A : Type} (P : request → Prop) (E : exn → Prop) (e : exn) :
  E e → stops P E (fail (A := A) e).
Proof.
  intros He tr. exists [], e. rewrite app_nil_r.
  split; [reflexivity|]. split; [constructor | exact He].
Qed.

Lemma stops_andthen {A B : Type} (P : request → Prop) (E : exn → Prop)
    (c : life_m A) (k : A → life_m B) :
  sends P c →
  (∀ tr e, snd (c tr) = Raise e → E e) →
  (∀ a, stops P E (k a)) →
  stops P E (andthen c k).
Proof.
  intros Hc HE Hk tr. unfold andthen.
  destruct (Hc tr) as (ext & Htr & Hext). specialize (HE tr).
  destruct (c tr) as [tr' [a|e]]; cbn in Htr, HE; subst tr'.
  - destruct (Hk a (tr ++ ext)%list) as (ext' & e & Hrun & Hext' & He).
    exists (ext ++ ext')%list, e. rewrite Hrun, app_assoc.
    split; [reflexivity|]. split; [apply Forall_app; auto | exact He].
  - exists ext, e. auto.
Qed.


Section LifecycleFacts.

Variable workspace : list request → request → option exn.
Variable created : list request → request → option (option string).
Variable listed : list request → request → list Info.

(** *** [create_bronze_silver_dlt] *)

(** One call of [create_dlt_meta_pipeline] is one request. *)
Lemma create_dlt_meta_pipeline_step (pipeline_name layer group : string)
    (target_schema : option string) (runner_conf : RunnerConf)
    (tr : list request) :
  ∃ res,
    create_dlt_meta_pipeline workspace created pipeline_name layer group
      target_schema runner_conf tr
    = ((tr ++ [create_request pipeline_name layer group target_schema
                 runner_conf])%list, res)
    ∧ ∀ e, res = Raise e →
           e = Exception "Pipeline creation failed"
           ∨ ∃ tr' r', workspace tr' r' = Some e.
Proof.
  unfold create_dlt_meta_pipeline, andthen, ask, create_request. cbn zeta.
  destruct (truthy (uc_catalog_name runner_conf)).
  all: match goal with
       | |- context [workspace ?t ?r] =>
           destruct (workspace t r) as [e|] eqn:Hw;
           [ exists (Raise e); split; [reflexivity|];
             intros e' H; injection H as <-; eauto
           | destruct (created t r) as [id|];
             [ exists (Ok id); split; [reflexivity | discriminate]
             | exists (Raise (Exception "Pipeline creation failed"));
               split; [reflexivity|];
               intros e' H; injection H as <-; auto ] ]
       end.
Qed.

(** X16: [create_bronze_silver_dlt] asks for the pipelines of the run in
    their order and for nothing else, stopping at the first request that
    fails: the bronze pipeline of group A1 and, for the source [cloudfiles]
    only, the bronze pipeline of group A2 and the silver pipeline.  When it
    returns, all of them were asked for and the configuration differs from
    the one given in the pipeline ids only; when it raises, a creation gave
    no handle or the workspace raised. *)
Theorem create_bronze_silver_dlt_outcome (runner_conf : RunnerConf)
    (tr : list request) :
  ∃ ext res,
    create_bronze_silver_dlt workspace created runner_conf tr
    = ((tr ++ ext)%list, res)
    ∧ ext `prefix_of` pipelines_of_run runner_conf
    ∧ ext ≠ []
    ∧ match res with
      | Ok runner_conf' =>
          ext = pipelines_of_run runner_conf
          ∧ ∃ bronze bronze_A2 silver,
              runner_conf' =
              if bool_decide (source runner_conf = Some "cloudfiles") then
                set_silver_pipeline_id
                  (set_bronze_pipeline_A2_id
                     (set_bronze_pipeline_id runner_conf bronze) bronze_A2)
                  silver
              else set_bronze_pipeline_id runner_conf bronze
      | Raise e =>
          e = Exception "Pipeline creation failed"
          ∨ ∃ tr' r, workspace tr' r = Some e
      end.
Proof.
  unfold create_bronze_silver_dlt, andthen, pipelines_of_run.
  destruct (create_dlt_meta_pipeline_step
              ("dlt-meta-bronze-" +:+ run_id runner_conf) "bronze" "A1"
              (bronze_schema runner_conf) runner_conf tr)
    as (res1 & -> & He1).
  set (r1 := create_request ("dlt-meta-bronze-" +:+ run_id runner_conf)
               "bronze" "A1" (bronze_schema runner_conf) runner_conf).
  destruct res1 as [bronze|e1].
  2:{ exists [r1], (Raise e1). split; [reflexivity|].
      split; [case_bool_decide; [by eexists [_; _] | by exists []]|].
      split; [discriminate | auto]. }
  cbn zeta.
  replace (truthy (source (set_bronze_pipeline_id runner_conf bronze))
           && bool_decide
                (source (set_bronze_pipeline_id runner_conf bronze)
                 = Some "cloudfiles"))
    with (bool_decide (source runner_conf = Some "cloudfiles")).
  2:{ cbn. case_bool_decide as Hs; [rewrite Hs; reflexivity|].
      rewrite andb_false_r. reflexivity. }
  case_bool_decide as Hsource.
  2:{ exists [r1], (Ok (set_bronze_pipeline_id runner_conf bronze)).
      split; [reflexivity|]. split; [by exists []|].
      split; [discriminate|]. split; [reflexivity|].
      exists bronze, None, None. reflexivity. }
  match goal with
  | |- context [create_dlt_meta_pipeline _ _ ?n ?l ?g ?t ?rc (tr ++ [r1])%list] =>
      destruct (create_dlt_meta_pipeline_step n l g t rc (tr ++ [r1])%list)
        as (res2 & -> & He2)
  end.
  set (r2 := create_request ("dlt-meta-bronze-A2-" +:+ run_id runner_conf)
               "bronze" "A2" (bronze_schema runner_conf) runner_conf).
  change (create_request _ "bronze" "A2" _ _) with r2.
  destruct res2 as [bronze_A2|e2].
  2:{ exists [r1; r2], (Raise e2). rewrite <- app_assoc.
      split; [reflexivity|]. split; [by eexists [_]|].
      split; [discriminate | auto]. }
  cbn zeta.
  match goal with
  | |- context [create_dlt_meta_pipeline _ _ ?n ?l ?g ?t ?rc
                  ((tr ++ [r1]) ++ [r2])%list] =>
      destruct (create_dlt_meta_pipeline_step n l g t rc
                  ((tr ++ [r1]) ++ [r2])%list)
        as (res3 & -> & He3)
  end.
  set (r3 := create_request ("dlt-meta-silver-" +:+ run_id runner_conf)
               "silver" "A1" (silver_schema runner_conf) runner_conf).
  change (create_request _ "silver" "A1" _ _) with r3.
  destruct res3 as [silver|e3].
  - eexists [r1; r2; r3], _. rewrite <- !app_assoc.
    split; [reflexivity|]. split; [by exists []|].
    split; [discriminate|]. split; [reflexivity | eauto].
  - exists [r1; r2; r3], (Raise e3). rewrite <- !app_assoc.
    split; [reflexivity|]. split; [by exists []|].
    split; [discriminate | auto].
Qed.


(** *** [clean_up] without [dbfs_tmp_path] *)

Lemma when_send_raises (cond : bool) (r : request) (tr : list request)
    (e : exn) :
  snd (when cond (send workspace r) tr) = Raise e →
  ∃ tr' r', workspace tr' r' = Some e.
Proof.
  destruct cond; cbn; [|discriminate].
  intros H. apply ask_raises in H. eauto.
Qed.

(** X18: [dbfs_tmp_path] is not a field of the run configuration and nothing
    assigns it, so [clean_up] reads an attribute that does not exist.  For
    such a configuration [clean_up] always raises: [AttributeError], unless
    the workspace raised first.  It has asked for nothing but the deletion of
    the job, of pipelines and of the cluster: no schema, volume or table is
    listed or deleted. *)
Theorem clean_up_raises_without_dbfs_tmp_path (runner_conf : RunnerConf) :
  dbfs_tmp_path runner_conf = None →
  stops early_delete
    (fun e => e = AttributeError "dbfs_tmp_path"
              ∨ ∃ tr r, workspace tr r = Some e)
    (clean_up workspace listed runner_conf).
Proof.
  intros Hdbfs. unfold clean_up.
  repeat (apply stops_andthen;
    [ apply sends_when; intros _; apply sends_ask; exact I
    | intros tr e H; right; exact (when_send_raises _ _ _ _ H)
    | intros _ ]).
  unfold get_dbfs_tmp_path. rewrite Hdbfs.
  intros tr. exists [], (AttributeError "dbfs_tmp_path").
  rewrite app_nil_r. split; [reflexivity|]. split; [constructor | auto].
Qed.


End LifecycleFacts.

(** Two runs on azure with the source [eventhub]. *)
Lemma init_runner_conf_isolates_runs_witness :
  (∀ schema, schema ∈ test_schemas (eventhub_run "run1") →
             schema ∈ test_schemas (eventhub_run "run2") → False)
  ∧ runners_nb_path (eventhub_run "run1")
    ≠ runners_nb_path (eventhub_run "run2")
  ∧ test_output_file_path (eventhub_run "run1")
    ≠ test_output_file_path (eventhub_run "run2").
Proof.
  apply (init_runner_conf_isolates_runs eventhub_run_args eventhub_run_args
           "me" "run1" "run2").
  - vm_compute. reflexivity.
  - vm_compute. reflexivity.
  - discriminate.
Defined.

(** The bronze pipeline of such a run passes the validation, also when the
    validation is asked about the silver layer. *)
Lemma pipeline_configuration_passes_validation_witness :
  DataflowSpecUtils.check_spark_dataflowpipeline_conf_params
    (spark_conf_of (pipeline_configuration "bronze" "A1" (eventhub_run "run1")))
    "silver"
  = Ok tt.
Proof.
  refine (proj1 (pipeline_configuration_passes_validation "bronze" "A1"
                   (eventhub_run "run1") _ "silver" _)).
  intros key v H. unfold spark_conf_of. rewrite lookup_omap, H. reflexivity.
Defined.

(** Such a run cannot be cleaned up. *)
Lemma clean_up_raises_without_dbfs_tmp_path_witness :
  stops early_delete
    (fun e => e = AttributeError "dbfs_tmp_path"
              ∨ ∃ tr r, accepts_all tr r = Some e)
    (clean_up accepts_all lists_nothing (eventhub_run "run1")).
Proof.
  apply (clean_up_raises_without_dbfs_tmp_path accepts_all lists_nothing
           (eventhub_run "run1")).
  reflexivity.
Defined.

End RunnerLifecycleFacts.
